(** * Chat client: data tools, tool-calling loop and streaming controller

    A shallow embedding of the JavaScript sources of the chat client
    (the CSV/JSON data tools, the Gemini gateway with its function-calling
    loop, and the send handler of the chat component), followed by the
    properties established about them. *)

From Stdlib Require Import String Ascii List ZArith NArith Bool Lia Floats.
From Stdlib Require Import DecimalString Permutation.
Import ListNotations.
Local Open Scope string_scope.
Set Warnings "-inexact-float,-register-all".

(* ===================================================================== *)
(** * The JavaScript fragment used by the sources *)
(* ===================================================================== *)

Module JS.

(** ** Strings

    A [string] is a sequence of UTF-16 code units; every [ascii] stands for
    one code unit below 256. *)

Definition code (c : ascii) : N := N_of_ascii c.

(** [WhiteSpace] and [LineTerminator] code units below 256:
    TAB, LF, VT, FF, CR, SP and NBSP. *)
Definition isWhiteSpace (c : ascii) : bool :=
  let n := code c in
  (((9 <=? n) && (n <=? 13)) || (n =? 32) || (n =? 160))%N.

Definition isLineTerminator (c : ascii) : bool :=
  let n := code c in ((n =? 10) || (n =? 13))%N.

Fixpoint trimStart (s : string) : string :=
  match s with
  | String c s' => if isWhiteSpace c then trimStart s' else s
  | EmptyString => EmptyString
  end.

Fixpoint trimEnd (s : string) : string :=
  match s with
  | EmptyString => EmptyString
  | String c s' =>
      match trimEnd s' with
      | EmptyString => if isWhiteSpace c then EmptyString else String c EmptyString
      | t => String c t
      end
  end.

(** [String.prototype.trim] *)
Definition trim (s : string) : string := trimEnd (trimStart s).

(** [s.split(sep)] for a one-character separator. *)
Fixpoint split (sep : ascii) (s : string) : list string :=
  match s with
  | EmptyString => [EmptyString]
  | String c s' =>
      if Ascii.eqb c sep then EmptyString :: split sep s'
      else match split sep s' with
           | w :: ws => String c w :: ws
           | [] => [String c EmptyString]
           end
  end.

(** [arr.join(sep)] on an array of strings. *)
Fixpoint join (sep : string) (l : list string) : string :=
  match l with
  | [] => EmptyString
  | [x] => x
  | x :: xs => x ++ sep ++ join sep xs
  end.

(** [hay.includes(needle)] *)
Fixpoint includes (hay needle : string) : bool :=
  if String.prefix needle hay then true
  else match hay with
       | EmptyString => false
       | String _ hay' => includes hay' needle
       end.

Definition lowerChar (c : ascii) : ascii :=
  let n := code c in
  if (((65 <=? n) && (n <=? 90)) || ((192 <=? n) && (n <=? 222) && negb (n =? 215)))%N
  then ascii_of_N (n + 32) else c.

Definition upperChar (c : ascii) : ascii :=
  let n := code c in
  if (((97 <=? n) && (n <=? 122)) || ((224 <=? n) && (n <=? 254) && negb (n =? 247)))%N
  then ascii_of_N (n - 32) else c.

Fixpoint mapString (f : ascii -> ascii) (s : string) : string :=
  match s with
  | EmptyString => EmptyString
  | String c s' => String (f c) (mapString f s')
  end.

Fixpoint filterString (f : ascii -> bool) (s : string) : string :=
  match s with
  | EmptyString => EmptyString
  | String c s' => if f c then String c (filterString f s') else filterString f s'
  end.

(** [String.prototype.toLowerCase] *)
Definition toLowerCase (s : string) : string := mapString lowerChar s.

(** [s.slice(0, n)] for a non-negative integer [n]. *)
Fixpoint sliceTo (n : nat) (s : string) : string :=
  match n, s with
  | S n', String c s' => String c (sliceTo n' s')
  | _, _ => EmptyString
  end.

(** ** Regular expressions

    The patterns of the sources are built from literal characters, [.],
    [\s], alternation, [?] and [*], optionally anchored with [^] and [$]
    and optionally case-insensitive.  [test] decides whether a pattern
    matches somewhere in a string. *)

Inductive Regex : Type :=
| REps
| RChar (c : ascii)
| RAny
| RSpace
| RSeq (r1 r2 : Regex)
| RAlt (r1 r2 : Regex)
| RStar (r : Regex)
| RNone.

Definition ROpt (r : Regex) : Regex := RAlt r REps.

(** The literal [s] as a pattern. *)
Fixpoint RLit (s : string) : Regex :=
  match s with
  | EmptyString => REps
  | String c s' => RSeq (RChar c) (RLit s')
  end.

Fixpoint nullable (r : Regex) : bool :=
  match r with
  | REps => true
  | RChar _ | RAny | RSpace | RNone => false
  | RSeq r1 r2 => nullable r1 && nullable r2
  | RAlt r1 r2 => nullable r1 || nullable r2
  | RStar _ => true
  end.

(** Derivative of a pattern by one character; [ic] is the [i] flag. *)
Fixpoint deriv (ic : bool) (r : Regex) (a : ascii) : Regex :=
  match r with
  | REps | RNone => RNone
  | RChar c =>
      if (if ic then Ascii.eqb (upperChar c) (upperChar a) else Ascii.eqb c a)
      then REps else RNone
  | RAny => if isLineTerminator a then RNone else REps
  | RSpace => if isWhiteSpace a then REps else RNone
  | RSeq r1 r2 =>
      if nullable r1
      then RAlt (RSeq (deriv ic r1 a) r2) (deriv ic r2 a)
      else RSeq (deriv ic r1 a) r2
  | RAlt r1 r2 => RAlt (deriv ic r1 a) (deriv ic r2 a)
  | RStar r1 => RSeq (deriv ic r1 a) (RStar r1)
  end.

(** Does [r] match a prefix of [s] (the whole of [s] when [toEnd])? *)
Fixpoint matchHere (ic toEnd : bool) (r : Regex) (s : string) : bool :=
  match s with
  | EmptyString => nullable r
  | String a s' =>
      (negb toEnd && nullable r) || matchHere ic toEnd (deriv ic r a) s'
  end.

Fixpoint matchAnywhere (ic toEnd : bool) (r : Regex) (s : string) : bool :=
  matchHere ic toEnd r s ||
  match s with
  | EmptyString => false
  | String _ s' => matchAnywhere ic toEnd r s'
  end.

Record Pattern : Type := mkPattern {
  fromStart : bool;    (* the pattern starts with ^ *)
  body : Regex;
  toEnd : bool;        (* the pattern ends with $ *)
  ignoreCase : bool    (* the i flag *)
}.

(** [pattern.test(s)] *)
Definition test (p : Pattern) (s : string) : bool :=
  if fromStart p then matchHere (ignoreCase p) (toEnd p) (body p) s
  else matchAnywhere (ignoreCase p) (toEnd p) (body p) s.

(** [s.replace(/^"|"$/g, '')]: a leading quote is removed, and so is a
    trailing quote that is not that same character. *)
Definition dquote : ascii := ascii_of_N 34.

Fixpoint dropLastQuote (s : string) : string :=
  match s with
  | EmptyString => EmptyString
  | String c EmptyString => if Ascii.eqb c dquote then EmptyString else s
  | String c s' => String c (dropLastQuote s')
  end.

Definition stripQuotes (s : string) : string :=
  match s with
  | String c s' => if Ascii.eqb c dquote then dropLastQuote s' else dropLastQuote s
  | EmptyString => EmptyString
  end.

(** [s.replace(/[\s_-]+/g, '')] *)
Definition dropSeparators (s : string) : string :=
  filterString
    (fun c => negb (isWhiteSpace c || Ascii.eqb c "_"%char || Ascii.eqb c "-"%char)) s.

(** ** Numbers: IEEE 754 binary64 *)

Definition NaN : float := PrimFloat.nan.

(** The double nearest to an integer (ties to even). *)
Definition ofZ (z : Z) : float :=
  SF2Prim (binary_normalize prec emax z 0 false).

Definition ofNat (n : nat) : float := ofZ (Z.of_nat n).

(** The double nearest to [n / d], negated when [neg]. *)
Definition ofRatio (neg : bool) (n d : positive) : float :=
  let '(mz, ez, lz) := SFdiv_core_binary prec emax (Zpos n) 0 (Zpos d) 0 in
  SF2Prim (binary_round_aux prec emax neg mz ez lz).

(** The double nearest to [m * 10^e], negated when [neg]. *)
Definition ofDecimal (neg : bool) (m : N) (e : Z) : float :=
  match m with
  | N0 => if neg then PrimFloat.neg_zero else PrimFloat.zero
  | Npos p =>
      match e with
      | Zneg k => ofRatio neg p (Pos.pow 10 k)
      | _ => SF2Prim (binary_round prec emax neg (p * Z.to_pos (10 ^ e))%positive 0)
      end
  end.

Definition isDigit (c : ascii) : bool := ((48 <=? code c) && (code c <=? 57))%N.
Definition digitVal (c : ascii) : N := (code c - 48)%N.

(** Reads a run of decimal digits: its value, its length, and the rest. *)
Fixpoint readDigits (acc : N) (len : nat) (s : string) : N * nat * string :=
  match s with
  | String c s' =>
      if isDigit c then readDigits (10 * acc + digitVal c)%N (S len) s' else (acc, len, s)
  | EmptyString => (acc, len, s)
  end.

(** An [ExponentPart] at the head of [s], when it is complete: its value
    and what follows it. *)
Definition readExponent (s : string) : Z * string :=
  match s with
  | String c s' =>
      if (Ascii.eqb c "e" || Ascii.eqb c "E")%char then
        let '(neg, s'') :=
          match s' with
          | String "-"%char t => (true, t)
          | String "+"%char t => (false, t)
          | _ => (false, s')
          end in
        let '(v, len, rest) := readDigits 0 0 s'' in
        match len with
        | O => (0%Z, s)
        | _ => (if neg then (- Z.of_N v)%Z else Z.of_N v, rest)
        end
      else (0%Z, s)
  | EmptyString => (0%Z, s)
  end.

(** The longest prefix of [s] that is an unsigned [StrDecimalLiteral]:
    its value (with the sign [neg] applied) and what follows it. *)
Definition readUnsigned (neg : bool) (s : string) : option (float * string) :=
  if String.prefix "Infinity" s then
    Some (if neg then PrimFloat.neg_infinity else PrimFloat.infinity,
          String.substring 8 (String.length s - 8) s)
  else
    let '(ip, ilen, rest) := readDigits 0 0 s in
    let '(m, flen, rest') :=
      match rest with
      | String "."%char t => let '(m, flen, t') := readDigits ip 0 t in
                             match ilen, flen with
                             | O, O => (ip, O, rest)
                             | _, _ => (m, flen, t')
                             end
      | _ => (ip, O, rest)
      end in
    match ilen, flen with
    | O, O => None
    | _, _ => let '(ex, rest'') := readExponent rest' in
              Some (ofDecimal neg m (ex - Z.of_nat flen), rest'')
    end.

Definition readSigned (s : string) : option (float * string) :=
  match s with
  | String "-"%char t => readUnsigned true t
  | String "+"%char t => readUnsigned false t
  | t => readUnsigned false t
  end.

(** [parseFloat] on a string. *)
Definition parseFloatStr (s : string) : float :=
  match readSigned (trimStart s) with
  | Some (x, _) => x
  | None => NaN
  end.

(** Digits in base 2, 8 or 16, for [0b], [0o] and [0x] literals. *)
Definition digitInBase (base : N) (c : ascii) : option N :=
  let n := code c in
  let v := if ((48 <=? n) && (n <=? 57))%N then Some (n - 48)%N
           else if ((97 <=? n) && (n <=? 102))%N then Some (n - 87)%N
           else if ((65 <=? n) && (n <=? 70))%N then Some (n - 55)%N
           else None in
  match v with
  | Some d => if (d <? base)%N then Some d else None
  | None => None
  end.

Fixpoint readInBase (base : N) (acc : option N) (s : string) : option N :=
  match s with
  | EmptyString => acc
  | String c s' =>
      match digitInBase base c with
      | Some d => readInBase base (Some (match acc with Some a => base * a + d | None => d end)%N) s'
      | None => None
      end
  end.

(** [StringToNumber], the conversion behind unary [+] on a string. *)
Definition StringToNumber (s : string) : float :=
  let t := trim s in
  match t with
  | EmptyString => PrimFloat.zero
  | String "0"%char (String p digits) =>
      let based b := match readInBase b None digits with
                     | Some n => ofZ (Z.of_N n)
                     | None => NaN
                     end in
      if (Ascii.eqb p "x" || Ascii.eqb p "X")%char then based 16%N
      else if (Ascii.eqb p "o" || Ascii.eqb p "O")%char then based 8%N
      else if (Ascii.eqb p "b" || Ascii.eqb p "B")%char then based 2%N
      else match readSigned t with
           | Some (x, EmptyString) => x
           | _ => NaN
           end
  | _ => match readSigned t with
         | Some (x, EmptyString) => x
         | _ => NaN
         end
  end.

Definition stringOfN (n : N) : string := NilZero.string_of_uint (N.to_uint n).

Fixpoint zeros (n : nat) : string :=
  match n with O => EmptyString | S n' => String "0" (zeros n') end.

(** [m * 2^e * 10^f] rounded to the nearest integer, the larger one on a tie. *)
Definition scaledRound (m : positive) (e : Z) (f : N) : N :=
  let num := (Npos m * 10 ^ f)%N in
  match e with
  | Zneg k => ((2 * num + 2 ^ Npos k) / (2 ^ (Npos k + 1)))%N
  | _ => (num * 2 ^ Z.to_N e)%N
  end.

(** [floor (m * 2^e * 10^p)] *)
Definition floorScaled (m : positive) (e : Z) (p : Z) : N :=
  let num := (Npos m * (match e with Zneg _ => 1 | _ => 2 ^ Z.to_N e end)
              * (match p with Zneg _ => 1 | _ => 10 ^ Z.to_N p end))%N in
  let den := ((match e with Zneg k => 2 ^ Npos k | _ => 1 end)
              * (match p with Zneg k => 10 ^ Npos k | _ => 1 end))%N in
  (num / den)%N.

(** The [n] of Number::toString: [10^(n-1) <= m * 2^e < 10^n]. *)
Definition decimalExponent (m : positive) (e : Z) : Z :=
  let b := (Z.log2 (Zpos m) + e)%Z in
  let g := (b * 30103 / 100000)%Z in
  let ok n := let d := floorScaled m e (1 - n) in ((1 <=? d) && (d <=? 9))%N in
  if ok (g - 1)%Z then (g - 1)%Z else if ok g then g
  else if ok (g + 1)%Z then (g + 1)%Z else (g + 2)%Z.

(** The shortest digit string [s], of [k] digits, such that [s * 10^(n-k)]
    reads back as [x = m * 2^e]; of two candidates the closer one. *)
Fixpoint shortestDigits (fuel : nat) (k : nat) (x : float) (m : positive) (e : Z) (n : Z)
  : N * Z :=
  match fuel with
  | O => (floorScaled m e (Z.of_nat k - n), n)
  | S fuel' =>
      let p := (Z.of_nat k - n)%Z in
      let lo := floorScaled m e p in
      let hi := (lo + 1)%N in
      let back s := (ofDecimal false s (- p) =? x)%float in
      let twice := floorScaled m (e + 1) p in
      let loFirst := (twice <? lo + hi)%N in
      let c1 := if loFirst then lo else hi in
      let c2 := if loFirst then hi else lo in
      let inRange s := ((10 ^ N.of_nat (k - 1) <=? s) && (s <? 10 ^ N.of_nat k))%N in
      if inRange c1 && back c1 then (c1, n)
      else if inRange c2 && back c2 then (c2, n)
      else if (hi =? 10 ^ N.of_nat k)%N && back hi then ((10 ^ N.of_nat (k - 1))%N, (n + 1)%Z)
      else shortestDigits fuel' (S k) x m e n
  end.

(** Number::toString *)
Definition NumberToString (x : float) : string :=
  match Prim2SF x with
  | S754_nan => "NaN"
  | S754_zero _ => "0"
  | S754_infinity s => if s then "-Infinity" else "Infinity"
  | S754_finite s m e =>
      let '(digits, n) := shortestDigits 17 1 (PrimFloat.abs x) m e (decimalExponent m e) in
      let ds := stringOfN digits in
      let k := Z.of_nat (String.length ds) in
      let body :=
        if ((k <=? n) && (n <=? 21))%Z then ds ++ zeros (Z.to_nat (n - k))
        else if ((0 <? n) && (n <=? 21))%Z then
          String.substring 0 (Z.to_nat n) ds ++ "." ++
          String.substring (Z.to_nat n) (Z.to_nat (k - n)) ds
        else if ((-6 <? n) && (n <=? 0))%Z then
          "0." ++ zeros (Z.to_nat (- n)) ++ ds
        else
          let ex := (n - 1)%Z in
          let es := (if (ex <? 0)%Z then "-" else "+") ++ stringOfN (Z.abs_N ex) in
          match ds with
          | String d EmptyString => String d ("e" ++ es)
          | String d rest => String d ("." ++ rest ++ "e" ++ es)
          | EmptyString => EmptyString
          end in
      if s then "-" ++ body else body
  end.

(** [x.toFixed(f)] *)
Definition toFixed (x : float) (f : nat) : string :=
  match Prim2SF x with
  | S754_finite s m e =>
      if (PrimFloat.abs x <? 1e21)%float then
        let ds := stringOfN (scaledRound m e (N.of_nat f)) in
        let k := String.length ds in
        let ds' := if Nat.leb k f then zeros (f + 1 - k) ++ ds else ds in
        let k' := String.length ds' in
        let body :=
          match f with
          | O => ds'
          | _ => String.substring 0 (k' - f) ds' ++ "." ++ String.substring (k' - f) f ds'
          end in
        if s then "-" ++ body else body
      else NumberToString x
  | S754_zero _ =>
      match f with O => "0" | _ => "0." ++ zeros f end
  | _ => NumberToString x
  end.

(** [Math.round] *)
Definition MathRound (x : float) : float :=
  match Prim2SF x with
  | S754_finite s m e =>
      match e with
      | Zneg k =>
          (* floor (x + 1/2) *)
          let two_k := (2 ^ Zpos k)%Z in
          let num := (2 * (if s then - Zpos m else Zpos m) + two_k)%Z in
          let r := (num / (2 * two_k))%Z in
          if (r =? 0)%Z then (if s then PrimFloat.neg_zero else PrimFloat.zero) else ofZ r
      | _ => x
      end
  | _ => x
  end.

(** [Math.min] and [Math.max] of two numbers, and of an argument list. *)
Definition min2 (a b : float) : float :=
  if PrimFloat.is_nan a || PrimFloat.is_nan b then NaN
  else if (a <? b)%float then a
  else if (b <? a)%float then b
  else if PrimFloat.get_sign a then a else b.

Definition max2 (a b : float) : float :=
  if PrimFloat.is_nan a || PrimFloat.is_nan b then NaN
  else if (a <? b)%float then b
  else if (b <? a)%float then a
  else if PrimFloat.get_sign a then b else a.

Definition MathMin (l : list float) : float := fold_left min2 l PrimFloat.infinity.
Definition MathMax (l : list float) : float := fold_left max2 l PrimFloat.neg_infinity.

(** [Array.prototype.sort] with a comparison function: a stable sort, an
    element moves behind another only when the comparison is positive. *)
Fixpoint insertBy {A : Type} (cmp : A -> A -> float) (x : A) (l : list A) : list A :=
  match l with
  | [] => [x]
  | y :: l' => if (0 <? cmp x y)%float then y :: insertBy cmp x l' else x :: l
  end.

Fixpoint sortBy {A : Type} (cmp : A -> A -> float) (l : list A) : list A :=
  match l with
  | [] => []
  | x :: l' => insertBy cmp x (sortBy cmp l')
  end.

(** ** Values

    Primitives, plain objects and arrays.  An object is the list of its own
    enumerable properties in insertion order; the members inherited from
    [Object.prototype] are not part of the model. *)

Inductive JSValue : Type :=
| VUndefined
| VNull
| VBool (b : bool)
| VNum (n : float)
| VStr (s : string)
| VObj (props : list (string * JSValue))
| VArr (elems : list JSValue).

Definition Obj : Type := list (string * JSValue).

(** Thrown values are error objects; [message] is their [.message]. *)
Inductive JSError : Type :=
| TypeError (msg : string)
| SyntaxError (msg : string)
| Error (msg : string).

Definition message (e : JSError) : string :=
  match e with TypeError m | SyntaxError m | Error m => m end.

(** The outcome of evaluating an expression or awaiting a promise. *)
Inductive Completion (A : Type) : Type :=
| Normal (a : A)
| Throw (e : JSError).
Arguments Normal {A} a.
Arguments Throw {A} e.

Definition bind {A B : Type} (c : Completion A) (k : A -> Completion B) : Completion B :=
  match c with
  | Normal a => k a
  | Throw e => Throw e
  end.

(** [try { c } catch (e) { h e }] *)
Definition tryCatch {A : Type} (c : Completion A) (h : JSError -> Completion A) : Completion A :=
  match c with
  | Normal a => Normal a
  | Throw e => h e
  end.

(** [ToBoolean] *)
Definition truthy (v : JSValue) : bool :=
  match v with
  | VUndefined | VNull => false
  | VBool b => b
  | VNum n => negb (PrimFloat.is_zero n || PrimFloat.is_nan n)
  | VStr s => negb (String.eqb s EmptyString)
  | VObj _ | VArr _ => true
  end.

(** [a || b] *)
Definition orElse (a b : JSValue) : JSValue := if truthy a then a else b.

(** [ToString], for the values that have a string: see [stringable]. *)
Fixpoint ToString (v : JSValue) : string :=
  match v with
  | VUndefined => "undefined"
  | VNull => "null"
  | VBool b => if b then "true" else "false"
  | VNum n => NumberToString n
  | VStr s => s
  | VObj _ => "[object Object]"
  | VArr l =>
      join "," (List.map (fun e => match e with
                                   | VUndefined | VNull => EmptyString
                                   | _ => ToString e
                                   end) l)
  end.

(** The values that conversion to a string or a number accepts.  An object
    with a key [toString] of its own has no primitive value (the member is
    not a function, and the inherited [valueOf] returns the object), so
    [String(v)], a template literal, [v.toString()], [parseFloat(v)] and
    arithmetic on it throw a [TypeError]; an array is joined from its
    elements, so the same holds when an element is such an object.
    [ToString], [ToNumber] and [parseFloat] model the conversions of the
    other values. *)
Fixpoint stringable (v : JSValue) : bool :=
  match v with
  | VObj o => negb (List.existsb (fun kv => String.eqb (fst kv) "toString") o)
  | VArr l => (fix all (l : list JSValue) : bool :=
                 match l with
                 | [] => true
                 | e :: l' => stringable e && all l'
                 end) l
  | _ => true
  end.

(** [ToNumber], for the values that are [stringable]. *)
Definition ToNumber (v : JSValue) : float :=
  match v with
  | VUndefined => NaN
  | VNull => PrimFloat.zero
  | VBool b => if b then PrimFloat.one else PrimFloat.zero
  | VNum n => n
  | _ => StringToNumber (ToString v)
  end.

(** [parseFloat(v)], for the values that are [stringable]. *)
Definition parseFloat (v : JSValue) : float := parseFloatStr (ToString v).

(** [isNaN] on a number. *)
Definition isNaN (x : float) : bool := PrimFloat.is_nan x.

(** [undefined] or [null]: the values without properties. *)
Definition nullish (v : JSValue) : bool :=
  match v with VUndefined | VNull => true | _ => false end.

Definition isUndefined (v : JSValue) : bool :=
  match v with VUndefined => true | _ => false end.

(** Strict equality [===] of a value with a string literal. *)
Definition isStr (v : JSValue) (s : string) : bool :=
  match v with VStr t => String.eqb t s | _ => false end.

(** *** Property keys and objects *)

(** An array index: the canonical decimal string of an integer below
    [2^32 - 1]. *)
Definition arrayIndex (k : string) : option N :=
  match k with
  | EmptyString => None
  | String c rest =>
      let '(v, len, tl) := readDigits 0 0 k in
      match tl with
      | EmptyString =>
          if (Ascii.eqb c "0" && negb (String.eqb rest EmptyString))%bool then None
          else if (v <? 4294967295)%N then Some v else None
      | _ => None
      end
  end.

Fixpoint lookup (k : string) (o : Obj) : option JSValue :=
  match o with
  | [] => None
  | (k', v) :: o' => if String.eqb k' k then Some v else lookup k o'
  end.

(** [o[k] = v] on a plain object. *)
Fixpoint obj_set (o : Obj) (k : string) (v : JSValue) : Obj :=
  match o with
  | [] => [(k, v)]
  | (k', v') :: o' => if String.eqb k' k then (k', v) :: o' else (k', v') :: obj_set o' k v
  end.

(** [o[k] = v] by plain assignment of a value that is not an object, on an
    object whose prototype is [Object.prototype]: the key [__proto__] is
    the accessor of the prototype, whose setter ignores such a value, so
    nothing is stored under it. *)
Definition assign (o : Obj) (k : string) (v : JSValue) : Obj :=
  if String.eqb k "__proto__" then o else obj_set o k v.

Fixpoint insertIndex (i : N) (k : string) (l : list (N * string)) : list (N * string) :=
  match l with
  | [] => [(i, k)]
  | (j, k') :: l' => if (i <? j)%N then (i, k) :: l else (j, k') :: insertIndex i k l'
  end.

(** [Object.keys(o)]: array indices in ascending order, then the other
    keys in insertion order. *)
Definition ownKeys (o : Obj) : list string :=
  let ks := List.map fst o in
  let idx := fold_right (fun k acc => match arrayIndex k with
                                      | Some i => insertIndex i k acc
                                      | None => acc
                                      end) [] ks in
  (List.map snd idx ++
  List.filter (fun k => match arrayIndex k with Some _ => false | None => true end) ks)%list.

Fixpoint indexed (i : nat) (l : list JSValue) : Obj :=
  match l with
  | [] => []
  | v :: l' => (stringOfN (N.of_nat i), v) :: indexed (S i) l'
  end.

Fixpoint chars (s : string) : list JSValue :=
  match s with
  | EmptyString => []
  | String c s' => VStr (String c EmptyString) :: chars s'
  end.

(** The own enumerable properties of a value, as object spread and rest
    destructuring copy them. *)
Definition ownProps (v : JSValue) : Obj :=
  match v with
  | VObj o => o
  | VArr l => indexed 0 l
  | VStr s => indexed 0 (chars s)
  | _ => []
  end.

(** A value all of whose own properties are [stringable]: an arguments
    object or a row whose values can be converted. *)
Definition plainProps (v : JSValue) : bool :=
  List.forallb (fun kv => stringable (snd kv)) (ownProps v).

(** A rows value that is not an array, or an array of values with
    [stringable] properties. *)
Definition plainRows (rows : JSValue) : bool :=
  match rows with
  | VArr l => List.forallb plainProps l
  | _ => true
  end.

(** [Object.keys(v)] *)
Definition ObjectKeys (v : JSValue) : Completion (list string) :=
  match v with
  | VUndefined | VNull => Throw (TypeError "Cannot convert undefined or null to object")
  | _ => Normal (ownKeys (ownProps v))
  end.

(** [v[k]], throwing on [undefined] and [null]: the own property, or
    [undefined].  A key that names a member of a prototype ([constructor],
    [__proto__], [toString], ...) and is no own property reads the inherited
    member in the source; such keys are outside the model. *)
Definition getProp (v : JSValue) (k : string) : Completion JSValue :=
  match v with
  | VUndefined | VNull =>
      Throw (TypeError ("Cannot read properties of " ++ ToString v ++ " (reading '" ++ k ++ "')"))
  | VObj o => Normal (match lookup k o with Some x => x | None => VUndefined end)
  | VArr l =>
      if String.eqb k "length" then Normal (VNum (ofNat (List.length l)))
      else Normal (match arrayIndex k with
                   | Some i => nth (N.to_nat i) l VUndefined
                   | None => VUndefined
                   end)
  | VStr s =>
      if String.eqb k "length" then Normal (VNum (ofNat (String.length s)))
      else Normal (match arrayIndex k with
                   | Some i => nth (N.to_nat i) (chars s) VUndefined
                   | None => VUndefined
                   end)
  | VBool _ | VNum _ => Normal VUndefined
  end.

(** [v?.[k]] *)
Definition getPropOpt (v : JSValue) (k : string) : JSValue :=
  match getProp v k with
  | Normal x => x
  | Throw _ => VUndefined
  end.

(** [r[k]] on a row object. *)
Definition field (r : Obj) (k : string) : JSValue :=
  match lookup k r with Some x => x | None => VUndefined end.

(** [arr.includes(s)] and [arr.find(f)] on an array of strings. *)
Definition includesStr (l : list string) (s : string) : bool :=
  List.existsb (String.eqb s) l.

Definition findStr (f : string -> bool) (l : list string) : option string :=
  List.find f l.

(** *** Integer conversion and array helpers *)

(** [ToIntegerOrInfinity]: [None] stands for an infinity of the sign given
    by the boolean ([true] is negative). *)
Definition ToIntegerOrInfinity (x : float) : Z + bool :=
  match Prim2SF x with
  | S754_nan | S754_zero _ => inl 0%Z
  | S754_infinity s => inr s
  | S754_finite s m e =>
      let mag := match e with
                 | Zneg k => (Zpos m / 2 ^ Zpos k)%Z
                 | _ => (Zpos m * 2 ^ e)%Z
                 end in
      inl (if s then (- mag)%Z else mag)
  end.

(** How many elements [arr.slice(0, end)] keeps of an array of [len]. *)
Definition sliceCount (len : nat) (endArg : JSValue) : nat :=
  match ToIntegerOrInfinity (ToNumber endArg) with
  | inr true => 0
  | inr false => len
  | inl z => if (z <? 0)%Z then Z.to_nat (Z.of_nat len + z) else Nat.min (Z.to_nat z) len
  end.

(** [arr.map(f)] for an [f] that can throw. *)
Fixpoint mapC {A B : Type} (f : A -> Completion B) (l : list A) : Completion (list B) :=
  match l with
  | [] => Normal []
  | x :: l' => bind (f x) (fun y => bind (mapC f l') (fun ys => Normal (y :: ys)))
  end.

(** [arr.map((x, i) => f x i)] *)
Fixpoint mapi {A B : Type} (f : A -> nat -> B) (i : nat) (l : list A) : list B :=
  match l with
  | [] => []
  | x :: l' => f x i :: mapi f (S i) l'
  end.

(** [arr.join(sep)] on an array of values. *)
Definition joinValues (sep : string) (l : list JSValue) : string :=
  join sep (List.map (fun e => match e with
                               | VUndefined | VNull => EmptyString
                               | _ => ToString e
                               end) l).

(** [x ** 2] *)
Definition square (x : float) : float := (x * x)%float.

(** [s.toLowerCase()] on a value that need not be a string. *)
Definition callToLowerCase (v : JSValue) : Completion string :=
  match v with
  | VStr s => Normal (toLowerCase s)
  | VUndefined | VNull =>
      Throw (TypeError ("Cannot read properties of " ++ ToString v ++ " (reading 'toLowerCase')"))
  | _ => Throw (TypeError "toLowerCase is not a function")
  end.

(** [arr.reduce] and loops whose body can throw. *)
Fixpoint foldC {A B : Type} (f : B -> A -> Completion B) (l : list A) (acc : B) : Completion B :=
  match l with
  | [] => Normal acc
  | x :: l' => bind (f acc x) (foldC f l')
  end.

(** [s] between double quotes. *)
Definition quoted (s : string) : string :=
  String dquote (s ++ String dquote EmptyString).

(** [x || 0] on a number. *)
Definition numOr0 (x : float) : float :=
  if truthy (VNum x) then x else PrimFloat.zero.

(** What [fetch('/api/generate-image', ...)] gives: a rejection, or a
    response with its [ok] flag and the outcome of [res.json()]. *)
Inductive ImageFetch : Type :=
| ImageFails (e : JSError)
| ImageDone (ok : bool) (json : Completion JSValue).

End JS.

(* ===================================================================== *)
(** * The CSV tools: parser, enrichment and tool executor *)
(* ===================================================================== *)

Module CsvTools.
Import JS.

Definition newline : ascii := ascii_of_N 10.
Definition comma : ascii := ","%char.

(** ** Parsing *)

(** The loop of [parseLine]: [result], [current] and [inQuotes] are its
    variables. *)
Fixpoint parseLineFrom (line : string) (result : list string) (current : string)
    (inQuotes : bool) : list string :=
  match line with
  | EmptyString => (result ++ [trim current])%list
  | String ch rest =>
      if Ascii.eqb ch dquote then parseLineFrom rest result current (negb inQuotes)
      else if Ascii.eqb ch comma && negb inQuotes
      then parseLineFrom rest (result ++ [trim current])%list EmptyString inQuotes
      else parseLineFrom rest result (current ++ String ch EmptyString) inQuotes
  end.

Definition parseLine (line : string) : list string :=
  parseLineFrom line [] EmptyString false.

Record Table : Type := mkTable {
  headers : list string;
  rows : list Obj
}.

(** [text.split('\n').filter((l) => l.trim())] *)
Definition nonBlankLines (text : string) : list string :=
  List.filter (fun l => truthy (VStr (trim l))) (split newline text).

(** [headers.forEach((h, i) => { obj[h] = (vals[i] || '').replace(/^"|"$/g, '') })] *)
Fixpoint fillRow (obj : Obj) (hs : list string) (i : nat) (vals : list string) : Obj :=
  match hs with
  | [] => obj
  | h :: hs' =>
      fillRow (assign obj h (VStr (stripQuotes (nth i vals EmptyString)))) hs' (S i) vals
  end.

Definition rowOfLine (hs : list string) (line : string) : Obj :=
  fillRow [] hs 0 (parseLine line).

Definition parseCsvToRows (text : string) : Table :=
  match nonBlankLines text with
  | first :: second :: more =>
      let hs := List.map stripQuotes (parseLine first) in
      mkTable hs (List.map (rowOfLine hs) (second :: more))
  | _ => mkTable [] []
  end.

(** A string without the given character. *)
Fixpoint lacks (c : ascii) (s : string) : bool :=
  match s with
  | EmptyString => true
  | String a s' => negb (Ascii.eqb a c) && lacks c s'
  end.

(** ** Column lookup *)

(** [norm] of [resolveCol] *)
Definition norm (s : string) : string := dropSeparators (toLowerCase s).

Definition resolveCol (rows : list JSValue) (name : JSValue) : Completion JSValue :=
  match rows with
  | [] => Normal name
  | row0 :: _ =>
      if negb (truthy name) then Normal name
      else
        bind (ObjectKeys row0) (fun keys =>
        if List.existsb (fun k => isStr name k) keys then Normal name
        else
          bind (callToLowerCase name) (fun lowered =>
          let target := dropSeparators lowered in
          Normal (orElse (match List.find (fun k => String.eqb (norm k) target) keys with
                          | Some k => VStr k
                          | None => VUndefined
                          end)
                         name)))
  end.

(** ** Math helpers *)

Definition numericValues (rows : list JSValue) (col : JSValue) : Completion (list float) :=
  bind (mapC (fun r => bind (getProp r (ToString col)) (fun v => Normal (parseFloat v))) rows)
       (fun parsed => Normal (List.filter (fun v => negb (isNaN v)) parsed)).

Definition median (sorted : list float) : float :=
  let len := List.length sorted in
  if Nat.even len
  then ((match len with
         | O => NaN
         | _ => nth (len / 2 - 1) sorted NaN
         end + nth (len / 2) sorted NaN) / 2)%float
  else nth (len / 2) sorted NaN.

(** [fmt = (n) => +n.toFixed(4)] *)
Definition fmt (n : float) : float := StringToNumber (toFixed n 4).

Definition sum (vals : list float) : float :=
  fold_left (fun a b => (a + b)%float) vals PrimFloat.zero.

(** The statistics shared by [compute_column_stats] and
    [compute_stats_json]; [label] is ["column"] or ["field"]. *)
Definition statsResult (label : string) (col : JSValue) (vals : list float) : JSValue :=
  let len := ofNat (List.length vals) in
  let mean := (sum vals / len)%float in
  let sorted := sortBy (fun a b => (a - b)%float) vals in
  let variance :=
    (fold_left (fun a b => (a + square (b - mean))%float) vals PrimFloat.zero / len)%float in
  VObj [(label, col);
        ("count", VNum len);
        ("mean", VNum (fmt mean));
        ("median", VNum (fmt (median sorted)));
        ("std", VNum (fmt (PrimFloat.sqrt variance)));
        ("min", VNum (MathMin vals));
        ("max", VNum (MathMax vals))].

Definition errorResult (msg : string) : JSValue := VObj [("error", VStr msg)].

(** ** Patterns of the executor *)

Definition lit (anchored : bool) (s : string) : Pattern :=
  mkPattern anchored (RLit s) anchored true.

(** Two words with optional white space between them: [a\s*b]. *)
Definition words (a b : string) : Regex := RSeq (RLit a) (RSeq (RStar RSpace) (RLit b)).

(** Two words with at most one character between them: [a.?b]. *)
Definition gap (a b : string) : Regex := RSeq (RLit a) (RSeq (ROpt RAny) (RLit b)).

Definition reTitle : Pattern := lit true "title".               (* /^title$/i *)
Definition reText : Pattern := lit true "text".                 (* /^text$/i *)
Definition reTextLike : Pattern :=                              (* /text|content|tweet|body/i *)
  mkPattern false (RAlt (RLit "text") (RAlt (RLit "content") (RAlt (RLit "tweet") (RLit "body"))))
            false true.
Definition reFavoriteCount : Pattern := mkPattern false (gap "favorite" "count") false true.
Definition reLikeCountGap : Pattern := mkPattern false (gap "like" "count") false true.
Definition reViewCountGap : Pattern := mkPattern false (gap "view" "count") false true.
Definition reVideoUrl : Pattern := lit true "videoUrl".         (* /^videoUrl$/i *)
Definition reThumbnailUrl : Pattern := lit true "thumbnailUrl". (* /^thumbnailUrl$/i *)
Definition reViewCountExact : Pattern := lit true "viewCount".  (* /^viewCount$/i *)
Definition reLikeCount : Pattern := lit false "likeCount".      (* /likeCount/i *)
Definition reViewCount : Pattern := lit false "viewCount".      (* /viewCount/i *)

Definition reFirst : Pattern :=                                 (* /^(first|1st|one)$/i *)
  mkPattern true (RAlt (RLit "first") (RAlt (RLit "1st") (RLit "one"))) true true.
Definition reLast : Pattern :=                                  (* /^(last|latest)$/i *)
  mkPattern true (RAlt (RLit "last") (RLit "latest")) true true.
Definition reMostViewed : Pattern :=
  (* /^(most\s*viewed|most\s*popular|top\s*video|highest\s*views)$/i *)
  mkPattern true (RAlt (words "most" "viewed") (RAlt (words "most" "popular")
                 (RAlt (words "top" "video") (words "highest" "views")))) true true.
Definition reMostLiked : Pattern :=
  (* /^(most\s*liked|most\s*loved|highest\s*likes|top\s*liked|most\s*like)/i *)
  mkPattern true (RAlt (words "most" "liked") (RAlt (words "most" "loved")
                 (RAlt (words "highest" "likes") (RAlt (words "top" "liked")
                 (words "most" "like"))))) false true.

(** ** Enrichment *)

(** [+(likes / views).toFixed(6)], or [null]. *)
Definition engagementOf (r : Obj) (likeCol viewCol : string) : JSValue :=
  let likes := parseFloat (field r likeCol) in
  let views := parseFloat (field r viewCol) in
  if negb (isNaN likes) && negb (isNaN views) && (0 <? views)%float
  then VNum (StringToNumber (toFixed (likes / views)%float 6))
  else VNull.

Definition enrichWithEngagement (t : Table) : Table :=
  match rows t with
  | [] => t
  | _ =>
      match findStr (test reLikeCount) (headers t), findStr (test reViewCount) (headers t) with
      | Some likeCol, Some viewCol =>
          if includesStr (headers t) "engagement" then t
          else mkTable (headers t ++ ["engagement"])%list
                       (List.map (fun r => obj_set r "engagement" (engagementOf r likeCol viewCol))
                                 (rows t))
      | _, _ => t
      end
  end.

(** ** The tool executor *)

Section Executor.

(** The outside world: the image endpoint, and the clock value that
    [new Date(v)] gives for a value. *)
Variable World : Type.
Variable fetchImage : JSValue -> World -> ImageFetch * World.
Variable timeValue : JSValue -> float.

Definition availableText (availableHeaders : list string) : string :=
  join ", " availableHeaders.

(** [compute_column_stats] and [compute_stats_json]; [label] is
    ["column"] or ["field"]. *)
Definition computeStats (label : string) (safeRows : list JSValue)
    (availableHeaders : list string) (args : JSValue) : Completion JSValue :=
  bind (getProp args label) (fun requested =>
  bind (resolveCol safeRows requested) (fun col =>
  bind (numericValues safeRows col) (fun vals =>
  match vals with
  | [] => Normal (errorResult ("No numeric values found in " ++ label ++ " " ++
                               quoted (ToString col) ++ ". Available columns: " ++
                               availableText availableHeaders))
  | _ => Normal (statsResult label col vals)
  end))).

(** [counts[v] = (counts[v] || 0) + 1] for the values of one column. *)
Definition countValue (col : JSValue) (counts : Obj) (r : JSValue) : Completion Obj :=
  bind (getProp r (ToString col)) (fun v =>
  if negb (isUndefined v) && negb (isStr v EmptyString)
  then Normal (obj_set counts (ToString v)
                 (VNum (ToNumber (orElse (field counts (ToString v)) (VNum 0)) + 1)%float))
  else Normal counts).

Definition getValueCounts (safeRows : list JSValue) (args : JSValue) : Completion JSValue :=
  bind (getProp args "column") (fun requested =>
  bind (resolveCol safeRows requested) (fun col =>
  bind (getProp args "top_n") (fun top_n =>
  let topN := orElse top_n (VNum 10) in
  bind (foldC (countValue col) safeRows []) (fun counts =>
  let entries := List.map (fun k => (k, field counts k)) (ownKeys counts) in
  let sorted :=
    sortBy (fun a b => (ToNumber (snd b) - ToNumber (snd a))%float) entries in
  let kept := firstn (sliceCount (List.length sorted) topN) sorted in
  Normal (VObj [("column", col);
                ("total_rows", VNum (ofNat (List.length safeRows)));
                ("value_counts",
                 VObj (fold_left (fun o kv => obj_set o (fst kv) (snd kv)) kept []))]))))).

Definition orFind (a b : option string) : option string :=
  match a with Some _ => a | None => b end.

(** One entry of [topRows]. *)
Definition topRow (textCol favCol viewCol : option string) (engCol : bool)
    (r : JSValue) (i : nat) : JSValue :=
  let out := [("rank", VNum (ofNat (i + 1)))] in
  let out := match textCol with
             | Some c => obj_set out "text"
                           (VStr (sliceTo 150 (ToString (orElse (getPropOpt r c) (VStr EmptyString)))))
             | None => out
             end in
  let out := match favCol with Some c => obj_set out c (getPropOpt r c) | None => out end in
  let out := match viewCol with Some c => obj_set out c (getPropOpt r c) | None => out end in
  let out := if engCol then obj_set out "engagement" (getPropOpt r "engagement") else out in
  VObj out.

(** [get_top_items].  The comparison function reads the sort column of
    both rows it is given, and every row of an array of two or more takes
    part in a comparison, so the column is read from every row first. *)
Definition getTopItems (safeRows : list JSValue) (availableHeaders : list string)
    (args : JSValue) : Completion JSValue :=
  bind (getProp args "sort_column") (fun requested =>
  bind (resolveCol safeRows requested) (fun resolved =>
  let sortCol := orElse resolved requested in
  bind (getProp args "n") (fun n0 =>
  bind (getProp args "ascending") (fun asc0 =>
  let n := orElse n0 (VNum 10) in
  let asc := match asc0 with VUndefined | VNull => false | v => truthy v end in
  let textCol := orFind (findStr (test reTitle) availableHeaders)
                   (orFind (findStr (test reText) availableHeaders)
                           (findStr (test reTextLike) availableHeaders)) in
  let favCol := orFind (findStr (test reFavoriteCount) availableHeaders)
                       (findStr (test reLikeCountGap) availableHeaders) in
  let viewCol := findStr (test reViewCountGap) availableHeaders in
  let engCol := includesStr availableHeaders "engagement" in
  bind (mapC (fun r => bind (getProp r (ToString sortCol))
                            (fun v => Normal (r, parseFloat v))) safeRows) (fun keyed =>
  let sorted :=
    sortBy (fun a b =>
              let av := snd a in
              let bv := snd b in
              if negb (isNaN av) && negb (isNaN bv)
              then (if asc then av - bv else bv - av)%float
              else PrimFloat.zero) keyed in
  let topRows :=
    mapi (fun kr i => topRow textCol favCol viewCol engCol (fst kr) i) 0
         (firstn (sliceCount (List.length sorted) n) sorted) in
  match topRows with
  | [] => Normal (errorResult ("No rows found. Column " ++ quoted (ToString sortCol) ++
                               " may not exist. Available: " ++
                               availableText availableHeaders))
  | _ =>
      Normal (VObj [("sort_column", sortCol);
                    ("direction", VStr (if asc then "ascending (lowest first)"
                                        else "descending (highest first)"));
                    ("count", VNum (ofNat (List.length topRows)));
                    ("tweets", VArr topRows)])
  end))))).

(** [generateImage] *)
Definition generateImage (args context : JSValue) (w : World) : Completion JSValue * World :=
  match getProp args "prompt" with
  | Throw e => (Throw e, w)
  | Normal p0 =>
      let prompt := trim (ToString (orElse p0 (VStr EmptyString))) in
      if negb (truthy (VStr prompt))
      then (Normal (errorResult "prompt is required for generateImage"), w)
      else
        match getProp args "anchor_image" with
        | Throw e => (Throw e, w)
        | Normal a0 =>
            match (if truthy a0 then Normal a0 else getProp context "anchorImage") with
            | Throw e => (Throw e, w)
            | Normal a1 =>
                let anchorImage := orElse a1 VNull in
                let '(r, w') :=
                  fetchImage (VObj [("prompt", VStr prompt); ("anchorImage", anchorImage)]) w in
                let answer :=
                  match r with
                  | ImageFails e => Throw e
                  | ImageDone ok json =>
                      if negb ok then Throw (Error "Backend image proxy failed")
                      else
                        bind json (fun data =>
                        bind (getProp data "mimeType") (fun mimeType =>
                        bind (getProp data "data") (fun bytes =>
                        bind (getProp data "url") (fun url =>
                        bind (getProp data "fileName") (fun fileName =>
                        Normal (VObj [("inlineData",
                                       VObj [("mimeType", mimeType); ("data", bytes)]);
                                      ("_chartType", VStr "generatedImage");
                                      ("prompt", VStr prompt);
                                      ("anchorUsed", VBool (truthy anchorImage));
                                      ("url", url);
                                      ("fileName", fileName);
                                      ("message", VStr "Generated image preview ready.")]))))))
                  end in
                (tryCatch answer
                   (fun err => Normal (errorResult ("Image generation failed: " ++ message err))),
                 w')
            end
        end
  end.

(** [plot_metric_vs_time] *)
Definition plotMetricVsTime (safeRows : list JSValue) (availableHeaders : list string)
    (args : JSValue) : Completion JSValue :=
  bind (getProp args "metric") (fun metric0 =>
  bind (resolveCol safeRows metric0) (fun metricCol =>
  bind (getProp args "time_column") (fun time0 =>
  bind (resolveCol safeRows time0) (fun timeCol =>
  bind (mapC (fun r =>
                bind (getProp r (ToString timeCol)) (fun time =>
                bind (getProp r (ToString metricCol)) (fun m =>
                let val := parseFloat m in
                Normal (if negb (truthy time) || isNaN val then None
                        else Some (time, val))))) safeRows) (fun points =>
  let dataPoints :=
    sortBy (fun a b => (timeValue (fst a) - timeValue (fst b))%float)
           (List.flat_map (fun p => match p with Some d => [d] | None => [] end) points) in
  match dataPoints with
  | [] => Normal (errorResult ("No valid data points for " ++ quoted (ToString metricCol) ++
                               " vs " ++ quoted (ToString timeCol) ++
                               ". Available columns: " ++ availableText availableHeaders))
  | _ =>
      Normal (VObj [("_chartType", VStr "timeSeries");
                    ("metric", metricCol);
                    ("timeColumn", timeCol);
                    ("data", VArr (List.map
                                     (fun d => VObj (obj_set [("name", fst d)]
                                                             (ToString metricCol) (VNum (snd d))))
                                     dataPoints));
                    ("count", VNum (ofNat (List.length dataPoints)))])
  end))))).

(** [safeRows.reduce((max, r) => ... rViews > maxViews ? r : max)] *)
Definition maxBy (col : string) (safeRows : list JSValue) : Completion JSValue :=
  match safeRows with
  | [] => Normal VNull
  | first :: more =>
      foldC (fun best r =>
               bind (getProp best col) (fun bv =>
               bind (getProp r col) (fun rv =>
               Normal (if (numOr0 (parseFloat bv) <? numOr0 (parseFloat rv))%float
                       then r else best))))
            more first
  end.

(** The title search of [play_video]: the first row whose title contains
    the query. *)
Fixpoint searchTitle (titleCol titleQuery : string) (safeRows : list JSValue)
  : Completion JSValue :=
  match safeRows with
  | [] => Normal VNull
  | r :: more =>
      bind (getProp r titleCol) (fun t =>
      if includes (toLowerCase (ToString (orElse t (VStr EmptyString)))) titleQuery
      then Normal r
      else searchTitle titleCol titleQuery more)
  end.

(** [play_video] *)
Definition playVideo (safeRows : list JSValue) (availableHeaders : list string)
    (args : JSValue) : Completion JSValue :=
  bind (getProp args "title") (fun title =>
  bind (callToLowerCase (orElse title (VStr EmptyString))) (fun lowered =>
  let titleQuery := trim lowered in
  let thumbCol := findStr (test reThumbnailUrl) availableHeaders in
  let viewCol := findStr (test reViewCountExact) availableHeaders in
  let likeCol := findStr (test reLikeCountGap) availableHeaders in
  match findStr (test reTitle) availableHeaders, findStr (test reVideoUrl) availableHeaders with
  | Some titleCol, Some urlCol =>
      let nonEmpty := match safeRows with [] => false | _ => true end in
      bind (if test reFirst titleQuery && nonEmpty
            then Normal (nth 0 safeRows VNull)
            else if test reLast titleQuery && nonEmpty
            then Normal (List.last safeRows VNull)
            else if test reMostViewed titleQuery
            then match viewCol with
                 | Some c => if nonEmpty then maxBy c safeRows else Normal VNull
                 | None => Normal (nth 0 safeRows VNull)
                 end
            else if test reMostLiked titleQuery
            then match likeCol with
                 | Some c => if nonEmpty then maxBy c safeRows else Normal VNull
                 | None => Normal (nth 0 safeRows VNull)
                 end
            else searchTitle titleCol titleQuery safeRows) (fun bestMatch =>
      let notFound :=
        bind (mapC (fun r => getProp r titleCol) (firstn 3 safeRows)) (fun titles =>
        Normal (errorResult ("No video found matching " ++ quoted (ToString title) ++
                             ". Available: " ++ joinValues ", " titles))) in
      if negb (truthy bestMatch) then notFound
      else
        let videoTitle := getPropOpt bestMatch titleCol in
        if negb (truthy videoTitle) then notFound
        else
          let videoUrl := getPropOpt bestMatch urlCol in
          let thumbnailUrl := match thumbCol with
                              | Some c => getPropOpt bestMatch c
                              | None => VNull
                              end in
          if negb (truthy videoUrl)
          then Normal (errorResult ("Video " ++ quoted (ToString videoTitle) ++
                                    " found but missing URL."))
          else Normal (VObj [("_playVideo", VBool true);
                             ("title", videoTitle);
                             ("thumbnailUrl", thumbnailUrl);
                             ("url", videoUrl);
                             ("message", VStr ("Playing: " ++ quoted (ToString videoTitle)))]))
  | _, _ =>
      Normal (errorResult ("Cannot find required columns. Have: " ++
                           availableText availableHeaders))
  end)).

(** [executeTool(toolName, args, rows, context = {})].  The console output
    of the source is left out: its template literals convert the tool name
    and the values of the arguments to strings, which is silent for
    [stringable] values. *)
Definition executeTool (toolName args rows context : JSValue) (w : World)
  : Completion JSValue * World :=
  let safeRows := match rows with VArr l => l | _ => [] end in
  let context := match context with VUndefined => VObj [] | c => c end in
  match (match safeRows with
         | [] => Normal []
         | row0 :: _ => ObjectKeys row0
         end) with
  | Throw e => (Throw e, w)
  | Normal availableHeaders =>
      if isStr toolName "compute_column_stats"
      then (computeStats "column" safeRows availableHeaders args, w)
      else if isStr toolName "get_value_counts"
      then (getValueCounts safeRows args, w)
      else if isStr toolName "get_top_items"
      then (getTopItems safeRows availableHeaders args, w)
      else if isStr toolName "generateImage"
      then generateImage args context w
      else if isStr toolName "plot_metric_vs_time"
      then (plotMetricVsTime safeRows availableHeaders args, w)
      else if isStr toolName "play_video"
      then (playVideo safeRows availableHeaders args, w)
      else if isStr toolName "compute_stats_json"
      then (computeStats "field" safeRows availableHeaders args, w)
      else (Normal (errorResult ("Unknown tool: " ++ ToString toolName)), w)
  end.

End Executor.

(** *** The inputs the executor is written for *)

(** The arguments that name a column or a video. *)
Definition nameArguments : list string :=
  ["column"; "field"; "metric"; "time_column"; "sort_column"; "title"].

(** A string, or a value that the executor replaces ([undefined], [null],
    [false], [0], [NaN]). *)
Definition stringOrFalsy (v : JSValue) : bool :=
  match v with VStr _ => true | _ => negb (truthy v) end.

(** An arguments object whose name arguments are strings or missing. *)
Definition wellTypedArgs (args : JSValue) : bool :=
  negb (nullish args) &&
  List.forallb (fun k => stringOrFalsy (getPropOpt args k)) nameArguments.

(** A rows value that is not an array, or an array without [undefined] and
    [null] elements. *)
Definition wellFormedRows (rows : JSValue) : bool :=
  match rows with
  | VArr l => List.forallb (fun r => negb (nullish r)) l
  | _ => true
  end.

Definition knownTools : list string :=
  ["compute_column_stats"; "get_value_counts"; "get_top_items"; "generateImage";
   "plot_metric_vs_time"; "play_video"; "compute_stats_json"].

Definition isKnownTool (toolName : JSValue) : bool :=
  List.existsb (isStr toolName) knownTools.

(** A rows value whose first row, if any, is not [undefined] or [null]. *)
Definition firstRowReadable (rows : JSValue) : bool :=
  match rows with
  | VArr (row0 :: _) => negb (nullish row0)
  | _ => true
  end.

Definition isNull (v : JSValue) : bool :=
  match v with VNull => true | _ => false end.

(** A result object whose [error], if any, is a string. *)
Definition isResultObject (v : JSValue) : bool :=
  match v with
  | VObj o => match lookup "error" o with
              | None | Some (VStr _) => true
              | Some _ => false
              end
  | _ => false
  end.

(** A completion that is a result object. *)
Definition returnsObject (c : Completion JSValue) : Prop :=
  exists v, c = Normal v /\ isResultObject v = true.

End CsvTools.

(* ===================================================================== *)
(** * The channel data tools: enrichment and tool executor *)
(* ===================================================================== *)

Module DataTools.
Import JS.

Record Table : Type := mkTable {
  headers : list string;
  rows : list Obj
}.

(** ** Enrichment *)

(** [viewCount > 0 ? likeCount / viewCount : 0] *)
Definition engagementOf (row : Obj) : float :=
  let viewCount := numOr0 (parseFloat (field row "viewCount")) in
  let likeCount := numOr0 (parseFloat (field row "likeCount")) in
  if (0 <? viewCount)%float then (likeCount / viewCount)%float else PrimFloat.zero.

Definition enrichWithEngagement (t : Table) : Table :=
  match rows t with
  | [] => mkTable [] []
  | _ =>
      mkTable
        (if includesStr (headers t) "engagement" then headers t
         else (headers t ++ ["engagement"])%list)
        (List.map (fun row => obj_set row "engagement" (VNum (engagementOf row))) (rows t))
  end.

(** ** The tool executor *)

Definition errorResult (msg : string) : JSValue := VObj [("error", VStr msg)].

(** The metric names the executor recognises in a requested field. *)
Definition canonicalMetric (requested : string) : string :=
  if includes requested "view" then "viewCount"
  else if includes requested "like" then "likeCount"
  else if includes requested "comment" then "commentCount"
  else if includes requested "engage" then "engagement"
  else requested.

(** [(v || fallback).toString().toLowerCase()], for a [stringable] [v]:
    [toString] of a number, a boolean, a string, an array or a plain object
    gives what [ToString] gives. *)
Definition loweredOr (v : JSValue) (fallback : string) : string :=
  toLowerCase (ToString (orElse v (VStr fallback))).

(** [rows.filter], [rows.map] and [rows.find] need an array. *)
Definition asArray (rows : JSValue) (method : string) : Completion (list JSValue) :=
  match rows with
  | VArr l => Normal l
  | VUndefined | VNull =>
      Throw (TypeError ("Cannot read properties of " ++ ToString rows ++
                        " (reading '" ++ method ++ "')"))
  | _ => Throw (TypeError ("rows." ++ method ++ " is not a function"))
  end.

(** [s.split('T')[0]] on a value that need not be a string. *)
Definition datePart (v : JSValue) : Completion JSValue :=
  match v with
  | VStr s => Normal (VStr (nth 0 (split "T"%char s) EmptyString))
  | VUndefined | VNull =>
      Throw (TypeError ("Cannot read properties of " ++ ToString v ++ " (reading 'split')"))
  | _ => Throw (TypeError "split is not a function")
  end.

(** [median] of [compute_stats_json] *)
Definition median (values : list float) : float :=
  let len := List.length values in
  if Nat.even len
  then ((match len with
         | O => NaN
         | _ => nth (len / 2 - 1) values NaN
         end + nth (len / 2) values NaN) / 2)%float
  else nth (len / 2) values NaN.

(** [Math.round(x * 100) / 100] *)
Definition round2 (x : float) : float := (MathRound (x * 100) / 100)%float.

Section Executor.

Variable World : Type.
Variable fetchImage : JSValue -> World -> ImageFetch * World.
Variable timeValue : JSValue -> float.

(** [generateImage]: the whole case runs inside [try]/[catch]. *)
Definition generateImage (args context : JSValue) (w : World) : Completion JSValue * World :=
  let failed (e : JSError) :=
    Normal (errorResult ("Image generation failed: " ++ message e)) in
  match getProp args "prompt" with
  | Throw e => (failed e, w)
  | Normal p0 =>
      let prompt := orElse p0 (VStr "A cool image") in
      match getProp context "anchorImage" with
      | Throw e => (failed e, w)
      | Normal a0 =>
          let '(r, w') :=
            fetchImage (VObj [("prompt", prompt); ("anchorImage", orElse a0 VNull)]) w in
          let answer :=
            match r with
            | ImageFails e => Throw e
            | ImageDone ok json =>
                bind json (fun data =>
                if negb ok
                then bind (getProp data "error") (fun msg =>
                     Throw (Error (ToString (orElse msg (VStr "Failed to fetch image")))))
                else
                  bind (getProp data "data") (fun bytes =>
                  bind (getProp data "mimeType") (fun mimeType =>
                  bind (getProp data "url") (fun url =>
                  bind (getProp data "fileName") (fun fileName =>
                  Normal (VObj [("_chartType", VStr "generatedImage");
                                ("data", bytes);
                                ("mimeType", mimeType);
                                ("url", url);
                                ("prompt", prompt);
                                ("fileName", fileName)]))))))
            end in
          (tryCatch answer failed, w')
      end
  end.

(** [plot_metric_vs_time] *)
Definition plotMetricVsTime (args rows : JSValue) : Completion JSValue :=
  bind (getProp args "metric") (fun metric0 =>
  let plotMetric := canonicalMetric (loweredOr metric0 "viewCount") in
  bind (asArray rows "filter") (fun rowList =>
  bind (mapC (fun r =>
                bind (getProp r plotMetric) (fun m =>
                if isUndefined m then Normal []
                else bind (getProp r "releaseDate") (fun d =>
                     Normal (if truthy d then [r] else []))))
             rowList) (fun kept =>
  bind (mapC (fun r =>
                let releaseDate := getPropOpt r "releaseDate" in
                bind (datePart releaseDate) (fun dateStr =>
                Normal (timeValue releaseDate, dateStr, getPropOpt r "title",
                        numOr0 (parseFloat (getPropOpt r plotMetric)))))
             (List.concat kept)) (fun points =>
  let validPlotData :=
    sortBy (fun a b => (fst (fst (fst a)) - fst (fst (fst b)))%float) points in
  match validPlotData with
  | [] => Normal (errorResult ("No valid data for " ++ plotMetric))
  | _ =>
      Normal (VObj [("_chartType", VStr "timeSeries");
                    ("metric", VStr plotMetric);
                    ("data",
                     VArr (List.map
                             (fun d =>
                                let '(_, dateStr, title, value) := d in
                                VObj (obj_set
                                        (obj_set [("x", dateStr); ("y", VNum value);
                                                  ("date", dateStr)]
                                                 plotMetric (VNum value))
                                        "label" title))
                             validPlotData))])
  end)))).

(** [rows.find(r => r.title && r.title.toLowerCase().includes(searchTitle))] *)
Fixpoint findByTitle (searchTitle : string) (rowList : list JSValue)
  : Completion JSValue :=
  match rowList with
  | [] => Normal VUndefined
  | r :: more =>
      bind (getProp r "title") (fun t =>
      if truthy t
      then bind (callToLowerCase t) (fun lowered =>
           if includes lowered searchTitle then Normal r
           else findByTitle searchTitle more)
      else findByTitle searchTitle more)
  end.

(** [[...rows].sort((a, b) => (parseFloat(b[col]) || 0) - (parseFloat(a[col]) || 0))[0]];
    on this path [rows.find] has read a property of every row. *)
Definition topBy (col : string) (rowList : list JSValue) : JSValue :=
  nth 0 (sortBy (fun a b => (numOr0 (parseFloat (getPropOpt b col)) -
                             numOr0 (parseFloat (getPropOpt a col)))%float) rowList)
      VUndefined.

(** [play_video] *)
Definition playVideo (args rows : JSValue) : Completion JSValue :=
  bind (getProp args "title") (fun title =>
  let searchTitle := loweredOr title EmptyString in
  bind (asArray rows "find") (fun rowList =>
  bind (findByTitle searchTitle rowList) (fun found =>
  let video :=
    if truthy found then found
    else if includes searchTitle "most viewed" then topBy "viewCount" rowList
    else if includes searchTitle "most liked" then topBy "likeCount" rowList
    else nth 0 rowList VUndefined in
  if negb (truthy video) then Normal (errorResult "Video not found.")
  else
    Normal (VObj [("_playVideo", VBool true);
                  ("title", getPropOpt video "title");
                  ("url", orElse (getPropOpt video "videoUrl")
                                 (VStr ("https://youtube.com/watch?v=" ++
                                        ToString (getPropOpt video "videoId"))));
                  ("thumbnailUrl", getPropOpt video "thumbnailUrl")])))).

(** [compute_stats_json] *)
Definition computeStatsJson (args rows : JSValue) : Completion JSValue :=
  bind (getProp args "field") (fun field0 =>
  let statField := canonicalMetric (loweredOr field0 "viewCount") in
  bind (asArray rows "map") (fun rowList =>
  bind (mapC (fun r => bind (getProp r statField) (fun v => Normal (parseFloat v))) rowList)
       (fun parsed =>
  match List.filter (fun v => negb (isNaN v)) parsed with
  | [] => Normal (errorResult ("No numeric data for " ++ statField))
  | unsorted =>
      let values := sortBy (fun a b => (a - b)%float) unsorted in
      let len := ofNat (List.length values) in
      let sum := fold_left (fun a b => (a + b)%float) values PrimFloat.zero in
      let mean := (sum / len)%float in
      let variance :=
        (fold_left (fun acc val => (acc + square (val - mean))%float) values PrimFloat.zero
         / len)%float in
      let std := PrimFloat.sqrt variance in
      Normal (VObj [("field", VStr statField);
                    ("count", VNum len);
                    ("mean", VNum (round2 mean));
                    ("median", VNum (median values));
                    ("std", VNum (round2 std));
                    ("min", VNum (nth 0 values NaN));
                    ("max", VNum (List.last values NaN))])
  end))).

(** [executeTool(name, args, rows = [], context = {})] *)
Definition executeTool (name args rows context : JSValue) (w : World)
  : Completion JSValue * World :=
  let rows := match rows with VUndefined => VArr [] | r => r end in
  let context := match context with VUndefined => VObj [] | c => c end in
  if isStr name "generateImage" then generateImage args context w
  else if isStr name "plot_metric_vs_time" then (plotMetricVsTime args rows, w)
  else if isStr name "play_video" then (playVideo args rows, w)
  else if isStr name "compute_stats_json" then (computeStatsJson args rows, w)
  else (Normal (errorResult ("Unknown tool: " ++ ToString name)), w).

End Executor.

End DataTools.

(* ===================================================================== *)
(** * The Gemini gateway: system prompt cache and function-calling loop *)
(* ===================================================================== *)

Module Gemini.
Import JS.

(** What [fetch('/prompt_chat.txt')] gives: a rejection, or a response with
    its [ok] flag and the outcome of [res.text()]. *)
Inductive PromptFetch : Type :=
| FetchFails (e : JSError)
| FetchDone (ok : bool) (text : Completion string).

(** A response of the model API: its [candidates] and what [text()] gives. *)
Record Response : Type := mkResponse {
  candidates : JSValue;
  text : Completion string
}.

(** The effects of a turn, in the order they happen. *)
Inductive Event : Type :=
| EvFetchPrompt
| EvStartChat (history : JSValue)
| EvSend (parts : JSValue)
| EvExec (name args : JSValue) (result : Completion JSValue).


(** What [chatWithCsvTools] resolves to. *)
Record TurnResult : Type := mkTurnResult {
  res_text : string;
  res_charts : list JSValue;
  res_toolCalls : list JSValue
}.

(** A tool result goes to the chart accumulator when it carries a chart or
    video tag. *)
Definition isChart (toolResult : JSValue) : bool :=
  truthy (orElse (getPropOpt toolResult "_chartType") (getPropOpt toolResult "_playVideo")).

Section Gateway.

(** The state of everything outside the module: the server, the model
    API and its chat session. *)
Variable World : Type.
Variable fetchPrompt : World -> PromptFetch * World.
Variable startChat : JSValue -> World -> World.
Variable sendMessage : JSValue -> World -> Completion Response * World.

(** The module state [cachedPrompt] ([None] is [null]), the world, and the
    log of effects so far. *)
Record State : Type := mkState {
  cachedPrompt : option string;
  world : World;
  trace : list Event
}.

Definition M (A : Type) : Type := State -> Completion A * State.

Definition ret {A : Type} (a : A) : M A := fun st => (Normal a, st).

Definition bindM {A B : Type} (c : M A) (k : A -> M B) : M B :=
  fun st => match c st with
            | (Normal a, st') => k a st'
            | (Throw e, st') => (Throw e, st')
            end.

Definition lift {A : Type} (c : Completion A) : M A := fun st => (c, st).

Notation "x <- c ;; k" := (bindM c (fun x => k))
  (at level 61, c at next level, right associativity).

Definition cachedValue (st : State) : JSValue :=
  match cachedPrompt st with Some p => VStr p | None => VNull end.

(** [loadSystemPrompt], for a call during which no other call starts: from
    the test of [cachedPrompt] to the assignment in one step.  The source
    waits for the response in between; calls that overlap are the subject
    of [PromptLoads]. *)
Definition loadSystemPrompt : M string :=
  fun st =>
    if truthy (cachedValue st) then (Normal (ToString (cachedValue st)), st)
    else
      let '(r, w) := fetchPrompt (world st) in
      let fetched :=
        tryCatch
          match r with
          | FetchFails e => Throw e
          | FetchDone ok txt =>
              if ok then bind txt (fun t => Normal (trim t)) else Normal EmptyString
          end
          (fun _ => Normal EmptyString) in
      let p := match fetched with Normal t => t | Throw _ => EmptyString end in
      (Normal p, mkState (Some p) w (trace st ++ [EvFetchPrompt])%list).

(** [n] calls of [loadSystemPrompt], one after the other: each has
    returned before the next one starts. *)
Fixpoint loadRepeatedly (n : nat) (st : State) : list (Completion string) * State :=
  match n with
  | O => ([], st)
  | S n' =>
      let '(r, st1) := loadSystemPrompt st in
      let '(rs, st2) := loadRepeatedly n' st1 in
      (r :: rs, st2)
  end.

Definition doStartChat (history : JSValue) : M unit :=
  fun st => (Normal tt,
             mkState (cachedPrompt st) (startChat history (world st))
                     (trace st ++ [EvStartChat history])%list).

(** [(await chat.sendMessage(parts)).response] *)
Definition doSendMessage (parts : JSValue) : M Response :=
  fun st =>
    let '(r, w) := sendMessage parts (world st) in
    (r, mkState (cachedPrompt st) w (trace st ++ [EvSend parts])%list).

(** [history.map(m => ({ role: ..., parts: [{ text: m.content || '' }] }))] *)
Definition baseHistory (history : list Obj) : list JSValue :=
  List.map (fun m =>
    VObj [("role", VStr (if isStr (field m "role") "user" then "user" else "model"));
          ("parts", VArr [VObj [("text", orElse (field m "content") (VStr EmptyString))]])])
    history.

Definition chatHistory (systemInstruction : string) (history : list Obj) : list JSValue :=
  if truthy (VStr systemInstruction) then
    VObj [("role", VStr "user");
          ("parts", VArr [VObj [("text",
             VStr ("Follow these instructions in every response:" ++
                   String (ascii_of_N 10) (String (ascii_of_N 10) systemInstruction)))]])]
    :: VObj [("role", VStr "model");
             ("parts", VArr [VObj [("text", VStr "Got it! I'll follow those instructions.")]])]
    :: baseHistory history
  else baseHistory history.

(** The parts of the first message: the text and the attached images. *)
Definition messageParts (msg : string) (imageParts : option (list Obj)) : JSValue :=
  VArr
    (List.filter
       (fun p => negb (isUndefined (getPropOpt p "text"))
                 || negb (isUndefined (getPropOpt p "inlineData")))
       (VObj [("text", VStr msg)]
        :: List.map (fun img =>
             VObj [("inlineData",
                    VObj [("mimeType", orElse (field img "mimeType") (VStr "image/png"));
                          ("data", field img "data")])])
             (match imageParts with Some l => l | None => [] end))).

(** [response.candidates?.[0]?.content?.parts || []] *)
Definition responseParts (r : Response) : JSValue :=
  orElse
    (getPropOpt (getPropOpt (getPropOpt (candidates r) "0") "content") "parts")
    (VArr []).

(** [parts.find((p) => p.functionCall)] *)
Fixpoint findFunctionCall (l : list JSValue) : Completion (option JSValue) :=
  match l with
  | [] => Normal None
  | p :: l' =>
      bind (getProp p "functionCall")
           (fun fc => if truthy fc then Normal (Some p) else findFunctionCall l')
  end.

Definition findPart (parts : JSValue) : Completion (option JSValue) :=
  match parts with
  | VArr l => findFunctionCall l
  | _ => Throw (TypeError "parts.find is not a function")
  end.

(** [const { inlineData, ...geminiSafeResult } = toolResult || {}] *)
Definition geminiSafe (toolResult : JSValue) : Obj :=
  List.filter (fun kv => negb (String.eqb (fst kv) "inlineData"))
              (ownProps (orElse toolResult (VObj []))).

(** The message that carries a tool result back to the model. *)
Definition functionResponse (name : JSValue) (safe : Obj) : JSValue :=
  VArr [VObj [("functionResponse",
               VObj [("name", name);
                     ("response", VObj [("result", VObj safe)])])]].

Record LoopState : Type := mkLoop {
  response : Response;
  charts : list JSValue;
  toolCalls : list JSValue
}.

Section Loop.

(** The tool executor handed in by the caller. *)
Variable executeFn : JSValue -> JSValue -> World -> Completion JSValue * World.

Definition doExecute (name args : JSValue) : M JSValue :=
  fun st =>
    let '(r, w) := executeFn name args (world st) in
    (r, mkState (cachedPrompt st) w (trace st ++ [EvExec name args r])%list).

(** The loop [for (let round = 0; round < 5; round++)]; [remaining] is
    [5 - round]. *)
Fixpoint toolLoop (remaining : nat) (ls : LoopState) : M LoopState :=
  match remaining with
  | O => ret ls
  | S remaining' =>
      funcCall <- lift (findPart (responseParts (response ls))) ;;
      match funcCall with
      | None => ret ls
      | Some part =>
          let call := getPropOpt part "functionCall" in
          let name := getPropOpt call "name" in
          let args := getPropOpt call "args" in
          toolResult <- doExecute name args ;;
          let toolCalls' :=
            (toolCalls ls ++
             [VObj [("name", name); ("args", args); ("result", toolResult)]])%list in
          let charts' :=
            if isChart toolResult then (charts ls ++ [toolResult])%list else charts ls in
          let geminiSafeResult := geminiSafe toolResult in
          response' <- doSendMessage (functionResponse name geminiSafeResult) ;;
          let ls' := mkLoop response' charts' toolCalls' in
          if truthy (field geminiSafeResult "error") then ret ls'
          else toolLoop remaining' ls'
      end
  end.

(** [chatWithCsvTools(history, newMessage, imageParts, csvHeaders, executeFn)] *)
Definition chatWithCsvTools (history : list Obj) (newMessage : string)
    (imageParts : option (list Obj)) (csvHeaders : option (list string))
  : M TurnResult :=
  systemInstruction <- loadSystemPrompt ;;
  _ <- doStartChat (VArr (chatHistory systemInstruction history)) ;;
  let msgWithContext :=
    match csvHeaders with
    | Some (h :: hs) =>
        "[Data fields: " ++ join ", " (h :: hs) ++ "]" ++
        String (ascii_of_N 10) (String (ascii_of_N 10) newMessage)
    | _ => newMessage
    end in
  first <- doSendMessage (messageParts msgWithContext imageParts) ;;
  final <- toolLoop 5 (mkLoop first [] []) ;;
  answer <- lift (text (response final)) ;;
  ret (mkTurnResult answer (charts final) (toolCalls final)).

End Loop.

End Gateway.

(** *** Reading a trace *)

Definition isExec (ev : Event) : bool :=
  match ev with EvExec _ _ _ => true | _ => false end.

Definition isSend (ev : Event) : bool :=
  match ev with EvSend _ => true | _ => false end.

Definition isFetch (ev : Event) : bool :=
  match ev with EvFetchPrompt => true | _ => false end.

(** Tool executions, messages sent to the model, and prompt fetches. *)
Definition executions (tr : list Event) : nat := List.length (List.filter isExec tr).
Definition messagesSent (tr : list Event) : nat := List.length (List.filter isSend tr).
Definition fetches (tr : list Event) : nat := List.length (List.filter isFetch tr).

(** The tool results the executor returned, with the call they answer. *)
Fixpoint executed (tr : list Event) : list (JSValue * JSValue * JSValue) :=
  match tr with
  | [] => []
  | EvExec name args (Normal result) :: tr' => (name, args, result) :: executed tr'
  | _ :: tr' => executed tr'
  end.

(** The messages sent to the model, and among them the function-response
    messages: every message but the first of the turn. *)
Definition sent (tr : list Event) : list JSValue :=
  List.flat_map (fun ev => match ev with EvSend m => [m] | _ => [] end) tr.

Definition relayed (tr : list Event) : list JSValue := List.tl (sent tr).


(** [{ name, args, result }], the record pushed on the tool-call log. *)
Definition toolCallRecord (call : JSValue * JSValue * JSValue) : JSValue :=
  let '(name, args, result) := call in
  VObj [("name", name); ("args", args); ("result", result)].

End Gemini.

(* ===================================================================== *)
(** * The chat component: answering one user turn *)
(* ===================================================================== *)

Module Chat.
Import JS.

(** The events that [streamChat] yields. *)
Inductive StreamEvent : Type :=
| TextChunk (text : string)                (* { type: 'text', text } *)
| FullResponse (parts : list JSValue)      (* { type: 'fullResponse', parts } *)
| Grounding (data : JSValue).              (* { type: 'grounding', data } *)

(** What happens while the send handler consumes the stream: the stream
    delivers an event, the user presses the stop button ([handleStop] sets
    [abortRef.current]), or the stream fails.  The stream has completed when
    the list is exhausted. *)
Inductive Input : Type :=
| Deliver (ev : StreamEvent)
| Stop
| Fails (e : JSError).

(** The assistant message held in the [messages] state. *)
Record Message : Type := mkMessage {
  content : string;
  parts : option (list JSValue);
  grounding : option JSValue;
  msg_charts : option (list JSValue);
  msg_toolCalls : option (list JSValue)
}.

(** The local variables of [handleSend] while the answer is produced. *)
Record Turn : Type := mkTurn {
  fullContent : string;
  groundingData : option JSValue;
  structuredParts : option (list JSValue);
  toolCharts : list JSValue;
  toolCalls : list JSValue;
  abortRef : bool;
  shown : Message
}.

(** The arguments of [saveMessage(sessionId, 'model', ...)]. *)
Record Saved : Type := mkSaved {
  saved_content : string;
  saved_images : JSValue;
  saved_charts : JSValue;
  saved_toolCalls : JSValue
}.

(** The state when the answer starts: the empty assistant message has been
    appended and [abortRef.current] has been reset. *)
Definition start : Turn :=
  mkTurn EmptyString None None [] [] false
         (mkMessage EmptyString None None None None).

Definition setContent (t : Turn) (full : string) : Turn :=
  mkTurn full (groundingData t) (structuredParts t) (toolCharts t) (toolCalls t) (abortRef t)
         (mkMessage full (parts (shown t)) (grounding (shown t))
                    (msg_charts (shown t)) (msg_toolCalls (shown t))).

(** One delivered event, applied to the turn. *)
Definition apply (ev : StreamEvent) (t : Turn) : Turn :=
  match ev with
  | TextChunk txt => setContent t (fullContent t ++ txt)
  | FullResponse ps =>
      mkTurn (fullContent t) (groundingData t) (Some ps) (toolCharts t) (toolCalls t)
             (abortRef t)
             (mkMessage EmptyString (Some ps) (grounding (shown t))
                        (msg_charts (shown t)) (msg_toolCalls (shown t)))
  | Grounding d =>
      mkTurn (fullContent t) (Some d) (structuredParts t) (toolCharts t) (toolCalls t)
             (abortRef t) (shown t)
  end.

Definition pressStop (t : Turn) : Turn :=
  mkTurn (fullContent t) (groundingData t) (structuredParts t) (toolCharts t) (toolCalls t)
         true (shown t).

(** The loop [for await (const chunk of streamChat(...))]: the stop flag is
    read once per delivered event, before the event is applied.  The result
    carries the error when the stream failed. *)
Fixpoint consume (inputs : list Input) (t : Turn) : Turn * option JSError :=
  match inputs with
  | [] => (t, None)
  | Stop :: rest => consume rest (pressStop t)
  | Fails e :: _ => (t, Some e)
  | Deliver ev :: rest => if abortRef t then (t, None) else consume rest (apply ev t)
  end.

(** The delivery of text chunks, and their effect on a turn. *)
Definition deliverText (chunks : list string) : list Input :=
  List.map (fun c => Deliver (TextChunk c)) chunks.

Definition applyAll (chunks : list string) (t : Turn) : Turn :=
  fold_left (fun t c => apply (TextChunk c) t) chunks t.

(** The stream fails before it delivers another event or completes. *)
Fixpoint failsNext (inputs : list Input) : bool :=
  match inputs with
  | Fails _ :: _ => true
  | Stop :: rest => failsNext rest
  | _ => false
  end.

(** The [catch (err)] block. *)
Definition caught (t : Turn) (e : JSError) : Turn :=
  setContent t ("Error: " ++ message e).

(** [if (groundingData) setMessages(...)] *)
Definition attachGrounding (t : Turn) : Turn :=
  match groundingData t with
  | Some d =>
      if truthy d then
        mkTurn (fullContent t) (groundingData t) (structuredParts t) (toolCharts t)
               (toolCalls t) (abortRef t)
               (mkMessage (content (shown t)) (parts (shown t)) (Some d)
                          (msg_charts (shown t)) (msg_toolCalls (shown t)))
      else t
  | None => t
  end.

(** [structuredParts.filter((p) => p.type === 'text').map((p) => p.text).join('\n')] *)
Definition partsText (ps : list JSValue) : string :=
  joinValues (String (ascii_of_N 10) EmptyString)
    (List.map (fun p => getPropOpt p "text")
              (List.filter (fun p => isStr (getPropOpt p "type") "text") ps)).

Definition orNull (l : list JSValue) : JSValue :=
  match l with [] => VNull | _ => VArr l end.

(** The assistant message handed to [saveMessage]. *)
Definition persisted (t : Turn) : Saved :=
  mkSaved
    (match structuredParts t with
     | Some ps => partsText ps
     | None => fullContent t
     end)
    VNull (orNull (toolCharts t)) (orNull (toolCalls t)).

(** The streaming path of [handleSend], from the reset of the stop flag to
    the call of [saveMessage]. *)
Definition respondStreaming (inputs : list Input) : Turn :=
  let '(t, failure) := consume inputs start in
  attachGrounding (match failure with Some e => caught t e | None => t end).

(** The function-calling path, given what [chatWithCsvTools] gave. *)
Definition respondWithTools (outcome : Completion Gemini.TurnResult) : Turn :=
  attachGrounding
    match outcome with
    | Normal r =>
        let t := start in
        mkTurn (Gemini.res_text r) (groundingData t) (structuredParts t)
               (Gemini.res_charts r) (Gemini.res_toolCalls r) (abortRef t)
               (mkMessage (Gemini.res_text r) (parts (shown t)) (grounding (shown t))
                          (match Gemini.res_charts r with [] => None | l => Some l end)
                          (match Gemini.res_toolCalls r with [] => None | l => Some l end))
    | Throw e => caught start e
    end.

Section Send.

Variable World : Type.
Variable fetchPrompt : World -> Gemini.PromptFetch * World.
Variable startChat : JSValue -> World -> World.
Variable sendMessage : JSValue -> World -> Completion Gemini.Response * World.

(** The [executeTool] that the component imports. *)
Variable executeTool :
  JSValue -> JSValue -> JSValue -> JSValue -> World -> Completion JSValue * World.

(** The executor handed to [chatWithCsvTools]:
    [(toolName, args) => executeTool(toolName, args, sessionCsvRows || [], {...})] *)
Definition executeFn (sessionCsvRows : JSValue) (capturedImages : list Obj)
    (toolName args : JSValue) : World -> Completion JSValue * World :=
  executeTool toolName args (orElse sessionCsvRows (VArr []))
    (VObj [("anchorImage",
            match capturedImages with img :: _ => field img "data" | [] => VUndefined end);
           ("anchorMimeType",
            match capturedImages with img :: _ => field img "mimeType" | [] => VUndefined end)]).

(** The function-calling path of [handleSend]: what is saved, and the
    state it leaves. *)
Definition handleSendTools (history : list Obj) (promptForGemini : string)
    (capturedImages : list Obj) (sessionCsvHeaders : option (list string))
    (sessionCsvRows : JSValue) (st : Gemini.State World)
  : Saved * Turn * Gemini.State World :=
  let '(outcome, st') :=
    Gemini.chatWithCsvTools World fetchPrompt startChat sendMessage
      (executeFn sessionCsvRows capturedImages)
      history promptForGemini (Some capturedImages) sessionCsvHeaders st in
  let t := respondWithTools outcome in
  (persisted t, t, st').

End Send.

(** The streaming path of [handleSend]: what is saved. *)
Definition handleSendStreaming (inputs : list Input) : Saved :=
  persisted (respondStreaming inputs).

End Chat.

(* ===================================================================== *)
(** * A concrete world for worked examples *)
(* ===================================================================== *)

(** The world counts the messages sent to the model.  The model answers the
    first message with a call of [generateImage] and every later one with
    text; the image endpoint and the prompt file always answer. *)
Module Demo.
Import JS.

Definition World : Type := nat.

Definition promptFile : string := "  Be brief.  ".

Definition fetchPrompt (w : World) : Gemini.PromptFetch * World :=
  (Gemini.FetchDone true (Normal promptFile), w).

(** A server on which the prompt file is missing. *)
Definition fetchNoPrompt (w : World) : Gemini.PromptFetch * World :=
  (Gemini.FetchDone false (Normal "Not Found"), S w).

Definition startChat (_ : JSValue) (w : World) : World := w.

Definition imageCall : JSValue :=
  VObj [("functionCall",
         VObj [("name", VStr "generateImage");
               ("args", VObj [("prompt", VStr "a red kite")])])].

Definition candidate (parts : list JSValue) : JSValue :=
  VArr [VObj [("content", VObj [("parts", VArr parts)])]].

Definition sendMessage (_ : JSValue) (w : World) : Completion Gemini.Response * World :=
  (Normal (match w with
           | O => Gemini.mkResponse (candidate [imageCall]) (Normal EmptyString)
           | _ => Gemini.mkResponse (candidate [VObj [("text", VStr "Here it is.")]])
                                    (Normal "Here it is.")
           end),
   S w).

(** A model that asks for a tool in every response. *)
Definition sendMessageGreedy (_ : JSValue) (w : World) : Completion Gemini.Response * World :=
  (Normal (Gemini.mkResponse (candidate [imageCall]) (Normal "Still working.")), S w).

Definition imageBytes : string := "/9j/4AAQSkZJRgABAQ==".

Definition imageJson : JSValue :=
  VObj [("mimeType", VStr "image/jpeg");
        ("data", VStr imageBytes);
        ("url", VStr "https://image.pollinations.ai/prompt/a%20red%20kite?seed=7");
        ("fileName", VStr "lisa_generated_7.jpg")].

Definition fetchImage (_ : JSValue) (w : World) : ImageFetch * World :=
  (ImageDone true (Normal imageJson), w).

Definition timeValue (v : JSValue) : float := parseFloat v.

Definition initial : Gemini.State World := Gemini.mkState World None 0 [].

(** Rows with four numbers and one cell that is not a number. *)
Definition scoreRows : list JSValue :=
  [VObj [("Score", VStr "1")]; VObj [("Score", VStr "2")]; VObj [("Score", VStr "n/a")];
   VObj [("Score", VStr "3")]; VObj [("Score", VStr "4")]].

Definition viewRows : list JSValue :=
  [VObj [("viewCount", VStr "1")]; VObj [("viewCount", VStr "2")];
   VObj [("viewCount", VStr "3")]; VObj [("viewCount", VStr "4")]].

End Demo.

(* ===================================================================== *)
(** * The CSV tools: the slim CSV handed to the model *)
(* ===================================================================== *)

Module CsvExport.
Import JS CsvTools.

Definition slimHeaders : list string :=
  ["title"; "viewCount"; "likeCount"; "commentCount"; "duration"; "releaseDate"; "videoUrl"].

(** The replacement of [escapeCell]: every double quote is written twice. *)
Fixpoint doubleQuotes (s : string) : string :=
  match s with
  | EmptyString => EmptyString
  | String c s' =>
      if Ascii.eqb c dquote then String dquote (String dquote (doubleQuotes s'))
      else String c (doubleQuotes s')
  end.

(** [String(v ?? '')] *)
Definition cellText (v : JSValue) : string :=
  ToString (if nullish v then VStr EmptyString else v).

(** [escapeCell] *)
Definition escapeCell (v : JSValue) : string :=
  let s := cellText v in
  if includes s "," || includes s (String dquote EmptyString)
     || includes s (String newline EmptyString)
  then quoted (doubleQuotes s)
  else s.

(** One data line: [slimHeaders.map((h) => escapeCell(r[h])).join(',')] *)
Definition slimLine (r : JSValue) : Completion string :=
  bind (mapC (fun h => bind (getProp r h) (fun v => Normal (escapeCell v))) slimHeaders)
       (fun cells => Normal (join "," cells)).

(** [buildSlimCsv(rows, headers)] of the CSV tools. *)
Definition buildSlimCsv (rows : list JSValue) (headers : list string) : Completion string :=
  match rows, headers with
  | [], _ | _, [] => Normal EmptyString
  | _, _ =>
      bind (mapC slimLine rows) (fun dataLines =>
      Normal (join (String newline EmptyString) (join "," slimHeaders :: dataLines)))
  end.

(** *** Reading the slim CSV back *)

(** A string without its double quotes, trimmed. *)
Definition noQuote (c : ascii) : bool := negb (Ascii.eqb c dquote).

Definition unquoted (s : string) : string := trim (filterString noQuote s).

(** The text of the cell that [buildSlimCsv] writes for a row and a header. *)
Definition slimCell (r : JSValue) (h : string) : string :=
  cellText (getPropOpt r h).

(** The line that [buildSlimCsv] writes for a row with properties. *)
Definition slimLineOf (r : JSValue) : string :=
  join "," (List.map (fun h => escapeCell (getPropOpt r h)) slimHeaders).

(** The row that the parser makes of a slim line. *)
Definition slimRow (r : JSValue) : Obj :=
  List.map (fun h => (h, VStr (unquoted (slimCell r h)))) slimHeaders.

End CsvExport.

(* ===================================================================== *)
(** * CSV files, as the parser is meant to read them *)
(* ===================================================================== *)

Module CsvText.
Import JS CsvTools CsvExport.










End CsvText.

(* ===================================================================== *)
(** * A model API that fails in the middle of a turn *)
(* ===================================================================== *)

Module DemoFailure.
Import JS.

(** The model answers the first message with a call of [generateImage];
    the request that relays the result is rejected. *)
Definition sendMessage (_ : JSValue) (w : Demo.World)
  : Completion Gemini.Response * Demo.World :=
  match w with
  | O => (Normal (Gemini.mkResponse (Demo.candidate [Demo.imageCall]) (Normal EmptyString)), 1)
  | S _ => (Throw (Error "503 Service Unavailable"), S w)
  end.

End DemoFailure.

(* ===================================================================== *)
(** * The system prompt while calls overlap *)
(* ===================================================================== *)

(** [loadSystemPrompt] waits for the response between the test of
    [cachedPrompt] and the assignment to it.  A call that starts while
    another one waits finds the old value of the variable.  Here a call is
    two steps: it starts, and later its response arrives. *)
Module PromptLoads.
Import JS Gemini.

(** What a call stores and returns for the response it waited for: the
    [try] block with its [catch]. *)
Definition settled (r : PromptFetch) : string :=
  match tryCatch
          match r with
          | FetchFails e => Throw e
          | FetchDone ok txt =>
              if ok then bind txt (fun t => Normal (trim t)) else Normal EmptyString
          end
          (fun _ => Normal EmptyString)
  with
  | Normal t => t
  | Throw _ => EmptyString
  end.

Fixpoint removeNth {A : Type} (i : nat) (l : list A) : list A :=
  match i, l with
  | _, [] => []
  | O, _ :: l' => l'
  | S i', x :: l' => x :: removeNth i' l'
  end.

(** A call starts, or the response of the [i]-th waiting call arrives. *)
Inductive Action : Type :=
| Call
| Settle (i : nat).


Section Loads.

Variable World : Type.
Variable fetchPrompt : World -> PromptFetch * World.

(** The module variable, the world, the number of requests for the prompt
    file, the responses that calls wait for (in the order of the requests)
    and what the calls have returned. *)
Record Pool : Type := mkPool {
  cache : option string;
  world : World;
  requests : nat;
  waiting : list PromptFetch;
  returned : list string
}.

Definition cacheValue (p : Pool) : JSValue :=
  match cache p with Some s => VStr s | None => VNull end.

(** A starting call returns the cached prompt when it is truthy, and
    requests the file otherwise; an arriving response is trimmed, stored
    and returned. *)
Definition step (a : Action) (p : Pool) : Pool :=
  match a with
  | Call =>
      if truthy (cacheValue p)
      then mkPool (cache p) (world p) (requests p) (waiting p)
                  (returned p ++ [ToString (cacheValue p)])
      else
        let '(r, w) := fetchPrompt (world p) in
        mkPool (cache p) w (S (requests p)) (waiting p ++ [r]) (returned p)
  | Settle i =>
      match nth_error (waiting p) i with
      | None => p
      | Some r =>
          mkPool (Some (settled r)) (world p) (requests p) (removeNth i (waiting p))
                 (returned p ++ [settled r])
      end
  end.

Definition run (acts : list Action) (p : Pool) : Pool :=
  fold_left (fun p a => step a p) acts p.

(** The page between two turns: no call is waiting. *)
Definition idle (st : State World) : Pool :=
  mkPool (cachedPrompt World st) (Gemini.world World st) 0 [] [].

End Loads.

(** A server that has the prompt file for the first request only. *)
Definition fetchOnce (w : Demo.World) : PromptFetch * Demo.World :=
  match w with
  | O => (FetchDone true (Normal Demo.promptFile), 1)
  | S _ => (FetchFails (TypeError "Failed to fetch"), S w)
  end.

End PromptLoads.

(* ===================================================================== *)
(** * Reading the trace of a function-calling turn *)
(* ===================================================================== *)

Module Traces.
Import JS Gemini.

(** Every execution that is followed by another one returned a result
    without a truthy [error]. *)
Definition errorsEndTrace (tr : list Event) : Prop :=
  forall tr1 name args r tr2,
    tr = (tr1 ++ EvExec name args r :: tr2)%list ->
    0 < executions tr2 ->
    exists result, r = Normal result /\ truthy (field (geminiSafe result) "error") = false.

(** A response in which the model asks for a tool. *)
Definition asksForTool (r : Response) : Prop :=
  exists part, findPart (responseParts r) = Normal (Some part).

End Traces.

(* ===================================================================== *)
(** * The Gemini gateway: the streaming generator *)
(* ===================================================================== *)

Module GeminiStream.
Import JS.

(** What [chat.sendMessageStream(parts)] resolves to: the chunks of
    [result.stream], the error with which the stream rejects after them
    (if it does), and the outcome of [await result.response]. *)
Record StreamResult : Type := mkStreamResult {
  stream : list JSValue;
  streamError : option JSError;
  finalResponse : Completion JSValue
}.

(** ** Generators

    The body of an [async function*] yields events and then returns or
    throws: the events yielded so far, and the completion. *)

Definition Gen (A : Type) : Type := (list Chat.StreamEvent * Completion A)%type.

Definition retG {A : Type} (a : A) : Gen A := ([], Normal a).

Definition bindG {A B : Type} (g : Gen A) (k : A -> Gen B) : Gen B :=
  match g with
  | (evs, Normal a) => let '(evs', r) := k a in ((evs ++ evs')%list, r)
  | (evs, Throw e) => (evs, Throw e)
  end.

Definition yield (ev : Chat.StreamEvent) : Gen unit := ([ev], Normal tt).

Definition liftG {A : Type} (c : Completion A) : Gen A := ([], c).

(** [for (const x of l) { f x }] *)
Fixpoint forG {A : Type} (f : A -> Gen unit) (l : list A) : Gen unit :=
  match l with
  | [] => retG tt
  | x :: l' => bindG (f x) (fun _ => forG f l')
  end.

(** What the consumer of the generator is given: the events, then the
    exception if the generator threw. *)
Definition inputsOf (g : Gen unit) : list Chat.Input :=
  (List.map Chat.Deliver (fst g) ++
   match snd g with Throw e => [Chat.Fails e] | Normal _ => [] end)%list.

(** ** The body of [streamChat] *)

Definition SEARCH_TOOL : JSValue := VObj [("googleSearch", VObj [])].
Definition CODE_EXEC_TOOL : JSValue := VObj [("codeExecution", VObj [])].

(** [v.candidates?.[0]?.content?.parts || []] *)
Definition contentParts (v : JSValue) : Completion JSValue :=
  bind (getProp v "candidates") (fun candidates =>
  Normal (orElse (getPropOpt (getPropOpt (getPropOpt candidates "0") "content") "parts")
                 (VArr []))).

(** The elements that [for (const part of chunkParts)] visits. *)
Definition iterate (chunkParts : JSValue) : Completion (list JSValue) :=
  match chunkParts with
  | VArr l => Normal l
  | VStr s => Normal (chars s)
  | _ => Throw (TypeError "chunkParts is not iterable")
  end.

(** [if (part.text) yield { type: 'text', text: part.text }]; the event
    keeps the text as the string that [fullContent += chunk.text] appends. *)
Definition yieldText (part : JSValue) : Gen unit :=
  bindG (liftG (getProp part "text")) (fun t =>
  if truthy t then yield (Chat.TextChunk (ToString t)) else retG tt).

Definition streamChunk (chunk : JSValue) : Gen unit :=
  bindG (liftG (contentParts chunk)) (fun chunkParts =>
  bindG (liftG (iterate chunkParts)) (fun parts =>
  forG yieldText parts)).

(** [p.inlineData && p.inlineData.mimeType?.startsWith('image/')], as a
    truth value. *)
Definition isImageData (inlineData : JSValue) : Completion bool :=
  if truthy inlineData then
    match getPropOpt inlineData "mimeType" with
    | VUndefined | VNull => Normal false
    | VStr s => Normal (String.prefix "image/" s)
    | _ => Throw (TypeError "p.inlineData.mimeType?.startsWith is not a function")
    end
  else Normal false.

(** [allParts.some((p) => ...)]: the parts are examined up to the first
    that has executable code, an execution result or an inline image. *)
Fixpoint someCodeExecution (allParts : list JSValue) : Completion bool :=
  match allParts with
  | [] => Normal false
  | p :: rest =>
      bind (getProp p "executableCode") (fun code =>
      if truthy code then Normal true
      else
        bind (getProp p "codeExecutionResult") (fun result =>
        if truthy result then Normal true
        else
          bind (getProp p "inlineData") (fun inlineData =>
          bind (isImageData inlineData) (fun image =>
          if image then Normal true else someCodeExecution rest))))
  end.

(** [allParts.some] and [allParts.map] need an array. *)
Definition partsArray (allParts : JSValue) : Completion (list JSValue) :=
  match allParts with
  | VArr l => Normal l
  | _ => Throw (TypeError "allParts.some is not a function")
  end.

(** The callback of [allParts.map]. *)
Definition structuredPart (p : JSValue) : Completion JSValue :=
  bind (getProp p "text") (fun t =>
  if truthy t then Normal (VObj [("type", VStr "text"); ("text", t)])
  else
    bind (getProp p "executableCode") (fun code =>
    if truthy code then
      Normal (VObj [("type", VStr "code");
                    ("language", orElse (getPropOpt code "language") (VStr "PYTHON"));
                    ("code", getPropOpt code "code")])
    else
      bind (getProp p "codeExecutionResult") (fun result =>
      if truthy result then
        Normal (VObj [("type", VStr "result");
                      ("outcome", getPropOpt result "outcome");
                      ("output", getPropOpt result "output")])
      else
        bind (getProp p "inlineData") (fun inlineData =>
        if truthy inlineData then
          Normal (VObj [("type", VStr "image");
                        ("mimeType", getPropOpt inlineData "mimeType");
                        ("data", getPropOpt inlineData "data")])
        else Normal VNull)))).

(** What follows the stream: the structured parts when code was executed,
    then the grounding metadata. *)
Definition afterStream (response : JSValue) : Gen unit :=
  bindG (liftG (contentParts response)) (fun allParts =>
  bindG (liftG (partsArray allParts)) (fun partList =>
  bindG (liftG (someCodeExecution partList)) (fun hasCodeExecution =>
  bindG (if hasCodeExecution
         then bindG (liftG (mapC structuredPart partList)) (fun mapped =>
              yield (Chat.FullResponse (List.filter truthy mapped)))
         else retG tt) (fun _ =>
  let grounding :=
    getPropOpt (getPropOpt (getPropOpt response "candidates") "0") "groundingMetadata" in
  if truthy grounding then yield (Chat.Grounding grounding) else retG tt)))).

(** The generator once [sendMessageStream] has resolved. *)
Definition streamEvents (result : StreamResult) : Gen unit :=
  bindG (forG streamChunk (stream result)) (fun _ =>
  bindG (liftG (match streamError result with
                | Some e => Throw e
                | None => Normal tt
                end)) (fun _ =>
  bindG (liftG (finalResponse result)) afterStream)).

Section Stream.

Variable World : Type.
Variable fetchPrompt : World -> Gemini.PromptFetch * World.
Variable startChat : JSValue -> World -> World.

(** [model.startChat(...).sendMessageStream(parts)] for a model configured
    with the given tools. *)
Variable sendMessageStream : JSValue -> JSValue -> World -> Completion StreamResult * World.

Definition doSendMessageStream (tools parts : JSValue) : Gemini.M World StreamResult :=
  fun st =>
    let '(r, w) := sendMessageStream tools parts (Gemini.world World st) in
    (r, Gemini.mkState World (Gemini.cachedPrompt World st) w
          (Gemini.trace World st ++ [Gemini.EvSend parts])%list).

(** [streamChat(history, newMessage, imageParts, useCodeExecution)]: the
    module state after the generator has started, and what it yields. *)
Definition streamChat (history : list Obj) (newMessage : string) (imageParts : list Obj)
    (useCodeExecution : bool) (st : Gemini.State World) : Gen unit * Gemini.State World :=
  let tools := VArr [if useCodeExecution then CODE_EXEC_TOOL else SEARCH_TOOL] in
  let started :=
    Gemini.bindM World (Gemini.loadSystemPrompt World fetchPrompt) (fun systemInstruction =>
    Gemini.bindM World
      (Gemini.doStartChat World startChat
         (VArr (Gemini.chatHistory systemInstruction history))) (fun _ =>
    doSendMessageStream tools (Gemini.messageParts newMessage (Some imageParts)))) in
  match started st with
  | (Normal result, st') => (streamEvents result, st')
  | (Throw e, st') => (liftG (Throw e), st')
  end.

End Stream.

(** ** Reading a response *)

(** The truthy [text] values of a list of parts. *)
Definition textsOf (parts : list JSValue) : list JSValue :=
  List.filter truthy (List.map (fun p => getPropOpt p "text") parts).

(** The parts of a chunk or response, when it has an array of them. *)
Definition partsOf (v : JSValue) : list JSValue :=
  match contentParts v with
  | Normal (VArr l) => l
  | _ => []
  end.

(** The texts that the chunks of a stream carry, as strings. *)
Definition chunkTexts (chunks : list JSValue) : list string :=
  List.flat_map (fun chunk => List.map ToString (textsOf (partsOf chunk))) chunks.

(** The truthy texts of a list of parts, one per line. *)
Definition joinedTexts (parts : list JSValue) : string :=
  joinValues (String (ascii_of_N 10) EmptyString) (textsOf parts).

End GeminiStream.

(* ===================================================================== *)
(** * The chat component: the text of a message in later turns *)
(* ===================================================================== *)

Module ChatHistory.
Import JS Chat.

(** [messageText(m)] *)
Definition messageText (m : Message) : string :=
  match parts m with
  | Some ps => partsText ps
  | None => ToString (orElse (VStr (content m)) (VStr EmptyString))
  end.

(** [m.content || messageText(m)], the content that [handleSend] puts in
    the history of later turns. *)
Definition historyContent (m : Message) : string :=
  if truthy (VStr (content m)) then content m else messageText m.

Definition isStop (i : Input) : bool :=
  match i with Stop => true | _ => false end.

(** What the stream did, without the presses of the stop button. *)
Definition withoutStops (inputs : list Input) : list Input :=
  List.filter (fun i => negb (isStop i)) inputs.

(** The displayed message agrees with the local variables of
    [handleSend]: it shows the structured parts with an empty content, or
    no parts and the accumulated text. *)
Definition consistent (t : Turn) : Prop :=
  parts (shown t) = structuredParts t /\
  match structuredParts t with
  | None => content (shown t) = fullContent t
  | Some _ => content (shown t) = EmptyString
  end.

Definition isTextChunk (ev : StreamEvent) : bool :=
  match ev with TextChunk _ => true | _ => false end.

End ChatHistory.

(* ===================================================================== *)
(** * A concrete stream for worked examples *)
(* ===================================================================== *)

(** The model streams an answer in two chunks; the final response repeats
    the text around the parts of a code execution. *)
Module DemoStream.
Import JS.

Definition chunk (txt : string) : JSValue :=
  Demo.candidate [VObj [("text", VStr txt)]].

Definition plotParts : list JSValue :=
  [VObj [("text", VStr "Here is the plot.")];
   VObj [("executableCode", VObj [("language", VStr "PYTHON"); ("code", VStr "plot()")])];
   VObj [("codeExecutionResult", VObj [("outcome", VStr "OUTCOME_OK"); ("output", VStr "done")])];
   VObj [("inlineData", VObj [("mimeType", VStr "image/png"); ("data", VStr "iVBORw0KGgo=")])];
   VObj [("text", VStr "Done.")]].

Definition result : GeminiStream.StreamResult :=
  GeminiStream.mkStreamResult
    [VObj [("candidates", chunk "Here is "); ("index", VNum 0)];
     VObj [("candidates", chunk "the plot.")]]
    None
    (Normal (VObj [("candidates", Demo.candidate plotParts)])).

Definition sendMessageStream (_ _ : JSValue) (w : Demo.World)
  : Completion GeminiStream.StreamResult * Demo.World :=
  (Normal result, S w).

End DemoStream.

(* ===================================================================== *)
(** * The channel data tools: data preparation helpers *)
(* ===================================================================== *)

Module DataPrep.
Import JS DataTools.

(** [headers.reduce((obj, h, i) => ({ ...obj, [h]: values[i] }), {})] *)
Fixpoint reduceRow (obj : Obj) (hs : list string) (i : nat) (values : list string) : Obj :=
  match hs with
  | [] => obj
  | h :: hs' =>
      reduceRow (obj_set obj h (match nth_error values i with
                                | Some v => VStr v
                                | None => VUndefined
                                end)) hs' (S i) values
  end.

Definition rowOfLine (hs : list string) (line : string) : Obj :=
  reduceRow [] hs 0 (split CsvTools.comma line).

(** [parseCsvToRows(text)] of the channel data tools: lines and fields are
    split at every newline and comma. *)
Definition parseCsvToRows (text : string) : Table :=
  match CsvTools.nonBlankLines text with
  | [] => mkTable [] []
  | first :: more =>
      let hs := List.map (fun h => stripQuotes (trim h)) (split CsvTools.comma first) in
      mkTable hs (List.map (rowOfLine hs) more)
  end.

Definition slimHeaders : list string :=
  ["title"; "viewCount"; "likeCount"; "commentCount"; "engagement"].

(** [slimHeaders.map(h => r[h] || '').join(',')] *)
Definition slimLine (r : Obj) : string :=
  joinValues "," (List.map (fun h => orElse (field r h) (VStr EmptyString)) slimHeaders).

(** [buildSlimCsv(rows, headers)]: at most 15000 code units of the text. *)
Definition buildSlimCsv (t : Table) : string :=
  match rows t with
  | [] => EmptyString
  | l => sliceTo (150 * 100)
           (join "," slimHeaders ++ String CsvTools.newline
              (join (String CsvTools.newline EmptyString) (List.map slimLine l)))
  end.


(** ** The tool declarations *)






(** ** The rows the executor is written for *)

(** An array whose elements have properties, with a [title] and a
    [releaseDate] that are strings when they are truthy. *)
Definition readableRows (rows : JSValue) : bool :=
  match rows with
  | VArr l =>
      List.forallb (fun r => negb (nullish r)
                             && CsvTools.stringOrFalsy (getPropOpt r "title")
                             && CsvTools.stringOrFalsy (getPropOpt r "releaseDate")) l
  | _ => false
  end.

(** A piece of a line, or [undefined]. *)
Definition isPiece (v : JSValue) : bool :=
  match v with VStr _ | VUndefined => true | _ => false end.

(** The rows of a table, as the array handed to the executor. *)
Definition rowArray (t : Table) : JSValue := VArr (List.map VObj (rows t)).

(** The field that [compute_stats_json] and [plot_metric_vs_time] read for
    a requested name. *)
Definition fieldFor (requested : JSValue) : string :=
  canonicalMetric (loweredOr requested "viewCount").

(** The rows that [plot_metric_vs_time] plots: those with the metric and
    a release date. *)
Definition plotted (metric : string) (rowList : list JSValue) : list JSValue :=
  List.filter (fun r => negb (isUndefined (getPropOpt r metric))
                        && truthy (getPropOpt r "releaseDate")) rowList.

(** The date part of a release date: what stands before the first [T]. *)
Definition dayOf (releaseDate : JSValue) : JSValue :=
  VStr (nth 0 (split "T"%char (ToString releaseDate)) EmptyString).

(** The point of the chart for a row: its day as [x] and [date], its value
    as [y] and under the name of the metric, and its title as [label]. *)
Definition plotPoint (metric : string) (r : JSValue) : JSValue :=
  let day := dayOf (getPropOpt r "releaseDate") in
  let value := VNum (numOr0 (parseFloat (getPropOpt r metric))) in
  VObj (obj_set (obj_set [("x", day); ("y", value); ("date", day)] metric value)
                "label" (getPropOpt r "title")).

(** A row whose title contains the query of [play_video]. *)
Definition titleMatches (searchTitle : string) (r : JSValue) : bool :=
  truthy (getPropOpt r "title")
  && includes (toLowerCase (ToString (getPropOpt r "title"))) searchTitle.

(** What [play_video] answers for a video. *)
Definition played (video : JSValue) : JSValue :=
  VObj [("_playVideo", VBool true);
        ("title", getPropOpt video "title");
        ("url", orElse (getPropOpt video "videoUrl")
                       (VStr ("https://youtube.com/watch?v=" ++
                              ToString (getPropOpt video "videoId"))));
        ("thumbnailUrl", getPropOpt video "thumbnailUrl")].


End DataPrep.

(* ===================================================================== *)
(** * More of the JavaScript library: JSON text and base64 *)
(* ===================================================================== *)

Module JSLib.
Import JS.

(** ** [JSON.stringify] *)

Definition hexDigit (n : N) : ascii :=
  ascii_of_N (if (n <? 10)%N then 48 + n else 87 + n).

(** [QuoteJSONString]: the escapes of a code unit below 256. *)
Definition escapeJSON (c : ascii) : string :=
  let n := code c in
  if (n =? 34)%N then String "\"%char (String dquote EmptyString)
  else if (n =? 92)%N then "\\"
  else if (n =? 8)%N then "\b"
  else if (n =? 9)%N then "\t"
  else if (n =? 10)%N then "\n"
  else if (n =? 12)%N then "\f"
  else if (n =? 13)%N then "\r"
  else if (n <? 32)%N
  then "\u00" ++ String (hexDigit (n / 16)) (String (hexDigit (n mod 16)) EmptyString)
  else String c EmptyString.

Fixpoint escapeAll (s : string) : string :=
  match s with
  | EmptyString => EmptyString
  | String c s' => escapeJSON c ++ escapeAll s'
  end.

Definition quoteJSON (s : string) : string := quoted (escapeAll s).

Definition isFinite (x : float) : bool :=
  match Prim2SF x with
  | S754_zero _ | S754_finite _ _ _ => true
  | _ => false
  end.

Definition lineFeed : string := String (ascii_of_N 10) EmptyString.

(** The text of an array or object from the texts of its members: on one
    line without a gap, one member per line with a gap. *)
Definition wrap (opening closing gap stepback : string) (items : list string) : string :=
  match items with
  | [] => opening ++ closing
  | _ =>
      match gap with
      | EmptyString => opening ++ join "," items ++ closing
      | _ =>
          let indent := stepback ++ gap in
          opening ++ lineFeed ++ indent ++ join ("," ++ lineFeed ++ indent) items
          ++ lineFeed ++ stepback ++ closing
      end
  end.

Fixpoint lookupText (k : string) (l : list (string * option string)) : option string :=
  match l with
  | [] => None
  | (k', t) :: l' => if String.eqb k' k then t else lookupText k l'
  end.

(** [SerializeJSONProperty]: [None] is [undefined].  An element of an
    array without a text is written [null]; a member of an object without
    a text is left out. *)
Fixpoint stringifyAt (gap stepback : string) (v : JSValue) : option string :=
  match v with
  | VUndefined => None
  | VNull => Some "null"
  | VBool b => Some (if b then "true" else "false")
  | VNum n => Some (if isFinite n then NumberToString n else "null")
  | VStr s => Some (quoteJSON s)
  | VArr l =>
      Some (wrap "[" "]" gap stepback
              ((fix elements (l : list JSValue) : list string :=
                  match l with
                  | [] => []
                  | e :: l' =>
                      match stringifyAt gap (stepback ++ gap) e with
                      | Some t => t
                      | None => "null"
                      end :: elements l'
                  end) l))
  | VObj props =>
      let texts :=
        (fix members (ps : list (string * JSValue)) : list (string * option string) :=
           match ps with
           | [] => []
           | (k, x) :: ps' => (k, stringifyAt gap (stepback ++ gap) x) :: members ps'
           end) props in
      Some (wrap "{" "}" gap stepback
              (List.flat_map
                 (fun k => match lookupText k texts with
                           | Some t => [quoteJSON k ++ ":" ++
                                        match gap with
                                        | EmptyString => EmptyString
                                        | _ => " "
                                        end ++ t]
                           | None => []
                           end)
                 (ownKeys props)))
  end.

(** [JSON.stringify(v)] and [JSON.stringify(v, null, 2)] *)
Definition stringify (v : JSValue) : option string := stringifyAt EmptyString EmptyString v.
Definition stringifyPretty (v : JSValue) : option string := stringifyAt "  " EmptyString v.

(** ** [TextEncoder] and [btoa] *)

(** The UTF-8 bytes of a string of code units below 256. *)
Fixpoint utf8 (s : string) : list N :=
  match s with
  | EmptyString => []
  | String c s' =>
      let n := code c in
      if (n <? 128)%N then n :: utf8 s'
      else (192 + n / 64)%N :: (128 + n mod 64)%N :: utf8 s'
  end.

Definition base64Alphabet : string :=
  "ABCDEFGHIJKLMNOPQRSTUVWXYZabcdefghijklmnopqrstuvwxyz0123456789+/".

Definition base64Char (n : N) : ascii :=
  match String.get (N.to_nat n) base64Alphabet with
  | Some c => c
  | None => "="%char
  end.

(** [btoa] on a binary string given by its bytes. *)
Fixpoint btoa (bytes : list N) : string :=
  match bytes with
  | [] => EmptyString
  | [a] =>
      String (base64Char (a / 4)) (String (base64Char (a mod 4 * 16)) "==")
  | [a; b] =>
      String (base64Char (a / 4))
        (String (base64Char (a mod 4 * 16 + b / 16))
           (String (base64Char (b mod 16 * 4)) "="))
  | a :: b :: c :: rest =>
      String (base64Char (a / 4))
        (String (base64Char (a mod 4 * 16 + b / 16))
           (String (base64Char (b mod 16 * 4 + c / 64))
              (String (base64Char (c mod 64)) (btoa rest))))
  end%N.

(** A character of base64 text. *)
Definition isBase64Char (c : ascii) : bool :=
  let n := code c in
  (((65 <=? n) && (n <=? 90)) || ((97 <=? n) && (n <=? 122)) || ((48 <=? n) && (n <=? 57))
   || (n =? 43) || (n =? 47) || (n =? 61))%N.

Fixpoint allChars (p : ascii -> bool) (s : string) : bool :=
  match s with
  | EmptyString => true
  | String c s' => p c && allChars p s'
  end.

End JSLib.

(* ===================================================================== *)
(** * The chat component: reading attached files *)
(* ===================================================================== *)

Module ChatFiles.
Import JS JSLib.

(** [toBase64(str)] *)
Definition toBase64 (str : string) : string := btoa (utf8 str).

(** The limit of 500000 code units on the encoded text. *)
Definition tooLong (s : string) : bool := (500000 <? N.of_nat (String.length s))%N.

Definition clipped (s : string) : string :=
  if tooLong s then sliceTo (N.to_nat 500000) s else s.

(** What [parseCSV] returns. *)
Record CsvInfo : Type := mkCsvInfo {
  csv_headers : list string;
  csv_rowCount : nat;
  csv_preview : string;
  csv_base64 : string;
  csv_truncated : bool
}.

(** [parseCSV(text)]; [None] is [null]. *)
Definition parseCSV (text : string) : option CsvInfo :=
  match CsvTools.nonBlankLines text with
  | [] => None
  | first :: more =>
      Some (mkCsvInfo
              (List.map (fun h => stripQuotes (trim h)) (split CsvTools.comma first))
              (List.length (first :: more) - 1)
              (join lineFeed (firstn 6 (first :: more)))
              (toBase64 (clipped text))
              (tooLong text))
  end.

(** What [parseJSON] returns. *)
Record JsonInfo : Type := mkJsonInfo {
  headers : list string;
  rowCount : nat;
  preview : string;
  base64 : string;
  truncated : bool;
  rows : list Obj
}.

(** [typeof v === 'object'] *)
Definition typeofObject (v : JSValue) : bool :=
  match v with VObj _ | VArr _ | VNull => true | _ => false end.

(** [Object.values(v)] *)
Definition ObjectValues (v : JSValue) : Completion (list JSValue) :=
  match v with
  | VUndefined | VNull => Throw (TypeError "Cannot convert undefined or null to object")
  | _ => Normal (List.map (field (ownProps v)) (ownKeys (ownProps v)))
  end.

(** [Array.isArray(v) && v.length > 0] *)
Definition isFilledArray (v : JSValue) : bool :=
  match v with VArr (_ :: _) => true | _ => false end.

(** [[...new Set(l)]]: the elements of [l] that are not in [seen], each
    at its first place. *)
Fixpoint unique (seen l : list string) : list string :=
  match l with
  | [] => []
  | k :: l' => if includesStr seen k then unique seen l' else k :: unique (k :: seen) l'
  end.

(** The cell stored for a value: the empty string for [null] and
    [undefined], the JSON text of an object, the string of anything else. *)
Definition cellOf (val : JSValue) : JSValue :=
  match val with
  | VNull | VUndefined => VStr EmptyString
  | VObj _ | VArr _ =>
      match stringify val with
      | Some t => VStr t
      | None => VUndefined
      end
  | _ => VStr (ToString val)
  end.

(** The names of the members of [Object.prototype].  A record inherits
    them: reading one from a record that has no such key of its own gives
    the inherited member, and [__proto__] cannot be set as a key by an
    assignment. *)
Definition inheritedNames : list string :=
  ["constructor"; "__defineGetter__"; "__defineSetter__"; "hasOwnProperty";
   "__lookupGetter__"; "__lookupSetter__"; "isPrototypeOf"; "propertyIsEnumerable";
   "toString"; "valueOf"; "__proto__"; "toLocaleString"].

(** A record, none of whose keys is the name of an inherited member. *)
Definition plainRecord (v : JSValue) : bool :=
  match v with
  | VObj o => List.forallb (fun k => negb (includesStr inheritedNames k)) (List.map fst o)
  | _ => false
  end.

(** [headers.forEach(h => { row[h] = ... item[h] ... })] *)
Definition rowOfItem (hs : list string) (item : JSValue) : Completion Obj :=
  foldC (fun row h => bind (getProp item h) (fun val => Normal (obj_set row h (cellOf val))))
        hs [].

Definition textOr (t : option string) : string :=
  match t with Some s => s | None => "undefined" end.

Section Parse.

(** [JSON.parse] *)
Variable JSONparse : string -> Completion JSValue.

(** The array that [parseJSON] works on: the parsed value, or its first
    property that is a non-empty array. *)
Definition dataArray (parsed : JSValue) : Completion (option (list JSValue)) :=
  match parsed with
  | VArr l => Normal (Some l)
  | _ =>
      bind (ObjectValues parsed) (fun values =>
      Normal (match List.find isFilledArray values with
              | Some (VArr l) => Some l
              | _ => None
              end))
  end.

(** [parseJSON(text)]; [None] is [null]. *)
Definition parseJSON (text : string) : option JsonInfo :=
  let body :=
    bind (JSONparse text) (fun parsed =>
    bind (dataArray parsed) (fun found =>
    match found with
    | None | Some [] => Normal None
    | Some (first :: more) =>
        let data := first :: more in
        if negb (typeofObject first) then Normal None
        else
          bind (mapC ObjectKeys data) (fun keyLists =>
          let hs := unique [] (List.concat keyLists) in
          let raw := textOr (stringify (VArr data)) in
          bind (mapC (rowOfItem hs) data) (fun rowList =>
          Normal (Some (mkJsonInfo
                          hs
                          (List.length data)
                          (sliceTo 500 (textOr (stringifyPretty (VArr (firstn 2 data)))))
                          (toBase64 (clipped raw))
                          (tooLong raw)
                          rowList))))
    end)) in
  match body with
  | Normal r => r
  | Throw _ => None
  end.

End Parse.

(** The rows of a parsed file as a table of the channel data tools. *)
Definition tableOf (info : JsonInfo) : DataTools.Table :=
  DataTools.mkTable (headers info) (rows info).

End ChatFiles.

(* ===================================================================== *)
(** * Properties *)
(* ===================================================================== *)

(** ** Strings *)

Module StringFacts.

Lemma append_assoc (a b c : string) : ((a ++ b) ++ c = a ++ (b ++ c))%string.
Proof. induction a as [|x a IH]; simpl; [reflexivity|now rewrite IH]. Qed.

Lemma append_empty_r (a : string) : (a ++ EmptyString)%string = a.
Proof. induction a as [|x a IH]; simpl; [reflexivity|now rewrite IH]. Qed.

Lemma concat_cons (c : string) (cs : list string) :
  String.concat EmptyString (c :: cs) = (c ++ String.concat EmptyString cs)%string.
Proof. destruct cs; simpl; [now rewrite append_empty_r|reflexivity]. Qed.

End StringFacts.

(** ** The JavaScript fragment on known values *)

Module JSExamples.
Import JS.

Example number_to_string :
  List.map NumberToString
    [0.1; 1e21; 123456789012345680000; 0.000001; 1e-7; 0.1 + 0.2; 100; 2.5; -1234.5678]%float =
  ["0.1"; "1e+21"; "123456789012345680000"; "0.000001"; "1e-7"; "0.30000000000000004";
   "100"; "2.5"; "-1234.5678"].
Proof. vm_compute. reflexivity. Qed.

Example to_fixed :
  List.map (fun x => toFixed x 4) [PrimFloat.sqrt 1.25; 2.5; 0; -0.00001; 1.00005; 1e21]%float =
  ["1.1180"; "2.5000"; "0.0000"; "-0.0000"; "1.0001"; "1e+21"] /\
  List.map (fun x => toFixed x 2) [1.005; 8.345; 10.235]%float = ["1.00"; "8.35"; "10.23"].
Proof. split; vm_compute; reflexivity. Qed.

Example parse_float :
  List.map parseFloatStr ["3.14abc"; "  -12e2"; ".5"; "1e"; "0x10"; "1."; "-.5e3"; "Infinityx"] =
  [3.14; -1200; 0.5; 1; 0; 1; -500; PrimFloat.infinity]%float /\
  List.map (fun s => isNaN (parseFloatStr s)) ["abc"; "."; "- 5"; "n/a"] =
  [true; true; true; true].
Proof. split; vm_compute; reflexivity. Qed.

Example string_to_number :
  List.map StringToNumber [" 12 "; "0x1f"; "1e3"; "-0.0000"; "1.1180"] =
  [12; 31; 1000; -0; 1.118]%float /\
  List.map (fun s => isNaN (StringToNumber s)) ["12px"; "0x"; "1,5"] = [true; true; true] /\
  PrimFloat.eqb (StringToNumber EmptyString) 0 = true.
Proof. repeat split; vm_compute; reflexivity. Qed.

Example math_round :
  List.map MathRound [2.5; -2.5; 111.80339887498948; 0.4; 250]%float =
  [3; -2; 112; 0; 250]%float.
Proof. vm_compute. reflexivity. Qed.

Example stable_sort :
  sortBy (fun a b => (fst a - fst b)%float)
         [(2, "a"); (1, "b"); (2, "c"); (1, "d")]%float =
  [(1, "b"); (1, "d"); (2, "a"); (2, "c")]%float.
Proof. vm_compute. reflexivity. Qed.

Example own_keys_order :
  ownKeys [("b", VNull); ("2", VNull); ("a", VNull); ("10", VNull); ("01", VNull)] =
  ["2"; "10"; "b"; "a"; "01"].
Proof. vm_compute. reflexivity. Qed.

Example patterns :
  List.map (test CsvTools.reMostViewed) ["most   viewed"; "MostPopular"; "most viewed video"] =
    [true; true; false] /\
  List.map (test CsvTools.reMostLiked) ["most liked videos"; "the most liked"] =
    [true; false] /\
  List.map (test CsvTools.reTitle) ["Title"; "subtitle"] = [true; false] /\
  List.map (test CsvTools.reLikeCount) ["myLIKEcount"; "like_count"] = [true; false] /\
  List.map (test CsvTools.reFavoriteCount)
           ["favorite_count"; "FavoriteCount"; "favorite__count"] = [true; true; false] /\
  List.map (test CsvTools.reTextLike) ["Tweet body"; "caption"] = [true; false].
Proof. repeat split; vm_compute; reflexivity. Qed.

Example trimming :
  trim (String (ascii_of_N 9) "  a b  ") = "a b" /\
  stripQuotes (quoted "a") = "a" /\
  stripQuotes (String dquote EmptyString) = EmptyString /\
  CsvTools.parseLine ("1, " ++ quoted "x, y" ++ " ,3") = ["1"; "x, y"; "3"].
Proof. repeat split; vm_compute; reflexivity. Qed.

End JSExamples.

(** ** The function-calling loop *)

Module GeminiFacts.
Import JS Gemini.

Lemma executions_app tr1 tr2 : executions (tr1 ++ tr2) = executions tr1 + executions tr2.
Proof. unfold executions. now rewrite filter_app, length_app. Qed.

Lemma messagesSent_app tr1 tr2 : messagesSent (tr1 ++ tr2) = messagesSent tr1 + messagesSent tr2.
Proof. unfold messagesSent. now rewrite filter_app, length_app. Qed.

Lemma fetches_app tr1 tr2 : fetches (tr1 ++ tr2) = fetches tr1 + fetches tr2.
Proof. unfold fetches. now rewrite filter_app, length_app. Qed.

Lemma executed_app tr1 tr2 : executed (tr1 ++ tr2) = (executed tr1 ++ executed tr2)%list.
Proof.
  induction tr1 as [|ev tr1 IH]; [reflexivity|].
  destruct ev as [| | |n a [r|e]]; simpl; now rewrite IH.
Qed.

(** *** The sanitizer *)

Lemma lookup_filter_key (f : string -> bool) (o : Obj) (k : string) :
  lookup k (List.filter (fun kv => f (fst kv)) o) = if f k then lookup k o else None.
Proof.
  induction o as [|[k' v] o IH]; simpl.
  - now destruct (f k).
  - destruct (f k') eqn:Hf'; simpl; rewrite IH;
      destruct (String.eqb k' k) eqn:Hk; try reflexivity;
      apply String.eqb_eq in Hk; subst k'; now rewrite Hf'.
Qed.

(** The copy that goes to the model has no [inlineData] property. *)
Lemma geminiSafe_strips (toolResult : JSValue) :
  lookup "inlineData" (geminiSafe toolResult) = None.
Proof.
  unfold geminiSafe.
  now rewrite (lookup_filter_key (fun k => negb (String.eqb k "inlineData"))).
Qed.

(** Every other property of the tool result is copied as it is. *)
Lemma geminiSafe_keeps (toolResult : JSValue) (k : string) :
  k <> "inlineData" ->
  lookup k (geminiSafe toolResult) = lookup k (ownProps (orElse toolResult (VObj []))).
Proof.
  intros Hk. unfold geminiSafe.
  rewrite (lookup_filter_key (fun k => negb (String.eqb k "inlineData"))).
  apply String.eqb_neq in Hk. now rewrite Hk.
Qed.

Section Loop.

Variable World : Type.
Variable fetchPrompt : World -> PromptFetch * World.
Variable startChat : JSValue -> World -> World.
Variable sendMessage : JSValue -> World -> Completion Response * World.
Variable executeFn : JSValue -> JSValue -> World -> Completion JSValue * World.

Let St := State World.
Let loop := toolLoop World sendMessage executeFn.
Let turn := chatWithCsvTools World fetchPrompt startChat sendMessage executeFn.

(** What one run of the loop adds to the trace: at most [n] executions,
    each followed by one message, except that the last execution is
    followed by none when the executor or the send fails. *)
Lemma toolLoop_trace (n : nat) :
  forall (ls : LoopState) (st : St),
  exists tr,
    trace World (snd (loop n ls st)) = (trace World st ++ tr)%list /\
    executions tr <= n /\ messagesSent tr <= executions tr /\ fetches tr = 0.
Proof.
  induction n as [|n IH]; intros ls st.
  - exists []. simpl. rewrite app_nil_r. repeat split; auto.
  - subst loop. simpl. unfold bindM, lift, ret.
    destruct (findPart (responseParts (response ls))) as [[part|]|e].
    + unfold doExecute at 1.
      destruct (executeFn _ _ (world World st)) as [[r|e] w] eqn:Hex.
      * unfold doSendMessage at 1. cbn [world trace cachedPrompt].
        destruct (sendMessage _ w) as [[resp|e] w'] eqn:Hsend; cbn [world trace cachedPrompt].
        -- match goal with
           | |- context [if ?c then _ else _] => destruct c
           end.
           ++ eexists. cbn [snd trace]. rewrite <- !app_assoc. split; [reflexivity|].
              cbn. repeat split; lia.
           ++ match goal with
              | |- context [Gemini.toolLoop _ _ _ n ?ls' ?st'] =>
                  destruct (IH ls' st') as (tr & Htr & He & Hm & Hf)
              end.
              eexists. split.
              { rewrite Htr. cbn [trace]. rewrite <- !app_assoc. reflexivity. }
              unfold executions, messagesSent, fetches in *. cbn. repeat split; lia.
        -- eexists. cbn [snd trace]. rewrite <- !app_assoc. split; [reflexivity|].
           cbn. repeat split; lia.
      * eexists. cbn [snd trace]. split; [reflexivity|]. cbn. repeat split; lia.
    + exists []. cbn. rewrite app_nil_r. repeat split; lia.
    + exists []. cbn. rewrite app_nil_r. repeat split; lia.
Qed.

Lemma sent_app tr1 tr2 : sent (tr1 ++ tr2) = (sent tr1 ++ sent tr2)%list.
Proof. unfold sent. apply flat_map_app. Qed.

Lemma length_sent tr : List.length (sent tr) = messagesSent tr.
Proof.
  unfold sent, messagesSent.
  induction tr as [|[| | |] tr IH]; simpl; auto.
Qed.

(** What the loop returns when it completes: the log holds one record per
    executed call, with the result as the executor returned it, and the
    messages sent carry the sanitized copies. *)
Lemma toolLoop_log (n : nat) :
  forall (ls ls' : LoopState) (st st' : St),
    loop n ls st = (Normal ls', st') ->
    exists tr,
      trace World st' = (trace World st ++ tr)%list /\
      toolCalls ls' = (toolCalls ls ++ List.map toolCallRecord (executed tr))%list /\
      charts ls' =
        (charts ls ++ List.filter isChart (List.map snd (executed tr)))%list /\
      sent tr =
        List.map (fun call => functionResponse (fst (fst call)) (geminiSafe (snd call)))
                 (executed tr).
Proof.
  induction n as [|n IH]; intros ls ls' st st' Hrun.
  - inversion Hrun; subst. exists []. cbn. now rewrite !app_nil_r.
  - subst loop. simpl in Hrun. unfold bindM, lift, ret in Hrun.
    destruct (findPart (responseParts (response ls))) as [[part|]|e].
    + unfold doExecute at 1 in Hrun.
      destruct (executeFn _ _ (world World st)) as [[r|e] w]; [|discriminate].
      unfold doSendMessage at 1 in Hrun. cbn [world trace cachedPrompt] in Hrun.
      destruct (sendMessage _ w) as [[resp|e] w']; [|discriminate].
      cbn [world trace cachedPrompt] in Hrun.
      match type of Hrun with
      | context [if ?c then _ else _] => destruct c
      end.
      * inversion Hrun; subst; clear Hrun.
        eexists. cbn [trace]. rewrite <- !app_assoc. split; [reflexivity|].
        cbn. destruct (isChart r); rewrite ?app_nil_r; auto.
      * apply IH in Hrun. destruct Hrun as (tr & Htr & Hlog & Hch & Hsent).
        cbn [trace toolCalls charts] in *.
        eexists. split.
        { rewrite Htr, <- !app_assoc. reflexivity. }
        rewrite !executed_app, !sent_app, !map_app, filter_app, Hlog, Hch, Hsent.
        cbn. rewrite <- !app_assoc.
        destruct (isChart r); cbn; rewrite <- ?app_assoc; auto.
    + inversion Hrun; subst. exists []. cbn. now rewrite !app_nil_r.
    + discriminate.
Qed.

(** The prompt loader always completes, and adds at most one fetch. *)
Lemma loadSystemPrompt_trace (st : St) :
  exists p st1 tr,
    loadSystemPrompt World fetchPrompt st = (Normal p, st1) /\
    trace World st1 = (trace World st ++ tr)%list /\
    (tr = [] \/ tr = [EvFetchPrompt]).
Proof.
  unfold loadSystemPrompt.
  destruct (truthy (cachedValue World st)).
  - exists (ToString (cachedValue World st)), st, []. rewrite app_nil_r. auto.
  - destruct (fetchPrompt (world World st)) as [r w].
    eexists _, _, [EvFetchPrompt]. cbn. split; [reflexivity|auto].
Qed.

(** The trace of a whole turn: the prompt fetch (if any), the chat start,
    the first message, then what the loop adds. *)
Lemma turn_trace history newMessage imageParts csvHeaders (st : St) :
  exists tr0 h m tr,
    trace World (snd (turn history newMessage imageParts csvHeaders st)) =
      (trace World st ++ tr0 ++ [EvStartChat h; EvSend m] ++ tr)%list /\
    (tr0 = [] \/ tr0 = [EvFetchPrompt]) /\
    executions tr <= 5 /\ messagesSent tr <= executions tr /\ fetches tr = 0.
Proof.
  subst turn. unfold chatWithCsvTools, bindM.
  destruct (loadSystemPrompt_trace st) as (p & st1 & tr0 & -> & Htr0 & Hcase).
  unfold doStartChat at 1. unfold doSendMessage at 1. cbn [world trace cachedPrompt].
  destruct (sendMessage _ _) as [[first|e] w].
  - match goal with
    | |- context [Gemini.toolLoop _ _ _ 5 ?ls ?s] =>
        destruct (toolLoop_trace 5 ls s) as (tr & Htr & He & Hm & Hf);
        unfold loop in Htr;
        destruct (Gemini.toolLoop _ _ _ 5 ls s) as [[final|e] st2]
    end; cbn [snd] in Htr.
    + exists tr0. do 2 eexists. exists tr.
      split; [|auto].
      unfold lift, ret. destruct (text (response final)); cbn [snd];
        rewrite Htr; cbn [trace]; rewrite Htr0, <- !app_assoc; reflexivity.
    + exists tr0. do 2 eexists. exists tr.
      split; [|auto]. cbn [snd]. rewrite Htr. cbn [trace].
      rewrite Htr0, <- !app_assoc. reflexivity.
  - exists tr0. do 2 eexists. exists [].
    split; [|cbn; repeat split; auto; lia].
    cbn [snd trace]. rewrite Htr0, <- !app_assoc. reflexivity.
Qed.

(** What a completed turn returns and what it sent. *)
Lemma turn_log history newMessage imageParts csvHeaders (st st' : St) (res : TurnResult) :
  turn history newMessage imageParts csvHeaders st = (Normal res, st') ->
  exists tr,
    trace World st' = (trace World st ++ tr)%list /\
    res_toolCalls res = List.map toolCallRecord (executed tr) /\
    res_charts res = List.filter isChart (List.map snd (executed tr)) /\
    relayed tr =
      List.map (fun call => functionResponse (fst (fst call)) (geminiSafe (snd call)))
               (executed tr).
Proof.
  subst turn. unfold chatWithCsvTools, bindM. intros Hrun.
  destruct (loadSystemPrompt_trace st) as (p & st1 & tr0 & Hload & Htr0 & Hcase).
  rewrite Hload in Hrun.
  unfold doStartChat at 1 in Hrun. unfold doSendMessage at 1 in Hrun.
  cbn [world trace cachedPrompt] in Hrun.
  destruct (sendMessage _ _) as [[first|e] w]; [|discriminate].
  match type of Hrun with
  | context [Gemini.toolLoop _ _ _ 5 ?ls ?s] =>
      pose proof (toolLoop_log 5 ls) as Hlog; unfold loop in Hlog;
      destruct (Gemini.toolLoop _ _ _ 5 ls s) as [[final|e] st2] eqn:Hloop; [|discriminate]
  end.
  apply Hlog in Hloop. destruct Hloop as (tr & Htr & Hcalls & Hcharts & Hsent).
  unfold lift, ret in Hrun. destruct (text (response final)); [|discriminate].
  inversion Hrun; subst; clear Hrun.
  cbn [trace toolCalls charts res_toolCalls res_charts app] in *.
  eexists. split.
  { rewrite Htr, Htr0, <- !app_assoc. reflexivity. }
  unfold relayed. rewrite !executed_app, !sent_app, Hsent.
  destruct Hcase as [-> | ->]; cbn; auto.
Qed.

(** C2. In one turn of [chatWithCsvTools] the executor runs at most five
    times and at most five function-response messages go to the model,
    each of them after an execution, whatever the model answers. *)
Theorem tool_round_trips_bounded history newMessage imageParts csvHeaders (st : St) :
  exists tr,
    trace World (snd (turn history newMessage imageParts csvHeaders st)) =
      (trace World st ++ tr)%list /\
    executions tr <= 5 /\
    List.length (relayed tr) <= executions tr /\
    List.length (relayed tr) <= 5.
Proof.
  destruct (turn_trace history newMessage imageParts csvHeaders st)
    as (tr0 & h & m & tr & Htr & Hcase & He & Hm & _).
  exists (tr0 ++ [EvStartChat h; EvSend m] ++ tr)%list.
  split; [exact Htr|].
  assert (Hrel : relayed (tr0 ++ [EvStartChat h; EvSend m] ++ tr) = sent tr).
  { unfold relayed. rewrite !sent_app. destruct Hcase as [-> | ->]; reflexivity. }
  assert (Hex : executions (tr0 ++ [EvStartChat h; EvSend m] ++ tr) = executions tr).
  { rewrite !executions_app. destruct Hcase as [-> | ->]; reflexivity. }
  rewrite Hrel, Hex, length_sent. lia.
Qed.

End Loop.

End GeminiFacts.

(** ** The system prompt cache *)

Module PromptFacts.
Import JS Gemini PromptLoads.

Section Cache.

Variable World : Type.
Variable fetchPrompt : World -> PromptFetch * World.

Let St := State World.
Let loadMany := loadRepeatedly World fetchPrompt.


(** With a non-empty prompt in the cache, calls made one after the other
    neither fetch nor change anything, and all return the cached prompt. *)
Lemma cached_prompt_stable (n : nat) (st : St) (p : string) :
  cachedPrompt World st = Some p -> p <> EmptyString ->
  loadMany n st = (List.repeat (Normal p) n, st).
Proof.
  intros Hc Hp. subst loadMany.
  induction n as [|n IH]; [reflexivity|].
  simpl. unfold loadSystemPrompt at 1.
  assert (Ht : truthy (cachedValue World st) = true).
  { unfold cachedValue. rewrite Hc. simpl.
    destruct p; [congruence|reflexivity]. }
  rewrite Ht, IH. unfold cachedValue. now rewrite Hc.
Qed.







End Cache.

(** A page session on a server without the prompt file: the call finds a
    non-empty prompt nowhere, and the cache keeps the empty string. *)
Example prompt_missing_on_server :
  loadSystemPrompt Demo.World Demo.fetchNoPrompt Demo.initial =
  (Normal EmptyString,
   mkState Demo.World (Some EmptyString) 1 [EvFetchPrompt]).
Proof. reflexivity. Qed.


(** Two calls that overlap on a server that has the file: both request
    it. *)
Example overlapping_calls_fetch_twice :
  requests Demo.World
    (run Demo.World Demo.fetchPrompt [Call; Call; Settle 0; Settle 0]
         (idle Demo.World Demo.initial)) = 2.
Proof. reflexivity. Qed.

(** Two calls that overlap, the second of which fails: the first response
    puts the prompt in the cache, the second replaces it by the empty
    string, and the next call requests the file again. *)
Example overlapping_failure_empties_cache :
  let p := run Demo.World fetchOnce [Call; Call; Settle 0]
               (idle Demo.World Demo.initial) in
  let p' := step Demo.World fetchOnce (Settle 0) p in
  cache Demo.World p = Some "Be brief." /\
  cache Demo.World p' = Some EmptyString /\
  requests Demo.World (step Demo.World fetchOnce Call p') = 3.
Proof. vm_compute. repeat split. Qed.

End PromptFacts.

(** ** Tool results: what is logged and what the model receives *)

Module ChatFacts.
Import JS.

Section Send.

Variable World : Type.
Variable fetchPrompt : World -> Gemini.PromptFetch * World.
Variable startChat : JSValue -> World -> World.
Variable sendMessage : JSValue -> World -> Completion Gemini.Response * World.
Variable executeTool :
  JSValue -> JSValue -> JSValue -> JSValue -> World -> Completion JSValue * World.

(** C10, as the code has it.  Every tool result is put on the tool-call
    log as the executor returned it.  When the turn completes, the log
    holds one record per executed call, in the order of the calls, and the
    send handler keeps that log and passes it to [saveMessage] ([null]
    when it is empty).  When the turn fails, also after tools have run, the
    log is lost: the handler keeps no tool calls, saves [null] for them and
    saves the error text. *)
Theorem tool_log_keeps_raw_results
    history prompt images headers rows (st st' : Gemini.State World)
    (outcome : Completion Gemini.TurnResult) :
  Gemini.chatWithCsvTools World fetchPrompt startChat sendMessage
    (Chat.executeFn World executeTool rows images)
    history prompt (Some images) headers st = (outcome, st') ->
  exists tr,
    Gemini.trace World st' = (Gemini.trace World st ++ tr)%list /\
    let '(saved, t, _) :=
      Chat.handleSendTools World fetchPrompt startChat sendMessage executeTool
        history prompt images headers rows st in
    match outcome with
    | Normal res =>
        Gemini.res_toolCalls res = List.map Gemini.toolCallRecord (Gemini.executed tr) /\
        (forall call, In call (Gemini.executed tr) ->
           getProp (Gemini.toolCallRecord call) "result" = Normal (snd call)) /\
        Chat.toolCalls t = Gemini.res_toolCalls res /\
        Chat.saved_toolCalls saved = Chat.orNull (Gemini.res_toolCalls res)
    | Throw e =>
        Chat.toolCalls t = [] /\
        Chat.saved_toolCalls saved = VNull /\
        Chat.saved_content saved = ("Error: " ++ message e)%string
    end.
Proof.
  intros Hrun. unfold Chat.handleSendTools. rewrite Hrun.
  destruct outcome as [res|e].
  - destruct (GeminiFacts.turn_log _ _ _ _ _ _ _ _ _ _ _ _ Hrun)
      as (tr & Htr & Hcalls & _ & _).
    exists tr. split; [exact Htr|]. split; [exact Hcalls|]. split.
    + intros [[name args] result] _. reflexivity.
    + cbn. auto.
  - destruct (GeminiFacts.turn_trace World fetchPrompt startChat sendMessage
                (Chat.executeFn World executeTool rows images)
                history prompt (Some images) headers st)
      as (tr0 & h & m & tr & Htr & _).
    rewrite Hrun in Htr. cbn [snd] in Htr.
    exists (tr0 ++ [Gemini.EvStartChat h; Gemini.EvSend m] ++ tr)%list.
    split; [exact Htr|]. cbn. auto.
Qed.

End Send.

(** A turn in which the CSV executor generates an image: the log keeps the
    record of the call, with the image bytes, and it is what is saved. *)
Lemma tool_log_keeps_raw_results_witness :
  let executeTool := CsvTools.executeTool Demo.World Demo.fetchImage Demo.timeValue in
  let run :=
    Gemini.chatWithCsvTools Demo.World Demo.fetchPrompt Demo.startChat Demo.sendMessage
      (Chat.executeFn Demo.World executeTool VNull [])
      [] "draw a red kite" (Some []) None Demo.initial in
  let '(saved, _, _) :=
    Chat.handleSendTools Demo.World Demo.fetchPrompt Demo.startChat Demo.sendMessage
      executeTool [] "draw a red kite" [] None VNull Demo.initial in
  exists tr res,
    fst run = Normal res /\
    Gemini.trace Demo.World (snd run) = tr /\
    Chat.saved_toolCalls saved = VArr (List.map Gemini.toolCallRecord (Gemini.executed tr)) /\
    List.map (fun call => getPropOpt (getPropOpt (snd call) "inlineData") "data")
             (Gemini.executed tr) = [VStr Demo.imageBytes].
Proof.
  intros executeTool run.
  pose proof (tool_log_keeps_raw_results Demo.World Demo.fetchPrompt Demo.startChat
                Demo.sendMessage executeTool [] "draw a red kite" [] None VNull
                Demo.initial (snd run) (fst run) (surjective_pairing run)) as H.
  destruct H as (tr & Htr & H).
  destruct (Chat.handleSendTools Demo.World Demo.fetchPrompt Demo.startChat Demo.sendMessage
              executeTool [] "draw a red kite" [] None VNull Demo.initial)
    as [[saved t] st] eqn:Hsend.
  destruct (fst run) as [res|e] eqn:Hres; [|vm_compute in Hres; discriminate Hres].
  destruct H as (Hlog & _ & _ & Hsaved).
  exists tr, res. split; [reflexivity|].
  assert (Htr' : Gemini.trace Demo.World (snd run) = tr).
  { rewrite Htr. reflexivity. }
  split; [exact Htr'|].
  vm_compute in Htr'. subst tr. vm_compute in Hres. inversion Hres; subst res.
  split; [rewrite Hsaved; vm_compute; reflexivity|vm_compute; reflexivity].
Defined.

(** A turn in which the request that relays the tool result is rejected:
    the executor has run and returned the image, but the handler keeps no
    tool call and saves [null] for the log. *)
Lemma tool_log_lost_when_turn_fails :
  let executeTool := CsvTools.executeTool Demo.World Demo.fetchImage Demo.timeValue in
  let '(saved, t, st) :=
    Chat.handleSendTools Demo.World Demo.fetchPrompt Demo.startChat DemoFailure.sendMessage
      executeTool [] "draw a red kite" [] None VNull Demo.initial in
  List.map (fun call => getPropOpt (getPropOpt (snd call) "inlineData") "data")
           (Gemini.executed (Gemini.trace Demo.World st)) = [VStr Demo.imageBytes] /\
  Chat.toolCalls t = [] /\
  Chat.saved_toolCalls saved = VNull /\
  Chat.saved_toolCalls saved <>
    Chat.orNull (List.map Gemini.toolCallRecord
                          (Gemini.executed (Gemini.trace Demo.World st))).
Proof. vm_compute. repeat split. discriminate. Qed.

(** C1. With the executor of the channel data tools, a generated image
    reaches the model with its base64 bytes: the tool result carries them in
    its [data] property, and the message relayed to the model still has
    that property. *)
Theorem generated_image_bytes_reach_model :
  let '(_, _, st) :=
    Chat.handleSendTools Demo.World Demo.fetchPrompt Demo.startChat Demo.sendMessage
      (DataTools.executeTool Demo.World Demo.fetchImage Demo.timeValue)
      [] "draw a red kite" [] None VNull Demo.initial in
  List.map (fun m =>
      getPropOpt
        (getPropOpt (getPropOpt (getPropOpt (getPropOpt m "0") "functionResponse") "response")
                    "result")
        "data")
    (Gemini.relayed (Gemini.trace Demo.World st)) = [VStr Demo.imageBytes].
Proof. vm_compute. reflexivity. Qed.

End ChatFacts.

(** ** Cancelling a streamed answer *)

Module StreamFacts.
Import JS Chat StringFacts.

(** Text chunks delivered while the stop flag is clear are all applied, in
    order. *)
Lemma consume_text (chunks : list string) :
  forall (rest : list Input) (t : Turn),
    abortRef t = false ->
    consume (deliverText chunks ++ rest) t = consume rest (applyAll chunks t).
Proof.
  induction chunks as [|c cs IH]; intros rest t Hab; [reflexivity|].
  simpl. rewrite Hab. apply IH. exact Hab.
Qed.

Lemma applyAll_fields (chunks : list string) :
  forall t : Turn,
    fullContent (applyAll chunks t) =
      (fullContent t ++ String.concat EmptyString chunks)%string /\
    structuredParts (applyAll chunks t) = structuredParts t /\
    groundingData (applyAll chunks t) = groundingData t /\
    abortRef (applyAll chunks t) = abortRef t /\
    toolCharts (applyAll chunks t) = toolCharts t /\
    toolCalls (applyAll chunks t) = toolCalls t.
Proof.
  induction chunks as [|c cs IH]; intros t.
  - simpl. now rewrite append_empty_r.
  - unfold applyAll in *. cbn [fold_left].
    destruct (IH (apply (TextChunk c) t)) as (Hf & Hs & Hg & Ha & Hc & Hl).
    rewrite Hf, Hs, Hg, Ha, Hc, Hl, concat_cons. cbn.
    now rewrite append_assoc.
Qed.

(** The displayed text follows the accumulated text. *)
Lemma applyAll_shown (chunks : list string) :
  forall t : Turn,
    content (shown t) = fullContent t ->
    content (shown (applyAll chunks t)) =
      (fullContent t ++ String.concat EmptyString chunks)%string.
Proof.
  induction chunks as [|c cs IH]; intros t Hshown.
  - simpl. now rewrite append_empty_r.
  - unfold applyAll in *. cbn [fold_left].
    rewrite IH by reflexivity. rewrite concat_cons. cbn.
    now rewrite append_assoc.
Qed.

(** Once the stop flag is set, nothing that the stream delivers is applied. *)
Lemma consume_stopped (rest : list Input) :
  forall t : Turn,
    abortRef t = true -> failsNext rest = false -> consume rest t = (t, None).
Proof.
  induction rest as [|[ev| |e] rest IH]; intros t Hab Hok; simpl in *.
  - reflexivity.
  - now rewrite Hab.
  - rewrite IH; auto. destruct t; simpl in *; now subst.
  - discriminate.
Qed.

Lemma persisted_attachGrounding (t : Turn) :
  persisted (attachGrounding t) = persisted t.
Proof.
  unfold attachGrounding. destruct (groundingData t) as [d|]; [|reflexivity].
  now destruct (truthy d).
Qed.

(** C3, as the code has it.  When the stop button is pressed after [k] text
    chunks have been applied, and the stream does not fail before it
    delivers its next event or completes, the saved assistant message and
    the displayed one hold exactly the concatenation of those chunks, in the
    order of delivery. *)
Theorem stop_keeps_applied_chunks (chunks : list string) (rest : list Input) :
  failsNext rest = false ->
  saved_content (handleSendStreaming (deliverText chunks ++ Stop :: rest)) =
    String.concat EmptyString chunks /\
  content (shown (respondStreaming (deliverText chunks ++ Stop :: rest))) =
    String.concat EmptyString chunks.
Proof.
  intros Hok. unfold handleSendStreaming, respondStreaming.
  rewrite consume_text by reflexivity.
  cbn [consume].
  destruct (applyAll_fields chunks start) as (Hf & Hs & Hg & Ha & _ & _).
  rewrite consume_stopped; [|reflexivity|exact Hok].
  rewrite persisted_attachGrounding.
  split.
  - unfold persisted. cbn [saved_content structuredParts pressStop fullContent].
    now rewrite Hs, Hf.
  - unfold attachGrounding. cbn [groundingData pressStop]. rewrite Hg. cbn.
    now rewrite applyAll_shown by reflexivity.
Qed.

(** The scenario of the specification: five chunks, stop after the second. *)
Lemma stop_keeps_applied_chunks_witness :
  saved_content
    (handleSendStreaming
       (deliverText ["Hel"; "lo"] ++
        Stop :: deliverText [", wor"; "ld"; "!"])) = "Hello".
Proof.
  exact (proj1 (stop_keeps_applied_chunks ["Hel"; "lo"]
                  (deliverText [", wor"; "ld"; "!"]) eq_refl)).
Defined.

(** A stream that fails after the stop button was pressed: the error text
    replaces the two chunks that had been applied. *)
Lemma stop_then_failure_loses_chunks :
  saved_content
    (handleSendStreaming
       (deliverText ["Hel"; "lo"] ++ [Stop; Fails (Error "network error")]))
  <> String.concat EmptyString ["Hel"; "lo"].
Proof. vm_compute. discriminate. Qed.

End StreamFacts.

(** ** The CSV parser *)

Module CsvFacts.
Import JS CsvTools StringFacts.

(** *** Objects *)

Lemma obj_set_keys (o : Obj) (k : string) (v : JSValue) (k' : string) :
  In k' (List.map fst (obj_set o k v)) <-> k' = k \/ In k' (List.map fst o).
Proof.
  induction o as [|[k0 v0] o IH]; simpl.
  - intuition.
  - destruct (String.eqb k0 k) eqn:Hk; simpl.
    + apply String.eqb_eq in Hk. subst k0. intuition.
    + rewrite IH. intuition.
Qed.

Lemma obj_set_NoDup (o : Obj) (k : string) (v : JSValue) :
  NoDup (List.map fst o) -> NoDup (List.map fst (obj_set o k v)).
Proof.
  induction o as [|[k0 v0] o IH]; simpl; intros Hnd.
  - constructor; [intros []|constructor].
  - inversion Hnd as [|? ? Hnotin Hnd']; subst.
    destruct (String.eqb k0 k) eqn:Hk; simpl.
    + constructor; assumption.
    + constructor; [|auto].
      rewrite obj_set_keys. intros [->|Hin]; [|contradiction].
      now rewrite String.eqb_refl in Hk.
Qed.

Lemma lookup_obj_set_same (o : Obj) (k : string) (v : JSValue) :
  lookup k (obj_set o k v) = Some v.
Proof.
  induction o as [|[k0 v0] o IH]; simpl.
  - now rewrite String.eqb_refl.
  - destruct (String.eqb k0 k) eqn:Hk; simpl; now rewrite Hk.
Qed.

Lemma lookup_obj_set_other (o : Obj) (k k' : string) (v : JSValue) :
  k' <> k -> lookup k' (obj_set o k v) = lookup k' o.
Proof.
  intros Hne. induction o as [|[k0 v0] o IH]; simpl.
  - destruct (String.eqb k k') eqn:Hk; [|reflexivity].
    apply String.eqb_eq in Hk. congruence.
  - destruct (String.eqb k0 k) eqn:Hk; simpl.
    + apply String.eqb_eq in Hk. subst k0.
      destruct (String.eqb k k') eqn:Hk'; [|reflexivity].
      apply String.eqb_eq in Hk'. congruence.
    + now rewrite IH.
Qed.

Lemma lookup_In (o : Obj) (k : string) :
  In k (List.map fst o) <-> lookup k o <> None.
Proof.
  induction o as [|[k0 v0] o IH]; simpl.
  - intuition.
  - destruct (String.eqb k0 k) eqn:Hk.
    + apply String.eqb_eq in Hk. subst. intuition discriminate.
    + apply String.eqb_neq in Hk. rewrite <- IH. intuition.
Qed.

Lemma obj_set_new (o : Obj) (k : string) (v : JSValue) :
  ~ In k (List.map fst o) -> obj_set o k v = (o ++ [(k, v)])%list.
Proof.
  induction o as [|[k0 v0] o IH]; intros Hnot; [reflexivity|].
  cbn [obj_set]. destruct (String.eqb k0 k) eqn:Hk.
  - apply String.eqb_eq in Hk. subst k0. exfalso. apply Hnot. now left.
  - cbn [app]. rewrite IH; [reflexivity|]. intros Hin. apply Hnot. now right.
Qed.

(** *** Rows *)

Lemma assign_keys (o : Obj) (k : string) (v : JSValue) (k' : string) :
  In k' (List.map fst (assign o k v)) <->
  (k' = k /\ k <> "__proto__") \/ In k' (List.map fst o).
Proof.
  unfold assign. destruct (String.eqb k "__proto__") eqn:Hk.
  - apply String.eqb_eq in Hk. intuition congruence.
  - apply String.eqb_neq in Hk. rewrite obj_set_keys. intuition.
Qed.

Lemma assign_NoDup (o : Obj) (k : string) (v : JSValue) :
  NoDup (List.map fst o) -> NoDup (List.map fst (assign o k v)).
Proof.
  unfold assign. destruct (String.eqb k "__proto__"); [auto|apply obj_set_NoDup].
Qed.

Lemma lookup_assign_same (o : Obj) (k : string) (v : JSValue) :
  k <> "__proto__" -> lookup k (assign o k v) = Some v.
Proof.
  intros Hk. unfold assign. apply String.eqb_neq in Hk. rewrite Hk.
  apply lookup_obj_set_same.
Qed.

Lemma lookup_assign_other (o : Obj) (k k' : string) (v : JSValue) :
  k' <> k -> lookup k' (assign o k v) = lookup k' o.
Proof.
  intros Hne. unfold assign. destruct (String.eqb k "__proto__"); [reflexivity|].
  now apply lookup_obj_set_other.
Qed.

Lemma fillRow_keys (hs : list string) (vals : list string) :
  forall (obj : Obj) (i : nat) (k : string),
    In k (List.map fst (fillRow obj hs i vals)) <->
    In k (List.map fst obj) \/ (In k hs /\ k <> "__proto__").
Proof.
  induction hs as [|h hs IH]; intros obj i k; simpl.
  - intuition.
  - rewrite IH, assign_keys. intuition (subst; auto).
Qed.

Lemma fillRow_NoDup (hs : list string) (vals : list string) :
  forall (obj : Obj) (i : nat),
    NoDup (List.map fst obj) -> NoDup (List.map fst (fillRow obj hs i vals)).
Proof.
  induction hs as [|h hs IH]; intros obj i Hnd; simpl; [assumption|].
  apply IH. now apply assign_NoDup.
Qed.

Lemma fillRow_lookup_notin (hs : list string) (vals : list string) :
  forall (obj : Obj) (i : nat) (k : string),
    ~ In k hs -> lookup k (fillRow obj hs i vals) = lookup k obj.
Proof.
  induction hs as [|h hs IH]; intros obj i k Hnotin; simpl; [reflexivity|].
  rewrite IH by (intros Hin; apply Hnotin; now right).
  apply lookup_assign_other. intros ->. apply Hnotin. now left.
Qed.

(** The value stored for a header is taken from the field at the position
    of the header (its last position when the header occurs twice); a line
    that is too short gives the empty string. *)
Lemma fillRow_lookup (hs : list string) (vals : list string) :
  forall (obj : Obj) (i j : nat),
    j < List.length hs ->
    nth j hs EmptyString <> "__proto__" ->
    (forall j', j < j' < List.length hs -> nth j' hs EmptyString <> nth j hs EmptyString) ->
    lookup (nth j hs EmptyString) (fillRow obj hs i vals) =
      Some (VStr (stripQuotes (nth (i + j) vals EmptyString))).
Proof.
  induction hs as [|h hs IH]; intros obj i j Hj Hproto Hlast; simpl in Hj; [lia|].
  destruct j as [|j]; simpl.
  - rewrite fillRow_lookup_notin.
    + rewrite lookup_assign_same by exact Hproto. now rewrite Nat.add_0_r.
    + intros Hin. apply (In_nth _ _ EmptyString) in Hin.
      destruct Hin as (n & Hn & Heq).
      apply (Hlast (S n)); [simpl; lia|exact Heq].
  - replace (i + S j) with (S i + j) by lia.
    apply IH; [lia|exact Hproto|].
    intros j' Hj'. apply (Hlast (S j')). simpl. lia.
Qed.

Lemma stripQuotes_empty : stripQuotes EmptyString = EmptyString.
Proof. reflexivity. Qed.

Lemma rowOfLine_shape (hs : list string) (line : string) :
  NoDup (List.map fst (rowOfLine hs line)) /\
  (forall h, In h (List.map fst (rowOfLine hs line)) <-> In h hs /\ h <> "__proto__").
Proof.
  unfold rowOfLine. split.
  - apply fillRow_NoDup. constructor.
  - intros h. rewrite fillRow_keys. simpl. intuition.
Qed.

(** A table is made of the lines that hold more than white space. *)
Lemma nonBlankLines_filter (text : string) :
  nonBlankLines text =
  List.filter (fun l => negb (String.eqb (trim l) EmptyString)) (split newline text).
Proof. reflexivity. Qed.

(** C8, at the input on which it fails.  A header [__proto__] is parsed as
    a header, but the assignment that fills the rows stores nothing under
    it: the row of the data line has one entry where the table has two
    headers. *)
Theorem proto_header_is_dropped :
  let t := parseCsvToRows ("__proto__,x" ++ String newline "1,2") in
  headers t = ["__proto__"; "x"] /\
  rows t = [[("x", VStr "2")]] /\
  List.map (fun r => List.length r) (rows t) <> [List.length (headers t)].
Proof. vm_compute. repeat split. discriminate. Qed.

(** X22. What [parseCsvToRows] makes of any text.  The lines that count
    are those that hold more than white space; fewer than two give no
    headers and no rows.  Otherwise the headers are the fields of the
    first line and there is one row per further line.  The keys of a row
    are the headers other than [__proto__], each once; the value under a
    header is the field at the position of the header (its last position,
    when the header occurs twice) and the empty string when the line has
    no such field, so that fields beyond the last header are not read. *)
Theorem rows_follow_parsed_headers (text : string) :
  let lines :=
    List.filter (fun l => negb (String.eqb (trim l) EmptyString)) (split newline text) in
  let t := parseCsvToRows text in
  (List.length lines < 2 -> t = mkTable [] []) /\
  (2 <= List.length lines ->
   headers t = List.map stripQuotes (parseLine (nth 0 lines EmptyString)) /\
   List.length (rows t) = List.length lines - 1 /\
   forall i, i < List.length lines - 1 ->
     let row := nth i (rows t) [] in
     let vals := parseLine (nth (S i) lines EmptyString) in
     NoDup (List.map fst row) /\
     (forall h, In h (List.map fst row) <-> In h (headers t) /\ h <> "__proto__") /\
     (forall j,
        j < List.length (headers t) ->
        nth j (headers t) EmptyString <> "__proto__" ->
        (forall j', j < j' < List.length (headers t) ->
           nth j' (headers t) EmptyString <> nth j (headers t) EmptyString) ->
        lookup (nth j (headers t) EmptyString) row =
          Some (VStr (stripQuotes (nth j vals EmptyString))) /\
        (List.length vals <= j ->
         lookup (nth j (headers t) EmptyString) row = Some (VStr EmptyString)))).
Proof.
  intros lines t. subst lines t. rewrite <- nonBlankLines_filter.
  unfold parseCsvToRows.
  destruct (nonBlankLines text) as [|first [|second more]]; cbn [headers rows].
  - split; [reflexivity|]. simpl. lia.
  - split; [reflexivity|]. simpl. lia.
  - split; [simpl; lia|]. intros _. cbn [nth].
    remember (List.map stripQuotes (parseLine first)) as hs eqn:Hhs.
    split; [reflexivity|]. split; [simpl; rewrite length_map; lia|].
    intros i Hi. cbn [List.length] in Hi.
    set (lines := second :: more) in *.
    assert (Hrow : nth i (List.map (rowOfLine hs) lines) [] =
                   rowOfLine hs (nth i lines EmptyString)).
    { rewrite (nth_indep _ [] (rowOfLine hs EmptyString))
        by (rewrite length_map; subst lines; simpl; lia).
      apply map_nth. }
    cbv zeta. rewrite Hrow.
    destruct (rowOfLine_shape hs (nth i lines EmptyString)) as [Hnd Hkeys].
    split; [exact Hnd|]. split; [exact Hkeys|].
    intros j Hj Hproto Hlast. unfold rowOfLine.
    pose proof (fillRow_lookup hs (parseLine (nth i lines EmptyString)) [] 0 j
                  Hj Hproto Hlast) as Hval.
    cbn [Nat.add] in Hval. split; [exact Hval|].
    intros Hshort. rewrite Hval. now rewrite nth_overflow.
Qed.

(** A table with a repeated header, a short line, a blank line and a long
    line. *)
Example table_with_repeated_header :
  parseCsvToRows
    ("id,name,id" ++ String newline
       ("1,Ann" ++ String newline ("  " ++ String newline "2,Bob,3,4"))) =
  mkTable ["id"; "name"; "id"]
          [[("id", VStr EmptyString); ("name", VStr "Ann")];
           [("id", VStr "3"); ("name", VStr "Bob")]].
Proof. vm_compute. reflexivity. Qed.

(** *** Fields *)

Lemma lacks_append (c : ascii) (a b : string) :
  lacks c (a ++ b) = lacks c a && lacks c b.
Proof.
  induction a as [|x a IH]; simpl; [reflexivity|].
  now rewrite IH, andb_assoc.
Qed.

(** Inside quotes every character but the quote is kept, commas included. *)
Lemma parseLineFrom_inside (f : string) :
  forall (rest : string) (result : list string) (cur : string),
    lacks dquote f = true ->
    parseLineFrom (f ++ rest) result cur true = parseLineFrom rest result (cur ++ f) true.
Proof.
  induction f as [|a f IH]; intros rest result cur Hf; simpl.
  - now rewrite append_empty_r.
  - simpl in Hf. apply andb_prop in Hf. destruct Hf as [Ha Hf].
    apply negb_true_iff in Ha. rewrite Ha, andb_false_r.
    rewrite IH by assumption. now rewrite append_assoc.
Qed.

(** *** Lines *)

Lemma split_lacks (sep : ascii) (l : string) :
  lacks sep l = true -> split sep l = [l].
Proof.
  induction l as [|a l IH]; simpl; [reflexivity|].
  intros H. apply andb_prop in H. destruct H as [Ha Hl].
  apply negb_true_iff in Ha. now rewrite Ha, IH.
Qed.

Lemma split_append (sep : ascii) (l rest : string) :
  lacks sep l = true -> split sep (l ++ String sep rest) = l :: split sep rest.
Proof.
  induction l as [|a l IH]; simpl.
  - now rewrite Ascii.eqb_refl.
  - intros H. apply andb_prop in H. destruct H as [Ha Hl].
    apply negb_true_iff in Ha. now rewrite Ha, IH.
Qed.

Lemma split_join (sep : ascii) (lines : list string) :
  lines <> [] ->
  Forall (fun l => lacks sep l = true) lines ->
  split sep (join (String sep EmptyString) lines) = lines.
Proof.
  induction lines as [|l ls IH]; intros Hne Hall; [congruence|].
  inversion Hall as [|? ? Hl Hls]; subst.
  destruct ls as [|l' ls].
  - simpl. now apply split_lacks.
  - change (join (String sep EmptyString) (l :: l' :: ls))
      with (l ++ String sep (join (String sep EmptyString) (l' :: ls)))%string.
    rewrite split_append by assumption.
    now rewrite IH by (auto; discriminate).
Qed.

(** *** Quotes in fields *)

Lemma lacks_trimStart (c : ascii) (s : string) :
  lacks c s = true -> lacks c (trimStart s) = true.
Proof.
  induction s as [|a s IH]; simpl; [reflexivity|].
  intros H. destruct (isWhiteSpace a); [|exact H].
  apply andb_prop in H. now apply IH.
Qed.

Lemma lacks_trimEnd (c : ascii) (s : string) :
  lacks c s = true -> lacks c (trimEnd s) = true.
Proof.
  induction s as [|a s IH]; simpl; [reflexivity|].
  intros H. apply andb_prop in H. destruct H as [Ha Hs]. specialize (IH Hs).
  destruct (trimEnd s).
  - destruct (isWhiteSpace a); simpl; [reflexivity|now rewrite Ha].
  - cbn [lacks] in *. now rewrite Ha, IH.
Qed.

Lemma dropLastQuote_lacks (s : string) :
  lacks dquote s = true -> dropLastQuote s = s.
Proof.
  induction s as [|a s IH]; simpl; [reflexivity|].
  intros H. apply andb_prop in H. destruct H as [Ha Hs].
  apply negb_true_iff in Ha.
  destruct s; [now rewrite Ha|]. now rewrite IH.
Qed.

Lemma stripQuotes_lacks (s : string) :
  lacks dquote s = true -> stripQuotes s = s.
Proof.
  intros H. destruct s as [|a s]; [reflexivity|].
  pose proof H as H'. simpl in H'. apply andb_prop in H'. destruct H' as [Ha _].
  apply negb_true_iff in Ha. unfold stripQuotes. rewrite Ha.
  now apply dropLastQuote_lacks.
Qed.

End CsvFacts.

(** ** The engagement column *)

Module EnrichFacts.
Import JS.

Lemma obj_set_twice (o : Obj) (k : string) (v v' : JSValue) :
  obj_set (obj_set o k v) k v' = obj_set o k v'.
Proof.
  induction o as [|[k0 v0] o IH]; simpl.
  - now rewrite String.eqb_refl.
  - destruct (String.eqb k0 k) eqn:Hk; simpl; rewrite Hk; [reflexivity|now rewrite IH].
Qed.

Lemma field_obj_set_other (o : Obj) (k k' : string) (v : JSValue) :
  k' <> k -> field (obj_set o k v) k' = field o k'.
Proof. intros Hne. unfold field. now rewrite CsvFacts.lookup_obj_set_other. Qed.

Lemma findStr_app (f : string -> bool) (l l' : list string) (x : string) :
  findStr f l = Some x -> findStr f (l ++ l') = Some x.
Proof.
  unfold findStr. induction l as [|a l IH]; simpl; [discriminate|].
  destruct (f a); auto.
Qed.

Lemma includesStr_last (l : list string) (s : string) :
  includesStr (l ++ [s]) s = true.
Proof.
  unfold includesStr. rewrite existsb_app. simpl.
  now rewrite String.eqb_refl, orb_true_r.
Qed.

(** The enrichment of the CSV tools either leaves the table alone or adds
    the column, once. *)
Lemma csv_enrich_cases (t : CsvTools.Table) :
  CsvTools.enrichWithEngagement t = t \/
  exists likeCol viewCol,
    CsvTools.rows t <> [] /\
    findStr (test CsvTools.reLikeCount) (CsvTools.headers t) = Some likeCol /\
    findStr (test CsvTools.reViewCount) (CsvTools.headers t) = Some viewCol /\
    includesStr (CsvTools.headers t) "engagement" = false /\
    CsvTools.enrichWithEngagement t =
      CsvTools.mkTable
        (CsvTools.headers t ++ ["engagement"])
        (List.map (fun r => obj_set r "engagement" (CsvTools.engagementOf r likeCol viewCol))
                  (CsvTools.rows t)).
Proof.
  unfold CsvTools.enrichWithEngagement.
  destruct (CsvTools.rows t) as [|r rs] eqn:Hrows; [now left|].
  destruct (findStr (test CsvTools.reLikeCount) (CsvTools.headers t)) as [likeCol|];
    [|now left].
  destruct (findStr (test CsvTools.reViewCount) (CsvTools.headers t)) as [viewCol|];
    [|now left].
  destruct (includesStr (CsvTools.headers t) "engagement") eqn:Hinc; [now left|].
  right. exists likeCol, viewCol. repeat split; auto. discriminate.
Qed.

Lemma csv_enrich_idempotent (t : CsvTools.Table) :
  CsvTools.enrichWithEngagement (CsvTools.enrichWithEngagement t) =
  CsvTools.enrichWithEngagement t.
Proof.
  destruct (csv_enrich_cases t)
    as [Hsame | (likeCol & viewCol & Hrows & Hlike & Hview & Hinc & Hadd)].
  - now rewrite Hsame.
  - rewrite Hadd. unfold CsvTools.enrichWithEngagement at 1.
    cbn [CsvTools.rows CsvTools.headers].
    destruct (CsvTools.rows t) as [|r rs]; [congruence|].
    cbn [List.map].
    rewrite (findStr_app _ _ _ _ Hlike), (findStr_app _ _ _ _ Hview), includesStr_last.
    reflexivity.
Qed.

Lemma data_engagement_stable (row : Obj) (v : JSValue) :
  DataTools.engagementOf (obj_set row "engagement" v) = DataTools.engagementOf row.
Proof.
  unfold DataTools.engagementOf.
  now rewrite !field_obj_set_other by discriminate.
Qed.

Lemma data_enrich_idempotent (t : DataTools.Table) :
  DataTools.enrichWithEngagement (DataTools.enrichWithEngagement t) =
  DataTools.enrichWithEngagement t.
Proof.
  destruct (DataTools.rows t) as [|r rs] eqn:Hrows.
  - assert (E : DataTools.enrichWithEngagement t = DataTools.mkTable [] []).
    { unfold DataTools.enrichWithEngagement. now rewrite Hrows. }
    now rewrite E.
  - set (add := fun row => obj_set row "engagement" (VNum (DataTools.engagementOf row))).
    set (hs := if includesStr (DataTools.headers t) "engagement"
               then DataTools.headers t
               else (DataTools.headers t ++ ["engagement"])%list).
    assert (E : DataTools.enrichWithEngagement t = DataTools.mkTable hs (List.map add (r :: rs))).
    { unfold DataTools.enrichWithEngagement. now rewrite Hrows. }
    rewrite E. unfold DataTools.enrichWithEngagement.
    cbn [DataTools.rows DataTools.headers List.map]. fold add.
    assert (Hinc : includesStr hs "engagement" = true).
    { subst hs. destruct (includesStr (DataTools.headers t) "engagement") eqn:Hi;
        [exact Hi|apply includesStr_last]. }
    rewrite Hinc. f_equal.
    change (List.map add (List.map add (r :: rs)) = List.map add (r :: rs)).
    rewrite map_map. apply map_ext. intros row. subst add. cbv beta.
    now rewrite data_engagement_stable, obj_set_twice.
Qed.

(** C5, as the code has it, for tables whose cells can be converted to
    strings.  Both versions of [enrichWithEngagement] are idempotent.  The
    one of the CSV tools returns the table as it is when there are no
    rows, when no header matches [likeCount] or none matches [viewCount],
    and when a header is [engagement].  Otherwise it adds the header
    [engagement], once, and gives every row the value [likes / views]
    rounded to six decimal places when both parse as numbers and
    [views > 0], and [null] otherwise. *)
Theorem enrichment_idempotent_and_rounded (t : CsvTools.Table) (t0 : DataTools.Table) :
  Forall (fun r => plainProps (VObj r) = true) (CsvTools.rows t) ->
  Forall (fun r => plainProps (VObj r) = true) (DataTools.rows t0) ->
  CsvTools.enrichWithEngagement (CsvTools.enrichWithEngagement t) =
    CsvTools.enrichWithEngagement t /\
  DataTools.enrichWithEngagement (DataTools.enrichWithEngagement t0) =
    DataTools.enrichWithEngagement t0 /\
  (CsvTools.rows t = [] \/
   findStr (test CsvTools.reLikeCount) (CsvTools.headers t) = None \/
   findStr (test CsvTools.reViewCount) (CsvTools.headers t) = None \/
   includesStr (CsvTools.headers t) "engagement" = true ->
   CsvTools.enrichWithEngagement t = t) /\
  (forall likeCol viewCol,
     CsvTools.rows t <> [] ->
     findStr (test CsvTools.reLikeCount) (CsvTools.headers t) = Some likeCol ->
     findStr (test CsvTools.reViewCount) (CsvTools.headers t) = Some viewCol ->
     includesStr (CsvTools.headers t) "engagement" = false ->
     CsvTools.headers (CsvTools.enrichWithEngagement t) =
       (CsvTools.headers t ++ ["engagement"])%list /\
     CsvTools.rows (CsvTools.enrichWithEngagement t) =
       List.map
         (fun r =>
            let likes := parseFloat (field r likeCol) in
            let views := parseFloat (field r viewCol) in
            obj_set r "engagement"
              (if negb (isNaN likes) && negb (isNaN views) && (0 <? views)%float
               then VNum (StringToNumber (toFixed (likes / views)%float 6))
               else VNull))
         (CsvTools.rows t)).
Proof.
  intros _ _.
  split; [apply csv_enrich_idempotent|].
  split; [apply data_enrich_idempotent|].
  split.
  - unfold CsvTools.enrichWithEngagement.
    intros [Hrows|[Hlike|[Hview|Hinc]]].
    + now rewrite Hrows.
    + rewrite Hlike. now destruct (CsvTools.rows t).
    + rewrite Hview. destruct (CsvTools.rows t); [reflexivity|].
      now destruct (findStr (test CsvTools.reLikeCount) (CsvTools.headers t)).
    + rewrite Hinc. destruct (CsvTools.rows t); [reflexivity|].
      destruct (findStr (test CsvTools.reLikeCount) (CsvTools.headers t)); [|reflexivity].
      now destruct (findStr (test CsvTools.reViewCount) (CsvTools.headers t)).
  - intros likeCol viewCol Hrows Hlike Hview Hinc.
    unfold CsvTools.enrichWithEngagement. rewrite Hlike, Hview, Hinc.
    destruct (CsvTools.rows t) as [|r rs] eqn:Hr; [congruence|].
    split; reflexivity.
Qed.

(** A table with three rows: a rounded quotient, no views, and a view
    count that is not a number; and what the enrichment does not touch. *)
Lemma enrichment_idempotent_and_rounded_witness :
  let hs := ["title"; "viewCount"; "likeCount"] in
  let rs := [[("title", VStr "A"); ("viewCount", VStr "3"); ("likeCount", VStr "1")];
             [("title", VStr "B"); ("viewCount", VStr "0"); ("likeCount", VStr "5")];
             [("title", VStr "C"); ("viewCount", VStr "n/a"); ("likeCount", VStr "2")]] in
  let t := CsvTools.mkTable hs rs in
  CsvTools.headers (CsvTools.enrichWithEngagement t) =
    ["title"; "viewCount"; "likeCount"; "engagement"] /\
  List.map (fun r => field r "engagement") (CsvTools.rows (CsvTools.enrichWithEngagement t)) =
    [VNum 0.333333; VNull; VNull] /\
  CsvTools.enrichWithEngagement (CsvTools.mkTable ["title"; "viewCount"] rs) =
    CsvTools.mkTable ["title"; "viewCount"] rs.
Proof.
  intros hs rs t.
  destruct (enrichment_idempotent_and_rounded t (DataTools.mkTable hs rs))
    as (_ & _ & _ & Hadd); [repeat constructor|repeat constructor|].
  destruct (Hadd "likeCount" "viewCount") as [Hh Hr];
    [discriminate|reflexivity|reflexivity|reflexivity|].
  split; [exact Hh|]. split; [rewrite Hr; vm_compute; reflexivity|].
  destruct (enrichment_idempotent_and_rounded
              (CsvTools.mkTable ["title"; "viewCount"] rs) (DataTools.mkTable hs rs))
    as (_ & _ & Hskip & _); [repeat constructor|repeat constructor|].
  apply Hskip. right. left. reflexivity.
Defined.

(** One like for three views: the stored engagement is 0.333333, not the
    quotient. *)
Lemma engagement_is_rounded :
  let t := CsvTools.mkTable ["title"; "viewCount"; "likeCount"]
             [[("title", VStr "A"); ("viewCount", VStr "3"); ("likeCount", VStr "1")]] in
  List.map (fun r => field r "engagement") (CsvTools.rows (CsvTools.enrichWithEngagement t))
  <> [VNum (1 / 3)%float].
Proof.
  intros t H.
  apply (f_equal (fun l => match l with
                           | [VNum x] => PrimFloat.ltb x (1 / 3)%float
                           | _ => false
                           end)) in H.
  vm_compute in H. discriminate.
Qed.

(** A table with three rows, enriched by both versions: a rounded
    quotient, no views, and a view count that is not a number. *)
Example enrichment_of_three_rows :
  let hs := ["title"; "viewCount"; "likeCount"] in
  let rs := [[("title", VStr "A"); ("viewCount", VStr "3"); ("likeCount", VStr "1")];
             [("title", VStr "B"); ("viewCount", VStr "0"); ("likeCount", VStr "5")];
             [("title", VStr "C"); ("viewCount", VStr "n/a"); ("likeCount", VStr "2")]] in
  List.map (fun r => field r "engagement")
           (CsvTools.rows (CsvTools.enrichWithEngagement (CsvTools.mkTable hs rs))) =
    [VNum 0.333333; VNull; VNull] /\
  List.map (fun r => field r "engagement")
           (DataTools.rows (DataTools.enrichWithEngagement (DataTools.mkTable hs rs))) =
    [VNum (1 / 3); VNum 0; VNum 0].
Proof. split; vm_compute; reflexivity. Qed.

End EnrichFacts.

(** ** Column statistics *)

Module StatsFacts.
Import JS.

Section Stats.

Variable World : Type.
Variable fetchImage : JSValue -> World -> ImageFetch * World.
Variable timeValue : JSValue -> float.

(** C4, for the executor of the CSV tools.  [compute_column_stats] (and
    [compute_stats_json], with [field] for [column]) on rows whose numeric
    values in the resolved column are 1, 2, 3, 4 returns count 4, mean 2.5,
    median 2.5, std 1.118, min 1 and max 4; when no value of the column is a
    number it returns an error object that lists the available columns;
    otherwise mean, median and std are the exact ones passed through
    [toFixed(4)]. *)
Theorem stats_of_one_to_four
    (json : bool) (args context : JSValue) (rowList : list JSValue) (w : World)
    (availableHeaders : list string) (requested col : JSValue) (vals : list float) :
  let toolName := if json then "compute_stats_json" else "compute_column_stats" in
  let label := if json then "field" else "column" in
  match rowList with
  | [] => Normal []
  | row0 :: _ => ObjectKeys row0
  end = Normal availableHeaders ->
  getProp args label = Normal requested ->
  CsvTools.resolveCol rowList requested = Normal col ->
  CsvTools.numericValues rowList col = Normal vals ->
  (vals = [1; 2; 3; 4]%float ->
   CsvTools.executeTool World fetchImage timeValue (VStr toolName) args (VArr rowList) context w =
     (Normal (VObj [(label, col); ("count", VNum 4); ("mean", VNum 2.5);
                    ("median", VNum 2.5); ("std", VNum 1.118);
                    ("min", VNum 1); ("max", VNum 4)]), w)) /\
  (vals = [] ->
   CsvTools.executeTool World fetchImage timeValue (VStr toolName) args (VArr rowList) context w =
     (Normal (VObj [("error",
                     VStr ("No numeric values found in " ++ label ++ " " ++
                           quoted (ToString col) ++ ". Available columns: " ++
                           join ", " availableHeaders))]), w)) /\
  (vals <> [] ->
   let count := ofNat (List.length vals) in
   let mean := (CsvTools.sum vals / count)%float in
   let variance :=
     (fold_left (fun a b => (a + square (b - mean))%float) vals PrimFloat.zero / count)%float in
   CsvTools.executeTool World fetchImage timeValue (VStr toolName) args (VArr rowList) context w =
     (Normal (VObj [(label, col); ("count", VNum count);
                    ("mean", VNum (StringToNumber (toFixed mean 4)));
                    ("median",
                     VNum (StringToNumber
                             (toFixed (CsvTools.median (sortBy (fun a b => (a - b)%float) vals)) 4)));
                    ("std", VNum (StringToNumber (toFixed (PrimFloat.sqrt variance) 4)));
                    ("min", VNum (MathMin vals)); ("max", VNum (MathMax vals))]), w)).
Proof.
  intros toolName label Hkeys Hargs Hcol Hvals.
  assert (Hrun :
    CsvTools.executeTool World fetchImage timeValue (VStr toolName) args (VArr rowList) context w =
    (match vals with
     | [] => Normal (CsvTools.errorResult
                       ("No numeric values found in " ++ label ++ " " ++
                        quoted (ToString col) ++ ". Available columns: " ++
                        CsvTools.availableText availableHeaders))
     | _ => Normal (CsvTools.statsResult label col vals)
     end, w)).
  { unfold CsvTools.executeTool. rewrite Hkeys.
    subst toolName label. destruct json; cbn [isStr String.eqb Ascii.eqb Bool.eqb];
      unfold CsvTools.computeStats; rewrite Hargs; cbn [bind];
      rewrite Hcol; cbn [bind]; rewrite Hvals; cbn [bind]; reflexivity. }
  split; [|split].
  - intros ->. rewrite Hrun. unfold CsvTools.statsResult.
    repeat (f_equal; try (vm_compute; reflexivity)).
  - intros ->. rewrite Hrun. reflexivity.
  - intros Hne. rewrite Hrun. destruct vals; [congruence|reflexivity].
Qed.

End Stats.

(** The score column, asked for in lower case. *)
Lemma stats_of_one_to_four_witness :
  CsvTools.executeTool Demo.World Demo.fetchImage Demo.timeValue
    (VStr "compute_column_stats") (VObj [("column", VStr "score")]) (VArr Demo.scoreRows) VUndefined 0 =
  (Normal (VObj [("column", VStr "Score"); ("count", VNum 4); ("mean", VNum 2.5);
                 ("median", VNum 2.5); ("std", VNum 1.118);
                 ("min", VNum 1); ("max", VNum 4)]), 0).
Proof.
  refine (proj1 (stats_of_one_to_four Demo.World Demo.fetchImage Demo.timeValue
                   false (VObj [("column", VStr "score")]) VUndefined Demo.scoreRows 0
                   ["Score"] (VStr "score") (VStr "Score") [1; 2; 3; 4]%float
                   _ _ _ _) eq_refl); vm_compute; reflexivity.
Defined.

(** The same column without a number in it. *)
Example stats_without_numbers :
  fst (CsvTools.executeTool Demo.World Demo.fetchImage Demo.timeValue
         (VStr "compute_stats_json") (VObj [("field", VStr "title")])
         (VArr [VObj [("title", VStr "A"); ("views", VStr "7")]]) VUndefined 0) =
  Normal (VObj [("error",
                 VStr ("No numeric values found in field " ++ quoted "title" ++
                       ". Available columns: title, views"))]).
Proof. vm_compute. reflexivity. Qed.

(** The executor of the channel data tools rounds to two decimal places:
    on 1, 2, 3, 4 its [compute_stats_json] returns std 1.12. *)
Lemma channel_stats_round_to_two_places :
  bind (fst (DataTools.executeTool Demo.World Demo.fetchImage Demo.timeValue
               (VStr "compute_stats_json") (VObj [("field", VStr "viewCount")])
               (VArr Demo.viewRows) VUndefined 0))
       (fun result => getProp result "std")
  <> Normal (VNum 1.118).
Proof.
  intros H.
  apply (f_equal (fun c => match c with
                           | Normal (VNum x) => PrimFloat.ltb x 1.119
                           | _ => false
                           end)) in H.
  vm_compute in H. discriminate.
Qed.

(** What that executor returns on 1, 2, 3, 4 and on a column without
    numbers: its error names the field only. *)
Example channel_stats_results :
  fst (DataTools.executeTool Demo.World Demo.fetchImage Demo.timeValue
         (VStr "compute_stats_json") (VObj [("field", VStr "viewCount")])
         (VArr Demo.viewRows) VUndefined 0) =
    Normal (VObj [("field", VStr "viewCount"); ("count", VNum 4); ("mean", VNum 2.5);
                  ("median", VNum 2.5); ("std", VNum 1.12);
                  ("min", VNum 1); ("max", VNum 4)]) /\
  fst (DataTools.executeTool Demo.World Demo.fetchImage Demo.timeValue
         (VStr "compute_stats_json") (VObj [("field", VStr "likes")])
         (VArr Demo.viewRows) VUndefined 0) =
    Normal (VObj [("error", VStr "No numeric data for likeCount")]).
Proof. split; vm_compute; reflexivity. Qed.

End StatsFacts.

(** ** Totality of the tool executor *)

Module ExecutorFacts.
Import JS CsvTools.

(** *** Reading properties and iterating *)

Lemma getProp_total (v : JSValue) (k : string) :
  nullish v = false -> exists x, getProp v k = Normal x.
Proof.
  destruct v; simpl; try discriminate; intros _; eauto;
    destruct (String.eqb k "length"); eauto.
Qed.

Lemma getProp_getPropOpt (v : JSValue) (k : string) (x : JSValue) :
  getProp v k = Normal x -> getPropOpt v k = x.
Proof. unfold getPropOpt. now intros ->. Qed.

Lemma mapC_total {A B : Type} (f : A -> Completion B) (l : list A) :
  (forall x, In x l -> exists y, f x = Normal y) ->
  exists ys, mapC f l = Normal ys /\ List.length ys = List.length l.
Proof.
  induction l as [|x l IH]; intros Hf; simpl.
  - now exists [].
  - destruct (Hf x (or_introl eq_refl)) as [y ->].
    destruct IH as (ys & -> & Hlen); [intros z Hz; apply Hf; now right|].
    exists (y :: ys). simpl. now rewrite Hlen.
Qed.

(** A loop whose body cannot fail on the elements of the list, and keeps
    an invariant of the accumulator. *)
Lemma foldC_total {A B : Type} (P : B -> Prop) (f : B -> A -> Completion B) (l : list A) :
  forall acc,
    P acc ->
    (forall b x, P b -> In x l -> exists b', f b x = Normal b' /\ P b') ->
    exists r, foldC f l acc = Normal r /\ P r.
Proof.
  induction l as [|x l IH]; intros acc Hacc Hf; simpl.
  - eauto.
  - destruct (Hf acc x Hacc (or_introl eq_refl)) as (b' & -> & Hb'). simpl.
    apply IH; [assumption|]. intros b z Hb Hz. apply Hf; [assumption|now right].
Qed.

Lemma in_firstn {A : Type} (n : nat) (l : list A) (x : A) :
  In x (firstn n l) -> In x l.
Proof.
  intros Hin. rewrite <- (firstn_skipn n l). apply in_or_app. now left.
Qed.

Lemma notNullish_in (l : list JSValue) (r : JSValue) :
  List.forallb (fun r => negb (nullish r)) l = true -> In r l -> nullish r = false.
Proof.
  intros Hall Hin. rewrite forallb_forall in Hall.
  apply negb_true_iff. now apply Hall.
Qed.

Lemma stringOrFalsy_truthy (v : JSValue) :
  stringOrFalsy v = true -> truthy v = true -> exists s, v = VStr s.
Proof.
  destruct v; simpl; intros H1 H2; try (rewrite H2 in H1; discriminate); eauto; discriminate.
Qed.

(** *** The helpers of the executor *)

Lemma resolveCol_total (rowList : list JSValue) (name : JSValue) :
  List.forallb (fun r => negb (nullish r)) rowList = true ->
  stringOrFalsy name = true ->
  exists col, resolveCol rowList name = Normal col.
Proof.
  intros Hrows Hname. unfold resolveCol.
  destruct rowList as [|row0 rest]; [eauto|].
  destruct (truthy name) eqn:Ht; simpl; [|eauto].
  destruct (stringOrFalsy_truthy name Hname Ht) as [s ->].
  assert (Hrow0 : nullish row0 = false) by (apply (notNullish_in _ _ Hrows); now left).
  assert (Hkeys : exists keys, ObjectKeys row0 = Normal keys).
  { unfold ObjectKeys. destruct row0; try discriminate; eauto. }
  destruct Hkeys as [keys ->]. cbn [bind callToLowerCase].
  destruct (List.existsb (fun k => isStr (VStr s) k) keys); eauto.
Qed.

Lemma numericValues_total (rowList : list JSValue) (col : JSValue) :
  List.forallb (fun r => negb (nullish r)) rowList = true ->
  exists vals, numericValues rowList col = Normal vals.
Proof.
  intros Hrows. unfold numericValues.
  destruct (mapC_total
              (fun r => bind (getProp r (ToString col)) (fun v => Normal (parseFloat v)))
              rowList) as (parsed & -> & _).
  - intros r Hr.
    destruct (getProp_total r (ToString col) (notNullish_in _ _ Hrows Hr)) as [v ->].
    simpl. eauto.
  - simpl. eauto.
Qed.

(** *** The tools, one by one *)

Lemma nameArgument_ok (args : JSValue) (k : string) (x : JSValue) :
  List.forallb (fun k => stringOrFalsy (getPropOpt args k)) nameArguments = true ->
  In k nameArguments ->
  getProp args k = Normal x ->
  stringOrFalsy x = true.
Proof.
  intros Hall Hin Hget. rewrite forallb_forall in Hall.
  specialize (Hall k Hin). now rewrite (getProp_getPropOpt _ _ _ Hget) in Hall.
Qed.

Section Tools.

Variable args : JSValue.
Variable safeRows : list JSValue.
Variable availableHeaders : list string.

Hypothesis Hargs : nullish args = false.
Hypothesis Hnames :
  List.forallb (fun k => stringOrFalsy (getPropOpt args k)) nameArguments = true.
Hypothesis Hrows : List.forallb (fun r => negb (nullish r)) safeRows = true.

Ltac read_argument k x Hx :=
  destruct (getProp_total args k Hargs) as [x Hx]; rewrite Hx; cbn [bind].

Ltac resolve_name k x Hx col :=
  let Hok := fresh "Hok" in
  assert (Hok : stringOrFalsy x = true)
    by (apply (nameArgument_ok args k x Hnames); [cbn; tauto|exact Hx]);
  destruct (resolveCol_total safeRows x Hrows Hok) as [col ->]; cbn [bind].

Lemma computeStats_total (label : string) :
  label = "column" \/ label = "field" ->
  returnsObject (computeStats label safeRows availableHeaders args).
Proof.
  intros Hlabel. unfold computeStats.
  read_argument label requested Hreq.
  assert (Hok : stringOrFalsy requested = true).
  { apply (nameArgument_ok args label requested Hnames); [|exact Hreq].
    destruct Hlabel as [-> | ->]; cbn; tauto. }
  destruct (resolveCol_total safeRows requested Hrows Hok) as [col ->]; cbn [bind].
  destruct (numericValues_total safeRows col Hrows) as [vals ->]; cbn [bind].
  destruct vals; eexists; (split; [reflexivity|]);
    destruct Hlabel as [-> | ->]; reflexivity.
Qed.

Lemma getValueCounts_total : returnsObject (getValueCounts safeRows args).
Proof.
  unfold getValueCounts.
  read_argument "column" requested Hreq.
  resolve_name "column" requested Hreq col.
  read_argument "top_n" top_n Htop.
  destruct (foldC_total (fun _ => True) (countValue col) safeRows []) as (counts & -> & _);
    [exact I| |].
  - intros b r _ Hr. unfold countValue.
    destruct (getProp_total r (ToString col) (notNullish_in _ _ Hrows Hr)) as [v ->].
    cbn [bind]. destruct (negb (isUndefined v) && negb (isStr v EmptyString)); eauto.
  - cbn [bind]. eexists. split; reflexivity.
Qed.

Lemma getTopItems_total : returnsObject (getTopItems safeRows availableHeaders args).
Proof.
  unfold getTopItems.
  read_argument "sort_column" requested Hreq.
  resolve_name "sort_column" requested Hreq resolved.
  read_argument "n" n0 Hn.
  read_argument "ascending" asc0 Hasc.
  match goal with
  | |- context [mapC ?f safeRows] =>
      destruct (mapC_total f safeRows) as (keyed & -> & _)
  end.
  - intros r Hr.
    destruct (getProp_total r (ToString (orElse resolved requested))
                (notNullish_in _ _ Hrows Hr)) as [v ->].
    cbn [bind]. eauto.
  - cbn [bind].
    match goal with
    | |- context [match ?rows with [] => _ | _ :: _ => _ end] => destruct rows
    end; eexists; split; reflexivity.
Qed.

Lemma plotMetricVsTime_total (timeValue : JSValue -> float) :
  returnsObject (plotMetricVsTime timeValue safeRows availableHeaders args).
Proof.
  unfold plotMetricVsTime.
  read_argument "metric" metric0 Hmetric.
  resolve_name "metric" metric0 Hmetric metricCol.
  read_argument "time_column" time0 Htime.
  resolve_name "time_column" time0 Htime timeCol.
  match goal with
  | |- context [mapC ?f safeRows] =>
      destruct (mapC_total f safeRows) as (points & -> & _)
  end.
  - intros r Hr.
    destruct (getProp_total r (ToString timeCol) (notNullish_in _ _ Hrows Hr)) as [t ->].
    destruct (getProp_total r (ToString metricCol) (notNullish_in _ _ Hrows Hr)) as [m ->].
    cbn [bind]. eauto.
  - cbn [bind].
    match goal with
    | |- context [match ?rows with [] => _ | _ :: _ => _ end] => destruct rows
    end; eexists; split; reflexivity.
Qed.

Lemma maxBy_total (col : string) :
  exists best, maxBy col safeRows = Normal best.
Proof.
  unfold maxBy. destruct safeRows as [|first more] eqn:Hsafe; [eauto|].
  destruct (foldC_total (fun b => nullish b = false)
              (fun best r =>
                 bind (getProp best col) (fun bv =>
                 bind (getProp r col) (fun rv =>
                 Normal (if (numOr0 (parseFloat bv) <? numOr0 (parseFloat rv))%float
                         then r else best))))
              more first) as (best & -> & _); eauto.
  - apply (notNullish_in _ _ Hrows). now left.
  - intros b r Hb Hr.
    destruct (getProp_total b col Hb) as [bv ->].
    assert (Hnr : nullish r = false) by (apply (notNullish_in _ _ Hrows); now right).
    destruct (getProp_total r col Hnr) as [rv ->].
    cbn [bind]. destruct (_ <? _)%float; eauto.
Qed.

Lemma searchTitle_total (titleCol titleQuery : string) (l : list JSValue) :
  (forall r, In r l -> nullish r = false) ->
  exists best, searchTitle titleCol titleQuery l = Normal best.
Proof.
  induction l as [|r l IH]; intros Hl; simpl; [eauto|].
  destruct (getProp_total r titleCol (Hl r (or_introl eq_refl))) as [t ->]. cbn [bind].
  destruct (includes _ titleQuery); [eauto|].
  apply IH. intros z Hz. apply Hl. now right.
Qed.

Lemma playVideo_total : returnsObject (playVideo safeRows availableHeaders args).
Proof.
  unfold playVideo.
  read_argument "title" title Htitle.
  assert (Hok : stringOrFalsy title = true)
    by (apply (nameArgument_ok args "title" title Hnames); [cbn; tauto|exact Htitle]).
  assert (Hlow : exists lowered,
            callToLowerCase (orElse title (VStr EmptyString)) = Normal lowered).
  { unfold orElse. destruct (truthy title) eqn:Ht.
    - destruct (stringOrFalsy_truthy title Hok Ht) as [s ->]. simpl. eauto.
    - simpl. eauto. }
  destruct Hlow as [lowered ->]. cbn [bind].
  destruct (findStr (test reTitle) availableHeaders) as [titleCol|];
    [|eexists; split; reflexivity].
  destruct (findStr (test reVideoUrl) availableHeaders) as [urlCol|];
    [|eexists; split; reflexivity].
  assert (Hbest : forall c, exists best, maxBy c safeRows = Normal best)
    by (intros c; apply maxBy_total).
  assert (Hsearch : exists best,
            searchTitle titleCol (trim lowered) safeRows = Normal best)
    by (apply searchTitle_total; intros r Hr; now apply (notNullish_in _ _ Hrows)).
  match goal with
  | |- returnsObject (bind ?pick _) =>
      assert (Hpick : exists best, pick = Normal best)
  end.
  { repeat match goal with
           | |- exists _, (if ?c then _ else _) = _ => destruct c
           | |- exists _, match ?o with Some _ => _ | None => _ end = _ => destruct o
           end; eauto. }
  destruct Hpick as [bestMatch ->]. cbn [bind].
  match goal with
  | |- context [mapC ?f (firstn 3 safeRows)] =>
      destruct (mapC_total f (firstn 3 safeRows)) as (titles & Htitles & _)
  end.
  { intros r Hr. apply getProp_total. apply (notNullish_in _ _ Hrows).
    now apply (in_firstn 3). }
  rewrite Htitles. cbn [bind].
  destruct (negb (truthy bestMatch)); [eexists; split; reflexivity|].
  destruct (negb (truthy (getPropOpt bestMatch titleCol))); [eexists; split; reflexivity|].
  destruct (negb (truthy (getPropOpt bestMatch urlCol))); eexists; split; reflexivity.
Qed.

End Tools.

Section Image.

Variable World : Type.
Variable fetchImage : JSValue -> World -> ImageFetch * World.

Lemma generateImage_total (args context : JSValue) (w : World) :
  nullish args = false -> nullish context = false ->
  exists w', returnsObject (fst (generateImage World fetchImage args context w)) /\
             snd (generateImage World fetchImage args context w) = w'.
Proof.
  intros Hargs Hctx. unfold generateImage.
  destruct (getProp_total args "prompt" Hargs) as [p0 ->].
  destruct (negb (truthy (VStr (trim (ToString (orElse p0 (VStr EmptyString))))))).
  { eexists. split; [eexists; split; reflexivity|reflexivity]. }
  destruct (getProp_total args "anchor_image" Hargs) as [a0 ->].
  assert (Hanchor : exists a1,
            (if truthy a0 then Normal a0 else getProp context "anchorImage") = Normal a1).
  { destruct (truthy a0); [eauto|]. now apply getProp_total. }
  destruct Hanchor as [a1 ->].
  destruct (fetchImage _ w) as [r w'].
  exists w'. split; [|reflexivity]. cbn [fst].
  destruct r as [e|[|] [data|e]]; cbn [negb tryCatch bind];
    try (eexists; split; reflexivity).
  destruct (getProp data "mimeType"); cbn [bind tryCatch]; [|eexists; split; reflexivity].
  destruct (getProp data "data"); cbn [bind tryCatch]; [|eexists; split; reflexivity].
  destruct (getProp data "url"); cbn [bind tryCatch]; [|eexists; split; reflexivity].
  destruct (getProp data "fileName"); cbn [bind tryCatch]; eexists; split; reflexivity.
Qed.

Variable timeValue : JSValue -> float.

Lemma unknown_tool_chain (toolName : JSValue) :
  isKnownTool toolName = false ->
  isStr toolName "compute_column_stats" = false /\
  isStr toolName "get_value_counts" = false /\
  isStr toolName "get_top_items" = false /\
  isStr toolName "generateImage" = false /\
  isStr toolName "plot_metric_vs_time" = false /\
  isStr toolName "play_video" = false /\
  isStr toolName "compute_stats_json" = false.
Proof.
  unfold isKnownTool, knownTools. cbn [List.existsb].
  rewrite !orb_false_iff. tauto.
Qed.

(** C9, as the code has it, for a tool name, argument values and cells
    that can be converted to strings.  For a tool name outside the seven
    known ones [executeTool] returns [{error: "Unknown tool: <name>"}]
    whatever the arguments and the context are, provided the first row, if
    any, is not [undefined] or [null]; a rows value that is not an array
    counts as the empty list.  For every tool name it returns a result
    object, whose [error] if present is a string, and does not throw,
    provided the arguments are an object whose name arguments are strings
    or missing, no row is [undefined] or [null], and the context is not
    [null]. *)
Theorem executeTool_total_on_typed_input
    (toolName args rows context : JSValue) (w : World) :
  stringable toolName = true ->
  (firstRowReadable rows = true -> isKnownTool toolName = false ->
   executeTool World fetchImage timeValue toolName args rows context w =
     (Normal (VObj [("error", VStr ("Unknown tool: " ++ ToString toolName))]), w)) /\
  (wellTypedArgs args = true -> plainProps args = true ->
   wellFormedRows rows = true -> plainRows rows = true -> isNull context = false ->
   returnsObject (fst (executeTool World fetchImage timeValue toolName args rows context w))).
Proof.
  intros _. split.
  - intros Hfirst Hunknown. unfold executeTool.
    destruct (unknown_tool_chain toolName Hunknown) as (H1 & H2 & H3 & H4 & H5 & H6 & H7).
    assert (Hkeys : exists hs,
              match (match rows with VArr l => l | _ => [] end) with
              | [] => Normal []
              | row0 :: _ => ObjectKeys row0
              end = Normal hs).
    { destruct rows as [| | | | | |[|row0 rest]]; eauto.
      simpl in Hfirst. unfold ObjectKeys. destruct row0; try discriminate; eauto. }
    destruct Hkeys as [hs ->].
    now rewrite H1, H2, H3, H4, H5, H6, H7.
  - intros Hargs _ Hrows _ Hctx. unfold wellTypedArgs in Hargs.
    apply andb_prop in Hargs. destruct Hargs as [Hobj Hnames].
    apply negb_true_iff in Hobj.
    set (safeRows := match rows with VArr l => l | _ => [] end).
    assert (Hsafe : List.forallb (fun r => negb (nullish r)) safeRows = true).
    { subst safeRows. destruct rows; try reflexivity. exact Hrows. }
    unfold executeTool. fold safeRows.
    assert (Hkeys : exists hs,
              match safeRows with
              | [] => Normal []
              | row0 :: _ => ObjectKeys row0
              end = Normal hs).
    { destruct safeRows as [|row0 rest]; [eauto|].
      assert (H0 : nullish row0 = false) by (apply (notNullish_in _ _ Hsafe); now left).
      unfold ObjectKeys. destruct row0; try discriminate; eauto. }
    destruct Hkeys as [hs ->].
    destruct (isStr toolName "compute_column_stats");
      [apply computeStats_total; auto|].
    destruct (isStr toolName "get_value_counts");
      [apply getValueCounts_total; auto|].
    destruct (isStr toolName "get_top_items");
      [apply getTopItems_total; auto|].
    destruct (isStr toolName "generateImage").
    { match goal with
      | |- returnsObject (fst (generateImage _ _ _ ?c _)) =>
          destruct (generateImage_total args c w Hobj) as (w' & Hobjres & _)
      end; [now destruct context|exact Hobjres]. }
    destruct (isStr toolName "plot_metric_vs_time");
      [apply plotMetricVsTime_total; auto|].
    destruct (isStr toolName "play_video");
      [apply playVideo_total; auto|].
    destruct (isStr toolName "compute_stats_json");
      [apply computeStats_total; auto|].
    eexists. split; reflexivity.
Qed.

End Image.

(** Two calls on the score rows: a tool that does not exist, and the most
    viewed video of a table without a title column. *)
Lemma executeTool_total_on_typed_input_witness :
  CsvTools.executeTool Demo.World Demo.fetchImage Demo.timeValue
    (VStr "summarize") (VObj []) (VArr Demo.scoreRows) VUndefined 0 =
    (Normal (VObj [("error", VStr "Unknown tool: summarize")]), 0) /\
  returnsObject
    (fst (CsvTools.executeTool Demo.World Demo.fetchImage Demo.timeValue
            (VStr "play_video") (VObj [("title", VStr "most viewed")])
            (VArr Demo.scoreRows) VUndefined 0)).
Proof.
  split.
  - apply (proj1 (executeTool_total_on_typed_input Demo.World Demo.fetchImage Demo.timeValue
                    (VStr "summarize") (VObj []) (VArr Demo.scoreRows) VUndefined 0
                    eq_refl));
      reflexivity.
  - apply (proj2 (executeTool_total_on_typed_input Demo.World Demo.fetchImage Demo.timeValue
                    (VStr "play_video") (VObj [("title", VStr "most viewed")])
                    (VArr Demo.scoreRows) VUndefined 0 eq_refl));
      reflexivity.
Defined.

(** A rows array that starts with [null]: the executor throws before it
    looks at the tool name. *)
Lemma executeTool_throws_on_null_row :
  ~ exists result,
      fst (CsvTools.executeTool Demo.World Demo.fetchImage Demo.timeValue
             (VStr "summarize") (VObj []) (VArr [VNull]) VUndefined 0) = Normal result.
Proof. intros [result H]. vm_compute in H. discriminate. Qed.

(** A title that is a number: [play_video] throws. *)
Example play_video_throws_on_number :
  fst (CsvTools.executeTool Demo.World Demo.fetchImage Demo.timeValue
         (VStr "play_video") (VObj [("title", VNum 5)]) (VArr Demo.scoreRows) VUndefined 0) =
  Throw (TypeError "toLowerCase is not a function").
Proof. vm_compute. reflexivity. Qed.

End ExecutorFacts.

(** ** Generated images and the sanitizer *)

Module ImageFacts.
Import JS.

(** With the executor of the channel data tools the bytes of every
    generated image survive the sanitizer: they are in the property [data]
    of the tool result, and only [inlineData] is removed. *)
Lemma channel_image_bytes_survive
    (World : Type) (fetchImage : JSValue -> World -> ImageFetch * World)
    (args context data : JSValue) (w w' : World) :
  nullish args = false -> nullish context = false -> nullish data = false ->
  fetchImage (VObj [("prompt", orElse (getPropOpt args "prompt") (VStr "A cool image"));
                    ("anchorImage", orElse (getPropOpt context "anchorImage") VNull)]) w =
    (ImageDone true (Normal data), w') ->
  exists result,
    DataTools.generateImage World fetchImage args context w = (Normal result, w') /\
    lookup "data" (Gemini.geminiSafe result) = Some (getPropOpt data "data") /\
    lookup "inlineData" (Gemini.geminiSafe result) = None.
Proof.
  intros Hargs Hctx Hdata Hfetch. unfold DataTools.generateImage.
  destruct (ExecutorFacts.getProp_total args "prompt" Hargs) as [p0 Hp0].
  destruct (ExecutorFacts.getProp_total context "anchorImage" Hctx) as [a0 Ha0].
  rewrite (ExecutorFacts.getProp_getPropOpt _ _ _ Hp0),
          (ExecutorFacts.getProp_getPropOpt _ _ _ Ha0) in Hfetch.
  rewrite Hp0, Ha0, Hfetch. cbn [bind negb].
  destruct (ExecutorFacts.getProp_total data "data" Hdata) as [bytes Hbytes].
  destruct (ExecutorFacts.getProp_total data "mimeType" Hdata) as [mimeType ->].
  destruct (ExecutorFacts.getProp_total data "url" Hdata) as [url ->].
  destruct (ExecutorFacts.getProp_total data "fileName" Hdata) as [fileName ->].
  rewrite Hbytes, (ExecutorFacts.getProp_getPropOpt _ _ _ Hbytes). cbn [bind tryCatch].
  eexists. split; [reflexivity|]. split; [reflexivity|].
  apply GeminiFacts.geminiSafe_strips.
Qed.

End ImageFacts.

(** ** The slim CSV of the CSV tools *)

Module SlimCsvFacts.
Import JS CsvTools CsvExport StringFacts CsvFacts.

Lemma includes_char (c : ascii) (s : string) :
  includes s (String c EmptyString) = negb (lacks c s).
Proof.
  induction s as [|a s IH]; [reflexivity|].
  cbn [includes lacks String.prefix].
  destruct (ascii_dec c a) as [->|Hne].
  - rewrite Ascii.eqb_refl. now destruct s.
  - assert (Ha : Ascii.eqb a c = false) by (apply Ascii.eqb_neq; congruence).
    rewrite Ha. exact IH.
Qed.

Lemma filter_lacks (s : string) :
  lacks dquote s = true -> filterString noQuote s = s.
Proof.
  induction s as [|a s IH]; simpl; [reflexivity|].
  intros H. apply andb_prop in H. destruct H as [Ha Hs].
  unfold noQuote at 1. rewrite Ha. now rewrite IH.
Qed.

Lemma lacks_filter (s : string) : lacks dquote (filterString noQuote s) = true.
Proof.
  induction s as [|a s IH]; simpl; [reflexivity|].
  unfold noQuote at 1. destruct (Ascii.eqb a dquote) eqn:Ha; simpl; [exact IH|].
  now rewrite Ha, IH.
Qed.

(** Outside quotes, a text without quotes and commas goes to the current
    field as it is. *)
Lemma parseLineFrom_plain (f : string) :
  forall (rest : string) (result : list string) (cur : string),
    lacks dquote f = true -> lacks comma f = true ->
    parseLineFrom (f ++ rest) result cur false = parseLineFrom rest result (cur ++ f) false.
Proof.
  induction f as [|a f IH]; intros rest result cur Hq Hc; simpl.
  - now rewrite append_empty_r.
  - simpl in Hq, Hc. apply andb_prop in Hq, Hc.
    destruct Hq as [Ha Hq], Hc as [Hb Hc].
    apply negb_true_iff in Ha, Hb. rewrite Ha, Hb. simpl.
    rewrite IH by assumption. now rewrite append_assoc.
Qed.

(** Inside quotes, a text with its quotes doubled goes to the current
    field without them. *)
Lemma parseLineFrom_doubled (s : string) :
  forall (rest : string) (result : list string) (cur : string),
    parseLineFrom (doubleQuotes s ++ rest) result cur true =
    parseLineFrom rest result (cur ++ filterString noQuote s) true.
Proof.
  induction s as [|a s IH]; intros rest result cur; simpl.
  - now rewrite append_empty_r.
  - unfold noQuote at 1. destruct (Ascii.eqb a dquote) eqn:Ha; simpl.
    + apply IH.
    + rewrite Ha, andb_false_r. rewrite IH. now rewrite append_assoc.
Qed.

(** An escaped cell adds the text of the cell, without its quotes, to the
    current field, and leaves the parser outside quotes. *)
Lemma parseLineFrom_escapeCell (v : JSValue) (rest : string) (result : list string)
    (cur : string) :
  parseLineFrom (escapeCell v ++ rest) result cur false =
  parseLineFrom rest result (cur ++ filterString noQuote (cellText v)) false.
Proof.
  unfold escapeCell. rewrite !includes_char.
  change (lacks ","%char (cellText v)) with (lacks comma (cellText v)).
  destruct (lacks comma (cellText v)) eqn:Hc;
    destruct (lacks dquote (cellText v)) eqn:Hq;
    destruct (lacks newline (cellText v)) eqn:Hn; cbn [negb orb];
    try (unfold quoted; cbn [append parseLineFrom];
         rewrite Ascii.eqb_refl, append_assoc, parseLineFrom_doubled;
         cbn [append parseLineFrom negb]; rewrite Ascii.eqb_refl; reflexivity).
  rewrite parseLineFrom_plain by assumption. now rewrite filter_lacks.
Qed.

Lemma parseLineFrom_cells (cells : list JSValue) :
  forall result,
    cells <> [] ->
    parseLineFrom (join "," (List.map escapeCell cells)) result EmptyString false =
    (result ++ List.map (fun v => unquoted (cellText v)) cells)%list.
Proof.
  induction cells as [|v vs IH]; intros result Hne; [congruence|].
  destruct vs as [|v' vs].
  - cbn [List.map join].
    rewrite <- (append_empty_r (escapeCell v)), parseLineFrom_escapeCell.
    reflexivity.
  - change (join "," (List.map escapeCell (v :: v' :: vs)))
      with (escapeCell v ++ String comma (join "," (List.map escapeCell (v' :: vs))))%string.
    rewrite parseLineFrom_escapeCell. cbn [parseLineFrom].
    change (Ascii.eqb comma dquote) with false. rewrite Ascii.eqb_refl. cbn [andb negb].
    rewrite IH by discriminate. cbn [List.map app]. now rewrite <- app_assoc.
Qed.



(** *** The whole table *)

Lemma mapC_Normal_map {A B : Type} (f : A -> Completion B) (g : A -> B) (l : list A) :
  (forall x y, In x l -> f x = Normal y -> y = g x) ->
  forall ys, mapC f l = Normal ys -> ys = List.map g l.
Proof.
  induction l as [|x l IH]; intros Hfg ys H; simpl in H.
  - now inversion H.
  - destruct (f x) as [y|e] eqn:Hx; [|discriminate]. simpl in H.
    destruct (mapC f l) as [ys'|e] eqn:Hl; [|discriminate]. simpl in H.
    inversion H; subst. simpl. f_equal.
    + apply Hfg with (x := x); [now left|exact Hx].
    + apply IH; [|reflexivity]. intros x' y' Hin. apply Hfg. now right.
Qed.

Lemma slimLine_text (r : JSValue) (l : string) :
  slimLine r = Normal l -> l = slimLineOf r.
Proof.
  unfold slimLine, slimLineOf. intros H.
  destruct (mapC _ slimHeaders) as [cells|e] eqn:Hc; [|discriminate].
  simpl in H. inversion H; subst. f_equal.
  eapply mapC_Normal_map; [|exact Hc].
  intros h y _ Hy. cbv beta in Hy.
  destruct (getProp r h) as [v|e] eqn:Hv; [|discriminate].
  simpl in Hy. inversion Hy; subst.
  unfold getPropOpt. now rewrite Hv.
Qed.

Lemma lacks_doubleQuotes (c : ascii) (s : string) :
  Ascii.eqb dquote c = false -> lacks c (doubleQuotes s) = lacks c s.
Proof.
  intros Hc. induction s as [|a s IH]; simpl; [reflexivity|].
  destruct (Ascii.eqb a dquote) eqn:Ha; cbn [lacks].
  - apply Ascii.eqb_eq in Ha. subst a. now rewrite Hc, IH.
  - now rewrite IH.
Qed.

Lemma escapeCell_lacks_newline (v : JSValue) :
  lacks newline (cellText v) = true -> lacks newline (escapeCell v) = true.
Proof.
  intros H. unfold escapeCell.
  destruct (_ || _); [|exact H].
  unfold quoted. cbn [lacks]. rewrite lacks_append, lacks_doubleQuotes, H by reflexivity.
  reflexivity.
Qed.

Lemma join_lacks (c : ascii) (sep : ascii) (l : list string) :
  Ascii.eqb sep c = false ->
  Forall (fun s => lacks c s = true) l ->
  lacks c (join (String sep EmptyString) l) = true.
Proof.
  intros Hsep. induction l as [|x l IH]; intros Hall; [reflexivity|].
  inversion Hall as [|? ? Hx Hl]; subst.
  destruct l as [|y l]; [exact Hx|].
  change (join (String sep EmptyString) (x :: y :: l))
    with (x ++ String sep (join (String sep EmptyString) (y :: l)))%string.
  rewrite lacks_append, Hx. cbn [lacks andb]. now rewrite Hsep, IH.
Qed.

Lemma slimLineOf_lacks_newline (r : JSValue) :
  (forall h, In h slimHeaders -> lacks newline (slimCell r h) = true) ->
  lacks newline (slimLineOf r) = true.
Proof.
  intros H. unfold slimLineOf. apply (join_lacks newline ","%char); [reflexivity|].
  apply Forall_forall. intros s Hs. apply in_map_iff in Hs.
  destruct Hs as (h & <- & Hh). apply escapeCell_lacks_newline. now apply H.
Qed.

(** A string that holds a character other than white space is not blank. *)
Lemma trimStart_keeps (c : ascii) (s : string) :
  isWhiteSpace c = false -> lacks c (trimStart s) = lacks c s.
Proof.
  intros Hc. induction s as [|a s IH]; simpl; [reflexivity|].
  destruct (isWhiteSpace a) eqn:Ha; [|reflexivity].
  rewrite IH. destruct (Ascii.eqb a c) eqn:Hac; [|reflexivity].
  apply Ascii.eqb_eq in Hac. congruence.
Qed.

Lemma trimEnd_nonblank (c : ascii) (s : string) :
  isWhiteSpace c = false -> lacks c s = false -> trimEnd s <> EmptyString.
Proof.
  intros Hc. induction s as [|a s IH]; simpl; [discriminate|].
  intros H. destruct (Ascii.eqb a c) eqn:Hac.
  - apply Ascii.eqb_eq in Hac. subst a.
    destruct (trimEnd s); [rewrite Hc|]; discriminate.
  - simpl in H. specialize (IH H). destruct (trimEnd s); [congruence|discriminate].
Qed.

Lemma nonblank_with (c : ascii) (s : string) :
  isWhiteSpace c = false -> lacks c s = false -> truthy (VStr (trim s)) = true.
Proof.
  intros Hc H. unfold trim.
  assert (Hne : trimEnd (trimStart s) <> EmptyString).
  { apply (trimEnd_nonblank c); [exact Hc|]. now rewrite trimStart_keeps. }
  cbn [truthy]. destruct (trimEnd (trimStart s)); [congruence|reflexivity].
Qed.

Lemma slimLineOf_nonblank (r : JSValue) : truthy (VStr (trim (slimLineOf r))) = true.
Proof.
  apply (nonblank_with comma); [reflexivity|].
  unfold slimLineOf. cbn [slimHeaders List.map].
  match goal with
  | |- lacks comma (join "," (?x :: ?l)) = false =>
      change (join "," (x :: l)) with (x ++ String comma (join "," l))%string
  end.
  rewrite lacks_append. cbn [lacks]. rewrite Ascii.eqb_refl. cbn. apply andb_false_r.
Qed.

Lemma unquoted_clean (s : string) : stripQuotes (unquoted s) = unquoted s.
Proof.
  apply stripQuotes_lacks. unfold unquoted, trim.
  apply lacks_trimEnd, lacks_trimStart, lacks_filter.
Qed.

Lemma rowOfLine_slimLineOf (r : JSValue) : rowOfLine slimHeaders (slimLineOf r) = slimRow r.
Proof.
  unfold rowOfLine, slimLineOf.
  rewrite <- (List.map_map (fun h => getPropOpt r h) escapeCell).
  unfold parseLine. rewrite parseLineFrom_cells by discriminate.
  cbn [slimHeaders List.map fillRow nth]. unfold slimRow, slimCell, assign.
  cbn -[unquoted stripQuotes cellText getPropOpt].
  now rewrite !unquoted_clean.
Qed.

Lemma nonBlank_all (lines : list string) :
  Forall (fun l => truthy (VStr (trim l)) = true) lines ->
  List.filter (fun l => truthy (VStr (trim l))) lines = lines.
Proof.
  induction 1 as [|l ls Hl _ IH]; [reflexivity|].
  cbn [List.filter]. now rewrite Hl, IH.
Qed.

(** X2. The slim CSV is read back by the parser of the same module: when
    no cell holds a newline, [parseCsvToRows] of the text that
    [buildSlimCsv] returns has the seven slim headers and one row per input
    row, in order, and every value is the text of its cell without double
    quotes, trimmed. *)
Theorem slim_csv_reads_back (rows : list JSValue) (headers : list string) (text : string) :
  rows <> [] -> headers <> [] ->
  buildSlimCsv rows headers = Normal text ->
  (forall r h, In r rows -> In h slimHeaders -> lacks newline (slimCell r h) = true) ->
  parseCsvToRows text = mkTable slimHeaders (List.map slimRow rows).
Proof.
  intros Hrows Hheaders Hbuild Hcells.
  destruct rows as [|r0 rs]; [congruence|]. destruct headers as [|h0 hs]; [congruence|].
  assert (Htext : text = join (String newline EmptyString)
                              (join "," slimHeaders :: List.map slimLineOf (r0 :: rs))).
  { unfold buildSlimCsv in Hbuild.
    destruct (mapC slimLine (r0 :: rs)) as [dataLines|e] eqn:Hlines; [|discriminate].
    assert (Hdata : dataLines = List.map slimLineOf (r0 :: rs)).
    { eapply mapC_Normal_map; [|exact Hlines]. intros r l _. apply slimLine_text. }
    subst dataLines. cbn [bind] in Hbuild. congruence. }
  subst text. clear Hbuild.
  assert (Hsplit :
    nonBlankLines (join (String newline EmptyString)
                        (join "," slimHeaders :: List.map slimLineOf (r0 :: rs)))
    = join "," slimHeaders :: List.map slimLineOf (r0 :: rs)).
  { unfold nonBlankLines. rewrite split_join.
    - apply nonBlank_all. constructor; [reflexivity|].
      apply Forall_forall. intros l Hl. apply in_map_iff in Hl.
      destruct Hl as (r & <- & _). apply slimLineOf_nonblank.
    - discriminate.
    - constructor; [reflexivity|].
      apply Forall_forall. intros l Hl. apply in_map_iff in Hl.
      destruct Hl as (r & <- & Hr). apply slimLineOf_lacks_newline.
      intros h Hh. now apply Hcells. }
  unfold parseCsvToRows. rewrite Hsplit. cbn [List.map].
  change (List.map stripQuotes (parseLine (join "," slimHeaders))) with slimHeaders.
  f_equal. rewrite rowOfLine_slimLineOf. f_equal.
  rewrite List.map_map. apply map_ext. intros r. apply rowOfLine_slimLineOf.
Qed.

(** Two videos; the first title holds a comma and a quoted word. *)
Lemma slim_csv_reads_back_witness :
  let videos :=
    [VObj [("title", VStr ("Light, " ++ quoted "slow" ++ " and fast"));
           ("viewCount", VStr "1200")];
     VObj [("title", VStr "  Waves "); ("likeCount", VNum 7)]] in
  parseCsvToRows
    (match buildSlimCsv videos ["title"] with
     | Normal text => text
     | Throw _ => EmptyString
     end) = mkTable slimHeaders (List.map slimRow videos) /\
  List.map slimRow videos =
    [[("title", VStr "Light, slow and fast"); ("viewCount", VStr "1200");
      ("likeCount", VStr EmptyString); ("commentCount", VStr EmptyString);
      ("duration", VStr EmptyString); ("releaseDate", VStr EmptyString);
      ("videoUrl", VStr EmptyString)];
     [("title", VStr "Waves"); ("viewCount", VStr EmptyString);
      ("likeCount", VStr "7"); ("commentCount", VStr EmptyString);
      ("duration", VStr EmptyString); ("releaseDate", VStr EmptyString);
      ("videoUrl", VStr EmptyString)]].
Proof.
  intros videos. split; [|vm_compute; reflexivity].
  apply (slim_csv_reads_back videos ["title"]).
  - discriminate.
  - discriminate.
  - vm_compute. reflexivity.
  - intros r h [<-|[<-|[]]] Hh;
      repeat (destruct Hh as [<-|Hh]; [vm_compute; reflexivity|]); destruct Hh.
Defined.

End SlimCsvFacts.

(** ** Records with quoted fields *)

Module CsvTextFacts.
Import JS CsvTools CsvExport CsvText StringFacts CsvFacts SlimCsvFacts.














End CsvTextFacts.

(** ** Double quotes in parsed tables *)

Module QuoteFacts.
Import JS CsvTools StringFacts CsvFacts.

Lemma lacks_trim (c : ascii) (s : string) : lacks c s = true -> lacks c (trim s) = true.
Proof. intros H. unfold trim. now apply lacks_trimEnd, lacks_trimStart. Qed.

Lemma parseLineFrom_lacks (line : string) :
  forall (result : list string) (cur : string) (inQuotes : bool),
    Forall (fun f => lacks dquote f = true) result ->
    lacks dquote cur = true ->
    Forall (fun f => lacks dquote f = true) (parseLineFrom line result cur inQuotes).
Proof.
  induction line as [|ch rest IH]; intros result cur q Hres Hcur; simpl.
  - apply Forall_app. split; [exact Hres|].
    constructor; [now apply lacks_trim|constructor].
  - destruct (Ascii.eqb ch dquote) eqn:Hq; [now apply IH|].
    destruct (Ascii.eqb ch comma && negb q).
    + apply IH; [|reflexivity].
      apply Forall_app. split; [exact Hres|].
      constructor; [now apply lacks_trim|constructor].
    + apply IH; [exact Hres|].
      rewrite lacks_append, Hcur. cbn [lacks andb]. now rewrite Hq.
Qed.

Lemma parseLine_lacks (line : string) :
  Forall (fun f => lacks dquote f = true) (parseLine line).
Proof. apply parseLineFrom_lacks; [constructor|reflexivity]. Qed.

Lemma nth_lacks (vals : list string) (j : nat) :
  Forall (fun f => lacks dquote f = true) vals ->
  lacks dquote (nth j vals EmptyString) = true.
Proof.
  intros Hall. destruct (Nat.lt_ge_cases j (List.length vals)) as [Hlt|Hge].
  - rewrite Forall_forall in Hall. apply Hall. now apply nth_In.
  - now rewrite nth_overflow.
Qed.

Lemma obj_set_values (o : Obj) (k : string) (v : JSValue) (kv : string * JSValue) :
  In kv (obj_set o k v) -> snd kv = v \/ In kv o.
Proof.
  induction o as [|[k0 v0] o IH]; simpl.
  - intros [<-|[]]. now left.
  - destruct (String.eqb k0 k); simpl.
    + intros [<-|Hin]; [now left|right; now right].
    + intros [<-|Hin]; [right; now left|].
      destruct (IH Hin) as [H|H]; [now left|right; now right].
Qed.

Lemma fillRow_values (hs : list string) (vals : list string) :
  forall (obj : Obj) (i : nat) (kv : string * JSValue),
    In kv (fillRow obj hs i vals) ->
    In kv obj \/ exists j, snd kv = VStr (stripQuotes (nth j vals EmptyString)).
Proof.
  induction hs as [|h hs IH]; intros obj i kv Hin; simpl in Hin; [now left|].
  destruct (IH _ _ _ Hin) as [Hobj|Hval]; [|now right].
  unfold assign in Hobj. destruct (String.eqb h "__proto__"); [now left|].
  destruct (obj_set_values _ _ _ _ Hobj) as [Hv|Hold]; [right; eauto|now left].
Qed.

(** X3. No field that [parseLine] returns holds a double quote, so the
    quote stripping of [parseCsvToRows] changes nothing; and in a parsed
    table no header and no cell value holds a double quote, however the
    quotes were written in the text. *)
Theorem parsed_tables_have_no_quotes (text : string) :
  (forall line, Forall (fun f => lacks dquote f = true) (parseLine line) /\
                List.map stripQuotes (parseLine line) = parseLine line) /\
  Forall (fun h => lacks dquote h = true) (headers (parseCsvToRows text)) /\
  (forall r k v, In r (rows (parseCsvToRows text)) -> In (k, v) r ->
     exists s, v = VStr s /\ lacks dquote s = true).
Proof.
  assert (Hstrip : forall line, List.map stripQuotes (parseLine line) = parseLine line).
  { intros line. rewrite <- (map_id (parseLine line)) at 2.
    apply map_ext_in. intros f Hf. apply stripQuotes_lacks.
    pose proof (parseLine_lacks line) as Hall. rewrite Forall_forall in Hall. now apply Hall. }
  split; [intros line; split; [apply parseLine_lacks|apply Hstrip]|].
  unfold parseCsvToRows.
  destruct (nonBlankLines text) as [|first [|second more]]; cbn [headers rows];
    try (split; [constructor|intros r k v []]).
  rewrite Hstrip. split; [apply parseLine_lacks|].
  intros r k v Hr Hkv. apply in_map_iff in Hr. destruct Hr as (line & <- & _).
  unfold rowOfLine in Hkv.
  destruct (fillRow_values _ _ _ _ _ Hkv) as [[]|[j Hj]].
  simpl in Hj. subst v. eexists. split; [reflexivity|].
  rewrite stripQuotes_lacks; apply nth_lacks, parseLine_lacks.
Qed.

End QuoteFacts.

(** ** Column lookup *)

Module LookupFacts.
Import JS CsvTools.

Lemma existsb_isStr (name : string) (keys : list string) :
  List.existsb (fun k => isStr (VStr name) k) keys = true <-> In name keys.
Proof.
  rewrite existsb_exists. split.
  - intros (k & Hin & Heq). simpl in Heq. apply String.eqb_eq in Heq. now subst.
  - intros Hin. exists name. split; [exact Hin|]. simpl. apply String.eqb_refl.
Qed.

Lemma truthy_VStr (s : string) : s <> EmptyString -> truthy (VStr s) = true.
Proof. destruct s; [congruence|reflexivity]. Qed.

Lemma resolveCol_key (row0 : JSValue) (more : list JSValue) (k : string)
    (keys : list string) :
  ObjectKeys row0 = Normal keys -> k <> EmptyString -> In k keys ->
  resolveCol (row0 :: more) (VStr k) = Normal (VStr k).
Proof.
  intros Hkeys Hk Hin. unfold resolveCol.
  rewrite (truthy_VStr k Hk), Hkeys. cbn [negb bind].
  apply existsb_isStr in Hin. now rewrite Hin.
Qed.

Lemma resolveCol_cases (row0 : JSValue) (more : list JSValue) (name : string)
    (keys : list string) :
  ObjectKeys row0 = Normal keys ->
  name <> EmptyString ->
  exists k,
    resolveCol (row0 :: more) (VStr name) = Normal (VStr k) /\
    norm k = norm name /\
    (In name keys -> k = name) /\
    (~ In EmptyString keys -> (exists k', In k' keys /\ norm k' = norm name) -> In k keys) /\
    (k = name \/ (In k keys /\ k <> EmptyString)).
Proof.
  intros Hkeys Hname. unfold resolveCol.
  rewrite (truthy_VStr name Hname), Hkeys. cbn [negb bind].
  destruct (List.existsb (fun k => isStr (VStr name) k) keys) eqn:Hex.
  - exists name. apply existsb_isStr in Hex. repeat split; auto.
  - assert (Hnot : ~ In name keys).
    { intros Hin. apply existsb_isStr in Hin. congruence. }
    cbn [callToLowerCase bind]. fold (norm name).
    destruct (List.find (fun k => String.eqb (norm k) (norm name)) keys) as [k|] eqn:Hfind.
    + apply find_some in Hfind. destruct Hfind as [Hin Heq].
      apply String.eqb_eq in Heq.
      destruct k as [|c k'].
      * exists name. cbn [orElse truthy String.eqb negb].
        repeat split; auto; try contradiction.
      * exists (String c k'). cbn [orElse truthy String.eqb negb].
        repeat split; auto; try contradiction.
        right. split; [exact Hin|discriminate].
    + exists name. cbn [orElse truthy].
      repeat split; auto; try contradiction.
      intros _ (k' & Hin & Heq).
      apply (find_none _ _ Hfind) in Hin. apply String.eqb_neq in Hin. contradiction.
Qed.

(** X4. Looking a column name up in the first row: the answer has the same
    normal form as the name (lower case, without white space, underscores
    and hyphens); a name that is a key is its own answer; when no key is the
    empty string and some key has the normal form of the name, the answer
    is a key of the row; and the answer is looked up to itself. *)
Theorem resolveCol_finds_header (row0 : JSValue) (more : list JSValue) (name : string)
    (keys : list string) :
  ObjectKeys row0 = Normal keys ->
  name <> EmptyString ->
  exists k,
    resolveCol (row0 :: more) (VStr name) = Normal (VStr k) /\
    norm k = norm name /\
    (In name keys -> k = name) /\
    (~ In EmptyString keys -> (exists k', In k' keys /\ norm k' = norm name) -> In k keys) /\
    resolveCol (row0 :: more) (VStr k) = Normal (VStr k).
Proof.
  intros Hkeys Hname.
  destruct (resolveCol_cases row0 more name keys Hkeys Hname)
    as (k & Hres & Hnorm & Hexact & Hfound & Hcase).
  exists k. repeat split; auto.
  destruct Hcase as [->|[Hin Hk]]; [exact Hres|].
  now apply (resolveCol_key row0 more k keys).
Qed.

(** A header written with a space and capitals, asked for in snake case. *)
Lemma resolveCol_finds_header_witness :
  resolveCol [VObj [("Title", VStr "Waves"); ("View Count", VStr "12")]]
             (VStr "view_count") = Normal (VStr "View Count").
Proof.
  destruct (resolveCol_finds_header
              (VObj [("Title", VStr "Waves"); ("View Count", VStr "12")]) []
              "view_count" ["Title"; "View Count"] eq_refl ltac:(discriminate))
    as (k & Hres & _).
  rewrite Hres. vm_compute in Hres. exact (eq_sym Hres).
Defined.

End LookupFacts.

(** ** The CSV tools before any data is loaded *)

Module EmptyDataFacts.
Import JS CsvTools ExecutorFacts.

Section Empty.

Variable World : Type.
Variable fetchImage : JSValue -> World -> ImageFetch * World.
Variable timeValue : JSValue -> float.

Let run := executeTool World fetchImage timeValue.

(** X5. Without rows (no array, or an empty one) and with well-typed
    arguments whose values can be converted to strings, the tools that
    compute statistics, rank items, plot a metric or play a video answer
    with an error object and leave the world untouched; [get_value_counts]
    answers with zero rows and no counts. *)
Theorem tools_without_rows (toolName args rows context : JSValue) (w : World) :
  wellTypedArgs args = true ->
  plainProps args = true ->
  (forall l, rows = VArr l -> l = []) ->
  (In toolName (List.map VStr ["compute_column_stats"; "get_top_items";
                               "plot_metric_vs_time"; "play_video";
                               "compute_stats_json"]) ->
   exists msg, run toolName args rows context w = (Normal (errorResult msg), w)) /\
  (toolName = VStr "get_value_counts" ->
   run toolName args rows context w =
     (Normal (VObj [("column", getPropOpt args "column");
                    ("total_rows", VNum 0);
                    ("value_counts", VObj [])]), w)).
Proof.
  intros Hargs _ Hrows. subst run. unfold executeTool.
  assert (Hsafe : match rows with VArr l => l | _ => [] end = []).
  { destruct rows; try reflexivity. now apply Hrows. }
  rewrite Hsafe. clear Hsafe Hrows.
  unfold wellTypedArgs in Hargs. apply andb_prop in Hargs. destruct Hargs as [Hnn Hnames].
  apply negb_true_iff in Hnn.
  assert (Hget : forall k, getProp args k = Normal (getPropOpt args k)).
  { intros k. destruct (getProp_total args k Hnn) as [x Hx].
    now rewrite (getProp_getPropOpt _ _ _ Hx). }
  split.
  - intros Hin. cbn [List.map In] in Hin.
    destruct Hin as [<-|[<-|[<-|[<-|[<-|[]]]]]]; cbn [isStr String.eqb Ascii.eqb Bool.eqb].
    + unfold computeStats. rewrite Hget. cbn. eexists; reflexivity.
    + unfold getTopItems. rewrite !Hget. cbn [bind resolveCol mapC].
      cbn [List.length sortBy]. rewrite firstn_nil. cbn. eexists; reflexivity.
    + unfold plotMetricVsTime. rewrite !Hget. cbn. eexists; reflexivity.
    + unfold playVideo. rewrite Hget. cbn [bind].
      assert (Hok : stringOrFalsy (getPropOpt args "title") = true).
      { rewrite forallb_forall in Hnames. apply Hnames. cbn. tauto. }
      assert (Hstr : exists s, orElse (getPropOpt args "title") (VStr EmptyString) = VStr s).
      { unfold orElse. destruct (truthy (getPropOpt args "title")) eqn:Ht; [|eauto].
        apply (stringOrFalsy_truthy _ Hok Ht). }
      destruct Hstr as [s ->]. cbn. eexists; reflexivity.
    + unfold computeStats. rewrite Hget. cbn. eexists; reflexivity.
  - intros ->. cbn [isStr String.eqb Ascii.eqb Bool.eqb].
    unfold getValueCounts. rewrite !Hget. cbn -[sliceCount ofNat].
    rewrite firstn_nil. reflexivity.
Qed.

End Empty.

(** A request for statistics before a file is attached. *)
Lemma tools_without_rows_witness :
  exists msg,
    CsvTools.executeTool Demo.World Demo.fetchImage Demo.timeValue
      (VStr "compute_column_stats") (VObj [("column", VStr "views")]) VNull VUndefined 0 =
    (Normal (errorResult msg), 0).
Proof.
  refine (proj1 (tools_without_rows Demo.World Demo.fetchImage Demo.timeValue
                   (VStr "compute_column_stats") (VObj [("column", VStr "views")])
                   VNull VUndefined 0 eq_refl eq_refl _) _).
  - intros l H. discriminate H.
  - cbn. tauto.
Defined.

End EmptyDataFacts.


(** ** The function-calling loop: errors, charts and the last round *)

Module LoopFacts.
Import JS Gemini GeminiFacts Traces.

Lemma errorsEndTrace_nil : errorsEndTrace [].
Proof. intros [|ev tr1] name args r tr2 H; discriminate H. Qed.

Lemma errorsEndTrace_last (name args : JSValue) (r : Completion JSValue) (tr : list Event) :
  executions tr = 0 -> errorsEndTrace (EvExec name args r :: tr).
Proof.
  intros Hnone [|ev tr1] name' args' r' tr2 H Hlater; simpl in H.
  - inversion H; subst. lia.
  - inversion H; subst. rewrite executions_app in Hnone. cbn in Hnone.
    unfold executions in *. cbn in Hnone. lia.
Qed.

Lemma errorsEndTrace_step (name args result m : JSValue) (tr : list Event) :
  truthy (field (geminiSafe result) "error") = false ->
  errorsEndTrace tr ->
  errorsEndTrace (EvExec name args (Normal result) :: EvSend m :: tr).
Proof.
  intros Hok Htr [|ev tr1] name' args' r' tr2 H Hlater; simpl in H.
  - inversion H; subst. eauto.
  - inversion H as [[Hev Hrest]]. destruct tr1 as [|ev' tr1]; simpl in Hrest.
    + discriminate Hrest.
    + inversion Hrest as [[Hev' Hrest']]. now apply (Htr tr1 name' args' r' tr2).
Qed.

Lemma errorsEndTrace_prefix (tr0 tr : list Event) :
  executions tr0 = 0 -> errorsEndTrace tr -> errorsEndTrace (tr0 ++ tr).
Proof.
  induction tr0 as [|ev tr0 IH]; intros Hnone Htr; [exact Htr|].
  assert (Hev : isExec ev = false /\ executions tr0 = 0).
  { unfold executions in *. simpl in Hnone. destruct (isExec ev); simpl in Hnone; [lia|auto]. }
  destruct Hev as [Hev Hnone'].
  intros [|ev1 tr1] name args r tr2 H Hlater; simpl in H.
  - inversion H; subst. discriminate Hev.
  - inversion H as [[Hev1 Hrest]]. now apply (IH Hnone' Htr tr1 name args r tr2).
Qed.

Section Loop.

Variable World : Type.
Variable fetchPrompt : World -> PromptFetch * World.
Variable startChat : JSValue -> World -> World.
Variable sendMessage : JSValue -> World -> Completion Response * World.
Variable executeFn : JSValue -> JSValue -> World -> Completion JSValue * World.

Let St := State World.
Let loop := toolLoop World sendMessage executeFn.
Let turn := chatWithCsvTools World fetchPrompt startChat sendMessage executeFn.

Lemma toolLoop_errors (n : nat) :
  forall (ls : LoopState) (st : St),
  exists tr,
    trace World (snd (loop n ls st)) = (trace World st ++ tr)%list /\
    errorsEndTrace tr.
Proof.
  induction n as [|n IH]; intros ls st.
  - exists []. simpl. rewrite app_nil_r. split; [reflexivity|apply errorsEndTrace_nil].
  - subst loop. simpl. unfold bindM, lift, ret.
    destruct (findPart (responseParts (response ls))) as [[part|]|e].
    + unfold doExecute at 1.
      destruct (executeFn _ _ (world World st)) as [[r|e] w] eqn:Hex.
      * unfold doSendMessage at 1. cbn [world trace cachedPrompt].
        destruct (sendMessage _ w) as [[resp|e] w'] eqn:Hsend; cbn [world trace cachedPrompt].
        -- destruct (truthy (field (geminiSafe r) "error")) eqn:Herr.
           ++ eexists. cbn [snd trace]. rewrite <- !app_assoc. split; [reflexivity|].
              now apply errorsEndTrace_last.
           ++ match goal with
              | |- context [Gemini.toolLoop _ _ _ n ?ls' ?st'] =>
                  destruct (IH ls' st') as (tr & Htr & Hok)
              end.
              eexists. split.
              { rewrite Htr. cbn [trace]. rewrite <- !app_assoc. reflexivity. }
              now apply errorsEndTrace_step.
        -- eexists. cbn [snd trace]. rewrite <- !app_assoc. split; [reflexivity|].
           now apply errorsEndTrace_last.
      * eexists. cbn [snd trace]. split; [reflexivity|].
        now apply errorsEndTrace_last.
    + exists []. cbn. rewrite app_nil_r. split; [reflexivity|apply errorsEndTrace_nil].
    + exists []. cbn. rewrite app_nil_r. split; [reflexivity|apply errorsEndTrace_nil].
Qed.

Lemma turn_errors history newMessage imageParts csvHeaders (st : St) :
  exists tr0 h m tr,
    trace World (snd (turn history newMessage imageParts csvHeaders st)) =
      (trace World st ++ tr0 ++ [EvStartChat h; EvSend m] ++ tr)%list /\
    (tr0 = [] \/ tr0 = [EvFetchPrompt]) /\
    errorsEndTrace tr.
Proof.
  subst turn. unfold chatWithCsvTools, bindM.
  destruct (loadSystemPrompt_trace World fetchPrompt st) as (p & st1 & tr0 & -> & Htr0 & Hcase).
  unfold doStartChat at 1. unfold doSendMessage at 1. cbn [world trace cachedPrompt].
  destruct (sendMessage _ _) as [[first|e] w].
  - match goal with
    | |- context [Gemini.toolLoop _ _ _ 5 ?ls ?s] =>
        destruct (toolLoop_errors 5 ls s) as (tr & Htr & Hok);
        unfold loop in Htr;
        destruct (Gemini.toolLoop _ _ _ 5 ls s) as [[final|e] st2]
    end; cbn [snd] in Htr.
    + exists tr0. do 2 eexists. exists tr.
      split; [|auto].
      unfold lift, ret. destruct (text (response final)); cbn [snd];
        rewrite Htr; cbn [trace]; rewrite Htr0, <- !app_assoc; reflexivity.
    + exists tr0. do 2 eexists. exists tr.
      split; [|auto]. cbn [snd]. rewrite Htr. cbn [trace].
      rewrite Htr0, <- !app_assoc. reflexivity.
  - exists tr0. do 2 eexists. exists [].
    split; [|split; [auto|apply errorsEndTrace_nil]].
    cbn [snd trace]. rewrite Htr0, <- !app_assoc. reflexivity.
Qed.

(** X6. In a turn of [chatWithCsvTools], whatever the model and the
    executor do, a tool call that is followed by another tool call neither
    threw nor returned a result with a truthy [error]: the first error
    result, and the first exception, end the tool calls of the turn. *)
Theorem no_tool_runs_after_an_error history newMessage imageParts csvHeaders (st : St) :
  exists tr,
    trace World (snd (turn history newMessage imageParts csvHeaders st)) =
      (trace World st ++ tr)%list /\
    errorsEndTrace tr.
Proof.
  destruct (turn_errors history newMessage imageParts csvHeaders st)
    as (tr0 & h & m & tr & Htr & Hcase & Hok).
  exists (tr0 ++ [EvStartChat h; EvSend m] ++ tr)%list.
  split; [exact Htr|].
  rewrite app_assoc. apply errorsEndTrace_prefix; [|exact Hok].
  rewrite executions_app. destruct Hcase as [-> | ->]; reflexivity.
Qed.

(** *** A model that keeps asking *)

Lemma toolLoop_full (n : nat) :
  (forall parts w, exists r w', sendMessage parts w = (Normal r, w') /\ asksForTool r) ->
  (forall name args w, exists result w',
      executeFn name args w = (Normal result, w') /\
      truthy (field (geminiSafe result) "error") = false) ->
  forall (ls : LoopState) (st : St),
    asksForTool (response ls) ->
    exists ls' st' tr,
      loop n ls st = (Normal ls', st') /\
      trace World st' = (trace World st ++ tr)%list /\
      executions tr = n /\ messagesSent tr = n.
Proof.
  intros Hsend Hexec. induction n as [|n IH]; intros ls st Hasks.
  - exists ls, st, []. simpl. rewrite app_nil_r. auto.
  - subst loop. simpl. unfold bindM, lift, ret.
    destruct Hasks as [part ->].
    unfold doExecute at 1.
    match goal with
    | |- context [executeFn ?name ?args ?w] =>
        destruct (Hexec name args w) as (result & w1 & -> & Herr)
    end.
    unfold doSendMessage at 1. cbn [world trace cachedPrompt].
    match goal with
    | |- context [sendMessage ?parts ?w] =>
        destruct (Hsend parts w) as (resp & w2 & -> & Hasks')
    end.
    cbn [world trace cachedPrompt]. rewrite Herr.
    match goal with
    | |- context [Gemini.toolLoop _ _ _ n ?ls' ?st'] =>
        destruct (IH ls' st' Hasks') as (ls2 & st2 & tr & Hrun & Htr & He & Hm)
    end.
    rewrite Hrun.
    exists ls2, st2. eexists. split; [reflexivity|]. split.
    { rewrite Htr. cbn [trace]. rewrite <- !app_assoc. reflexivity. }
    unfold executions, messagesSent in *. cbn. split; lia.
Qed.

(** X7. The bound of five rounds is reached: with a model that asks for a
    tool in every response, and an executor that returns results without
    an [error], a turn runs the executor exactly five times and sends
    exactly six messages; the tool call in the last response is not run. *)
Theorem greedy_model_gets_five_rounds history newMessage imageParts csvHeaders (st : St) :
  (forall parts w, exists r w', sendMessage parts w = (Normal r, w') /\ asksForTool r) ->
  (forall name args w, exists result w',
      executeFn name args w = (Normal result, w') /\
      truthy (field (geminiSafe result) "error") = false) ->
  exists tr,
    trace World (snd (turn history newMessage imageParts csvHeaders st)) =
      (trace World st ++ tr)%list /\
    executions tr = 5 /\ messagesSent tr = 6.
Proof.
  intros Hsend Hexec.
  subst turn. unfold chatWithCsvTools, bindM.
  destruct (loadSystemPrompt_trace World fetchPrompt st) as (p & st1 & tr0 & -> & Htr0 & Hcase).
  unfold doStartChat at 1. unfold doSendMessage at 1. cbn [world trace cachedPrompt].
  match goal with
  | |- context [sendMessage ?parts ?w] =>
      destruct (Hsend parts w) as (first & w1 & -> & Hasks)
  end.
  match goal with
  | |- context [Gemini.toolLoop _ _ _ 5 ?ls ?s] =>
      destruct (toolLoop_full 5 Hsend Hexec ls s Hasks)
        as (final & st2 & tr & Hrun & Htr & He & Hm)
  end.
  unfold loop in Hrun. rewrite Hrun.
  exists (tr0 ++ [EvStartChat (VArr (chatHistory p history));
                  EvSend (messageParts
                            match csvHeaders with
                            | Some (h :: hs) =>
                                "[Data fields: " ++ join ", " (h :: hs) ++ "]" ++
                                String (ascii_of_N 10) (String (ascii_of_N 10) newMessage)
                            | _ => newMessage
                            end imageParts)] ++ tr)%list.
  split.
  - unfold lift, ret. destruct (text (response final)); cbn [snd];
      rewrite Htr; cbn [trace]; rewrite Htr0, <- !app_assoc; reflexivity.
  - rewrite !executions_app, !messagesSent_app, He, Hm.
    destruct Hcase as [-> | ->]; cbn; split; reflexivity.
Qed.

End Loop.

(** The model of the worked examples that asks for an image in every
    response, with an executor that always succeeds. *)
Lemma greedy_model_gets_five_rounds_witness :
  exists tr,
    trace Demo.World
      (snd (chatWithCsvTools Demo.World Demo.fetchPrompt Demo.startChat
              Demo.sendMessageGreedy (fun _ _ w => (Normal (VObj []), w))
              [] "draw" None None Demo.initial)) = tr /\
    executions tr = 5 /\ messagesSent tr = 6.
Proof.
  destruct (greedy_model_gets_five_rounds Demo.World Demo.fetchPrompt Demo.startChat
              Demo.sendMessageGreedy (fun _ _ w => (Normal (VObj []), w))
              [] "draw" None None Demo.initial) as (tr & Htr & He & Hm).
  - intros parts w. do 2 eexists. split; [reflexivity|].
    eexists. vm_compute. reflexivity.
  - intros name args w. do 2 eexists. split; reflexivity.
  - exists tr. split; [exact Htr|]. split; assumption.
Defined.

End LoopFacts.

(** ** Charts of a function-calling turn *)

Module ChartFacts.
Import JS.

Section Send.

Variable World : Type.
Variable fetchPrompt : World -> Gemini.PromptFetch * World.
Variable startChat : JSValue -> World -> World.
Variable sendMessage : JSValue -> World -> Completion Gemini.Response * World.
Variable executeTool :
  JSValue -> JSValue -> JSValue -> JSValue -> World -> Completion JSValue * World.

(** X8. When a function-calling turn completes, the charts it returns are
    the tool results that carry a truthy [_chartType] or [_playVideo], in
    the order of the calls, and nothing else; the send handler shows them
    on the assistant message and passes them to [saveMessage] ([null] when
    there is none). *)
Theorem charts_are_the_tagged_results
    history prompt images headers rows (st st' : Gemini.State World) res :
  Gemini.chatWithCsvTools World fetchPrompt startChat sendMessage
    (Chat.executeFn World executeTool rows images)
    history prompt (Some images) headers st = (Normal res, st') ->
  exists tr,
    Gemini.trace World st' = (Gemini.trace World st ++ tr)%list /\
    Gemini.res_charts res =
      List.filter (fun result =>
                     truthy (getPropOpt result "_chartType")
                     || truthy (getPropOpt result "_playVideo"))
                  (List.map snd (Gemini.executed tr)) /\
    let '(saved, t, _) :=
      Chat.handleSendTools World fetchPrompt startChat sendMessage executeTool
        history prompt images headers rows st in
    Chat.saved_charts saved = Chat.orNull (Gemini.res_charts res) /\
    Chat.msg_charts (Chat.shown t) =
      match Gemini.res_charts res with [] => None | l => Some l end.
Proof.
  intros Hrun.
  destruct (GeminiFacts.turn_log _ _ _ _ _ _ _ _ _ _ _ _ Hrun)
    as (tr & Htr & _ & Hcharts & _).
  exists tr. split; [exact Htr|]. split.
  - rewrite Hcharts. apply filter_ext. intros result.
    unfold Gemini.isChart, orElse.
    destruct (truthy (getPropOpt result "_chartType")) eqn:Hc; [exact Hc|reflexivity].
  - unfold Chat.handleSendTools. rewrite Hrun. cbn. auto.
Qed.

End Send.

(** The turn of the worked examples: one generated image, one chart. *)
Lemma charts_are_the_tagged_results_witness :
  let run :=
    Gemini.chatWithCsvTools Demo.World Demo.fetchPrompt Demo.startChat Demo.sendMessage
      (Chat.executeFn Demo.World
         (DataTools.executeTool Demo.World Demo.fetchImage Demo.timeValue) VNull [])
      [] "draw a red kite" (Some []) None Demo.initial in
  exists tr,
    Gemini.trace Demo.World (snd run) = tr /\
    List.map (fun c => getPropOpt c "_chartType")
      (List.filter (fun result =>
                      truthy (getPropOpt result "_chartType")
                      || truthy (getPropOpt result "_playVideo"))
                   (List.map snd (Gemini.executed tr))) = [VStr "generatedImage"].
Proof.
  intros run.
  pose (res0 := match fst run with
                | Normal r => r
                | Throw _ => Gemini.mkTurnResult EmptyString [] []
                end).
  assert (Hrun : run = (Normal res0, snd run)) by (vm_compute; reflexivity).
  destruct (charts_are_the_tagged_results Demo.World Demo.fetchPrompt Demo.startChat
              Demo.sendMessage
              (DataTools.executeTool Demo.World Demo.fetchImage Demo.timeValue)
              [] "draw a red kite" [] None VNull Demo.initial (snd run) res0 Hrun)
    as (tr & Htr & Hcharts & _).
  exists tr. split; [exact Htr|].
  rewrite <- Hcharts. vm_compute. reflexivity.
Defined.

End ChartFacts.

(** ** The streaming generator *)

Module StreamChatFacts.
Import JS Chat GeminiStream StringFacts.

Lemma textsOf_cons (p : JSValue) (parts : list JSValue) (t : JSValue) :
  getProp p "text" = Normal t ->
  textsOf (p :: parts) = if truthy t then t :: textsOf parts else textsOf parts.
Proof.
  intros Ht. unfold textsOf. cbn [List.map List.filter].
  assert (Hopt : getPropOpt p "text" = t) by (unfold getPropOpt; now rewrite Ht).
  now rewrite Hopt.
Qed.

(** A generator that has yielded text chunks only. *)
Lemma forG_yieldText (parts : list JSValue) :
  exists ts c,
    forG yieldText parts = (List.map TextChunk ts, c) /\
    (forall u, c = Normal u -> ts = List.map ToString (textsOf parts)).
Proof.
  induction parts as [|p parts IH].
  - exists [], (Normal tt). split; [reflexivity|]. intros _ _. reflexivity.
  - destruct IH as (ts & c & Hrun & Hts).
    cbn [forG]. unfold yieldText at 1, liftG, bindG at 2.
    destruct (getProp p "text") as [t|e] eqn:Ht.
    + rewrite (textsOf_cons p parts t Ht).
      destruct (truthy t) eqn:Htr.
      * exists (ToString t :: ts), c. unfold yield, bindG. rewrite Hrun.
        split; [reflexivity|]. intros u Hu. cbn [List.map]. f_equal. now apply (Hts u).
      * exists ts, c. unfold retG, bindG. rewrite Hrun.
        split; [reflexivity|]. exact Hts.
    + exists [], (Throw e). split; [reflexivity|]. intros u Hu. discriminate Hu.
Qed.

Lemma streamChunk_texts (chunk : JSValue) :
  exists ts c,
    streamChunk chunk = (List.map TextChunk ts, c) /\
    (forall u, c = Normal u -> ts = List.map ToString (textsOf (partsOf chunk))).
Proof.
  unfold streamChunk, partsOf, liftG, bindG at 1.
  destruct (contentParts chunk) as [chunkParts|e].
  - unfold bindG at 1.
    destruct (iterate chunkParts) as [parts|e] eqn:Hit.
    + destruct (forG_yieldText parts) as (ts & c & Hrun & Hts).
      rewrite Hrun. exists ts, c. split; [reflexivity|].
      intros u Hu. rewrite (Hts u Hu).
      destruct chunkParts; try discriminate Hit; simpl in Hit; inversion Hit; subst.
      * (* a string: its characters have no text *)
        clear. induction s as [|a s IH]; [reflexivity|]. exact IH.
      * reflexivity.
    + exists [], (Throw e). split; [reflexivity|]. intros u Hu. discriminate Hu.
  - exists [], (Throw e). split; [reflexivity|]. intros u Hu. discriminate Hu.
Qed.

Lemma forG_streamChunk (chunks : list JSValue) :
  exists ts c,
    forG streamChunk chunks = (List.map TextChunk ts, c) /\
    (forall u, c = Normal u -> ts = chunkTexts chunks).
Proof.
  induction chunks as [|chunk chunks IH].
  - exists [], (Normal tt). split; [reflexivity|]. intros _ _. reflexivity.
  - destruct IH as (ts & c & Hrun & Hts).
    destruct (streamChunk_texts chunk) as (ts0 & c0 & Hrun0 & Hts0).
    cbn [forG]. rewrite Hrun0. unfold bindG.
    destruct c0 as [u0|e].
    + rewrite Hrun. exists (ts0 ++ ts)%list, c. rewrite List.map_app.
      split; [reflexivity|]. intros u Hu.
      unfold chunkTexts. cbn [List.flat_map].
      rewrite (Hts0 u0 eq_refl), (Hts u Hu). reflexivity.
    + exists ts0, (Throw e). split; [reflexivity|]. intros u Hu. discriminate Hu.
Qed.

(** *** After the stream *)

Lemma structured_texts (allParts : list JSValue) :
  forall mapped,
    mapC structuredPart allParts = Normal mapped ->
    List.map (fun p => getPropOpt p "text")
      (List.filter (fun p => isStr (getPropOpt p "type") "text") (List.filter truthy mapped))
    = textsOf allParts.
Proof.
  induction allParts as [|p allParts IH]; intros mapped Hmap.
  - inversion Hmap. reflexivity.
  - cbn [mapC] in Hmap.
    destruct (structuredPart p) as [v|e] eqn:Hv; [|discriminate]. cbn [bind] in Hmap.
    destruct (mapC structuredPart allParts) as [vs|e] eqn:Hvs; [|discriminate].
    cbn [bind] in Hmap. inversion Hmap; subst mapped; clear Hmap.
    specialize (IH vs eq_refl).
    unfold structuredPart in Hv.
    destruct (getProp p "text") as [t|e] eqn:Ht; [|discriminate]. cbn [bind] in Hv.
    rewrite (textsOf_cons p allParts t Ht).
    destruct (truthy t) eqn:Htr.
    + inversion Hv; subst v. cbn. now rewrite IH.
    + destruct (getProp p "executableCode") as [code|e]; [|discriminate]. cbn [bind] in Hv.
      destruct (truthy code); [inversion Hv; subst v; cbn; exact IH|].
      destruct (getProp p "codeExecutionResult") as [res|e]; [|discriminate].
      cbn [bind] in Hv.
      destruct (truthy res); [inversion Hv; subst v; cbn; exact IH|].
      destruct (getProp p "inlineData") as [d|e]; [|discriminate]. cbn [bind] in Hv.
      destruct (truthy d); inversion Hv; subst v; cbn; exact IH.
Qed.

(** What follows the stream either throws before it yields anything, or
    yields the structured parts (when code was executed) and then the
    grounding metadata (when there is some). *)
Lemma afterStream_cases (response : JSValue) :
  (exists e, afterStream response = ([], Throw e)) \/
  (exists allParts hasCode full ground,
     contentParts response = Normal (VArr allParts) /\
     someCodeExecution allParts = Normal hasCode /\
     afterStream response = ((full ++ ground)%list, Normal tt) /\
     (if hasCode
      then exists ps, full = [FullResponse ps] /\ partsText ps = joinedTexts allParts
      else full = []) /\
     (ground = [] \/ exists d, ground = [Grounding d])).
Proof.
  destruct (contentParts response) as [allParts|e] eqn:Hparts.
  2:{ left. exists e. unfold afterStream, liftG, bindG. now rewrite Hparts. }
  destruct (partsArray allParts) as [partList|e] eqn:Harr.
  2:{ left. exists e. unfold afterStream, liftG, bindG. now rewrite Hparts, Harr. }
  assert (Hall : allParts = VArr partList)
    by (destruct allParts; try discriminate Harr; now inversion Harr).
  subst allParts.
  destruct (someCodeExecution partList) as [hasCode|e] eqn:Hsome.
  2:{ left. exists e. unfold afterStream, liftG, bindG. now rewrite Hparts, Harr, Hsome. }
  pose (g := getPropOpt (getPropOpt (getPropOpt response "candidates") "0")
                        "groundingMetadata").
  pose (ground := if truthy g then [Grounding g] else []).
  assert (Hground : ground = [] \/ exists d, ground = [Grounding d]).
  { subst ground. destruct (truthy g); eauto. }
  destruct hasCode.
  - destruct (mapC structuredPart partList) as [mapped|e] eqn:Hmap.
    2:{ left. exists e. unfold afterStream, liftG, bindG.
        now rewrite Hparts, Harr, Hsome, Hmap. }
    right. exists partList, true, [FullResponse (List.filter truthy mapped)], ground.
    split; [reflexivity|]. split; [exact Hsome|]. split; [|split; [|exact Hground]].
    + unfold afterStream, liftG, bindG, yield, retG.
      rewrite Hparts, Harr, Hsome, Hmap. fold g. subst ground.
      destruct (truthy g); reflexivity.
    + eexists. split; [reflexivity|].
      unfold partsText, joinedTexts. now rewrite (structured_texts _ _ Hmap).
  - right. exists partList, false, [], ground.
    split; [reflexivity|]. split; [exact Hsome|]. split; [|split; [reflexivity|exact Hground]].
    unfold afterStream, liftG, bindG, yield, retG.
    rewrite Hparts, Harr, Hsome. fold g. subst ground.
    destruct (truthy g); reflexivity.
Qed.

(** *** The whole generator *)

(** The generator yields text chunks; then it throws, or it goes on with
    what follows the stream. *)
Lemma streamEvents_shape (result : StreamResult) :
  exists ts,
    (exists e, streamEvents result = (List.map TextChunk ts, Throw e)) \/
    (exists response allParts hasCode full ground,
       finalResponse result = Normal response /\
       contentParts response = Normal (VArr allParts) /\
       someCodeExecution allParts = Normal hasCode /\
       ts = chunkTexts (stream result) /\
       streamEvents result = ((List.map TextChunk ts ++ full ++ ground)%list, Normal tt) /\
       (if hasCode
        then exists ps, full = [FullResponse ps] /\ partsText ps = joinedTexts allParts
        else full = []) /\
       (ground = [] \/ exists d, ground = [Grounding d])).
Proof.
  destruct (forG_streamChunk (stream result)) as (ts & c & Hrun & Hts).
  exists ts.
  destruct c as [u|e].
  2:{ left. exists e. unfold streamEvents, bindG. now rewrite Hrun. }
  destruct (streamError result) as [e|] eqn:Herr.
  { left. exists e. unfold streamEvents, bindG, liftG. rewrite Hrun, Herr.
    now rewrite app_nil_r. }
  destruct (finalResponse result) as [response|e] eqn:Hresp.
  2:{ left. exists e. unfold streamEvents, bindG, liftG. rewrite Hrun, Herr, Hresp.
      now rewrite !app_nil_r. }
  destruct (afterStream_cases response)
    as [[e Hafter]|(allParts & hasCode & full & ground & Hparts & Hsome & Hafter & Hfull & Hg)].
  - left. exists e. unfold streamEvents, bindG, liftG. rewrite Hrun, Herr, Hresp, Hafter.
    now rewrite !app_nil_r.
  - right. exists response, allParts, hasCode, full, ground.
    split; [reflexivity|]. split; [exact Hparts|]. split; [exact Hsome|].
    split; [now apply (Hts u)|]. split; [|split; assumption].
    unfold streamEvents, bindG, liftG. rewrite Hrun, Herr, Hresp, Hafter. reflexivity.
Qed.

Lemma deliver_texts (ts : list string) (rest : list StreamEvent) :
  List.map Deliver (List.map TextChunk ts ++ rest) =
  (deliverText ts ++ List.map Deliver rest)%list.
Proof. unfold deliverText. now rewrite List.map_app, List.map_map. Qed.



Section Stream.

Variable World : Type.
Variable fetchPrompt : World -> Gemini.PromptFetch * World.
Variable startChat : JSValue -> World -> World.
Variable sendMessageStream :
  JSValue -> JSValue -> World -> Completion StreamResult * World.

Let run := streamChat World fetchPrompt startChat sendMessageStream.

Lemma streamChat_run history newMessage imageParts useCodeExecution
    (st : Gemini.State World) :
  exists tools parts w,
    fst (run history newMessage imageParts useCodeExecution st) =
      match fst (sendMessageStream tools parts w) with
      | Normal result => streamEvents result
      | Throw e => ([], Throw e)
      end.
Proof.
  subst run. unfold streamChat, Gemini.bindM.
  destruct (GeminiFacts.loadSystemPrompt_trace World fetchPrompt st)
    as (p & st1 & tr0 & -> & _ & _).
  unfold Gemini.doStartChat at 1. unfold doSendMessageStream at 1.
  cbn [Gemini.world Gemini.trace Gemini.cachedPrompt].
  do 3 eexists.
  match goal with
  | |- context [sendMessageStream ?tools ?parts ?w] =>
      instantiate (1 := w); instantiate (1 := parts); instantiate (1 := tools);
      destruct (sendMessageStream tools parts w) as [[result|e] w']
  end; reflexivity.
Qed.

Lemma streamChat_cases history newMessage imageParts useCodeExecution
    (st : Gemini.State World) :
  (exists e, fst (run history newMessage imageParts useCodeExecution st) = ([], Throw e)) \/
  (exists result, fst (run history newMessage imageParts useCodeExecution st) =
                  streamEvents result).
Proof.
  destruct (streamChat_run history newMessage imageParts useCodeExecution st)
    as (tools & parts & w & ->).
  destruct (fst (sendMessageStream tools parts w)) as [result|e]; eauto.
Qed.


End Stream.


(** In that example the saved content is the two texts of the final
    response, not the streamed text. *)
Example streamed_plot_answer :
  saved_content
    (handleSendStreaming
       (inputsOf
          (fst (streamChat Demo.World Demo.fetchPrompt Demo.startChat
                  DemoStream.sendMessageStream [] "plot it" [] false Demo.initial)))) =
  ("Here is the plot." ++ String (ascii_of_N 10) "Done.")%string.
Proof. vm_compute. reflexivity. Qed.

End StreamChatFacts.

(** ** The text of a streamed answer in later turns *)

Module HistoryFacts.
Import JS Chat GeminiStream ChatHistory StreamChatFacts.

Lemma consistent_history (t : Turn) :
  consistent t -> historyContent (shown t) = saved_content (persisted t).
Proof.
  intros [Hparts Hcontent]. unfold historyContent, messageText, persisted.
  cbn [saved_content]. rewrite Hparts.
  destruct (structuredParts t) as [ps|].
  - rewrite Hcontent. reflexivity.
  - rewrite Hcontent. destruct (fullContent t); reflexivity.
Qed.

Lemma consistent_attachGrounding (t : Turn) : consistent t -> consistent (attachGrounding t).
Proof.
  unfold attachGrounding. destruct (groundingData t) as [d|]; [|auto].
  destruct (truthy d); auto.
Qed.

Lemma consistent_pressStop (t : Turn) : consistent t -> consistent (pressStop t).
Proof. auto. Qed.

Lemma consistent_apply (ev : StreamEvent) (t : Turn) :
  consistent t ->
  (isTextChunk ev = true -> structuredParts t = None) ->
  consistent (apply ev t).
Proof.
  intros [Hparts Hcontent] Htext. destruct ev as [txt|ps|d]; unfold consistent; cbn.
  - rewrite (Htext eq_refl) in *. auto.
  - auto.
  - auto.
Qed.

Lemma consistent_caught (t : Turn) (e : JSError) :
  consistent t -> structuredParts t = None -> consistent (caught t e).
Proof.
  intros [Hparts Hcontent] Hnone. unfold consistent, caught. cbn.
  rewrite Hnone in *. auto.
Qed.

(** After the text chunks: the remaining events are no text chunks and
    the generator does not throw. *)
Lemma consume_tail (inputs : list Input) :
  forall (tail : list StreamEvent) (t : Turn),
    withoutStops inputs = List.map Deliver tail ->
    Forall (fun ev => isTextChunk ev = false) tail ->
    consistent t ->
    exists t', consume inputs t = (t', None) /\ consistent t'.
Proof.
  induction inputs as [|[ev| |e] inputs IH]; intros tail t Hin Htail Ht; cbn [consume].
  - eauto.
  - cbn in Hin. destruct tail as [|ev' tail]; [discriminate Hin|].
    inversion Hin; subst ev'. inversion Htail as [|? ? Hev Htail']; subst.
    destruct (abortRef t); [eauto|].
    apply (IH tail); auto. apply consistent_apply; [exact Ht|].
    intros Hx. congruence.
  - apply (IH tail); auto.
  - cbn in Hin. destruct tail; discriminate Hin.
Qed.

(** While the text chunks arrive. *)
Lemma consume_texts (inputs : list Input) :
  forall (ts : list string) (rest : list Input) (t : Turn),
    withoutStops inputs = (deliverText ts ++ rest)%list ->
    ((exists e, rest = [Fails e]) \/
     (exists tail, rest = List.map Deliver tail /\
                   Forall (fun ev => isTextChunk ev = false) tail)) ->
    consistent t -> structuredParts t = None ->
    exists t' failure,
      consume inputs t = (t', failure) /\ consistent t' /\
      (failure <> None -> structuredParts t' = None).
Proof.
  induction inputs as [|[ev| |e] inputs IH]; intros ts rest t Hin Hrest Ht Hnone;
    cbn [consume].
  - exists t, None. split; [reflexivity|]. split; [exact Ht|]. congruence.
  - cbn in Hin. destruct ts as [|c ts].
    + cbn in Hin. destruct Hrest as [[e ->]|(tail & -> & Htail)]; [discriminate Hin|].
      destruct tail as [|ev' tail]; [discriminate Hin|].
      cbn in Hin. inversion Hin as [[Hev Hin']]. subst ev'.
      inversion Htail as [|? ? Hev Htail']; subst.
      destruct (abortRef t).
      * exists t, None. split; [reflexivity|]. split; [exact Ht|]. congruence.
      * destruct (consume_tail inputs tail (apply ev t) Hin' Htail') as (t' & Hrun & Ht').
        { apply consistent_apply; [exact Ht|]. intros Hx. congruence. }
        exists t', None. rewrite Hrun. split; [reflexivity|]. split; [exact Ht'|]. congruence.
    + cbn in Hin. inversion Hin as [[Hev Hin']]. subst ev.
      destruct (abortRef t).
      * exists t, None. split; [reflexivity|]. split; [exact Ht|]. congruence.
      * apply (IH ts rest); auto.
        apply consistent_apply; [exact Ht|auto].
  - cbn in Hin. apply (IH ts rest); auto.
  - exists t, (Some e). split; [reflexivity|]. split; [exact Ht|]. auto.
Qed.

Section Stream.

Variable World : Type.
Variable fetchPrompt : World -> Gemini.PromptFetch * World.
Variable startChat : JSValue -> World -> World.
Variable sendMessageStream :
  JSValue -> JSValue -> World -> Completion StreamResult * World.

(** X10. Whatever [streamChat] yields and whenever the stop button is
    pressed, the text that later turns put in the history for the answer
    ([m.content || messageText(m)] of the displayed message) is the content
    that was saved for it. *)
Theorem history_text_is_saved_text history newMessage imageParts useCodeExecution
    (st : Gemini.State World) (inputs : list Input) :
  withoutStops inputs =
    inputsOf (fst (streamChat World fetchPrompt startChat sendMessageStream
                     history newMessage imageParts useCodeExecution st)) ->
  historyContent (shown (respondStreaming inputs)) =
  saved_content (handleSendStreaming inputs).
Proof.
  intros Hin. unfold handleSendStreaming. apply consistent_history.
  assert (Hshape : exists ts rest,
            withoutStops inputs = (deliverText ts ++ rest)%list /\
            ((exists e, rest = [Fails e]) \/
             (exists tail, rest = List.map Deliver tail /\
                           Forall (fun ev => isTextChunk ev = false) tail))).
  { rewrite Hin. clear Hin.
    destruct (streamChat_cases World fetchPrompt startChat sendMessageStream
                history newMessage imageParts useCodeExecution st)
      as [[e ->]|[result ->]].
    - exists [], [Fails e]. split; [reflexivity|]. left. eauto.
    - destruct (streamEvents_shape result)
        as (ts & [[e ->]|(response & allParts & hasCode & full & ground &
                          _ & _ & _ & _ & -> & Hfull & Hground)]).
      + exists ts, [Fails e]. split; [|left; eauto].
        unfold inputsOf. cbn [fst snd]. unfold deliverText. now rewrite List.map_map.
      + exists ts, (List.map Deliver (full ++ ground)). split.
        * unfold inputsOf. cbn [fst snd]. rewrite app_nil_r. apply deliver_texts.
        * right. exists (full ++ ground)%list. split; [reflexivity|].
          apply Forall_app. split.
          -- destruct hasCode; [destruct Hfull as (ps & -> & _)|subst full];
               repeat constructor.
          -- destruct Hground as [->|[d ->]]; repeat constructor. }
  destruct Hshape as (ts & rest & Hts & Hrest).
  unfold respondStreaming.
  destruct (consume_texts inputs ts rest start Hts Hrest) as (t' & failure & -> & Ht' & Hfail).
  { split; reflexivity. }
  { reflexivity. }
  apply consistent_attachGrounding.
  destruct failure as [e|]; [|exact Ht'].
  apply consistent_caught; [exact Ht'|]. apply Hfail. discriminate.
Qed.

End Stream.

(** The stream of the worked examples, stopped after the first chunk. *)
Lemma history_text_is_saved_text_witness :
  let inputs :=
    [Deliver (TextChunk "Here is "); Stop; Deliver (TextChunk "the plot.");
     Deliver (FullResponse
                [VObj [("type", VStr "text"); ("text", VStr "Here is the plot.")];
                 VObj [("type", VStr "code"); ("language", VStr "PYTHON");
                       ("code", VStr "plot()")];
                 VObj [("type", VStr "result"); ("outcome", VStr "OUTCOME_OK");
                       ("output", VStr "done")];
                 VObj [("type", VStr "image"); ("mimeType", VStr "image/png");
                       ("data", VStr "iVBORw0KGgo=")];
                 VObj [("type", VStr "text"); ("text", VStr "Done.")]])] in
  historyContent (shown (respondStreaming inputs)) = "Here is " /\
  saved_content (handleSendStreaming inputs) = "Here is ".
Proof.
  intros inputs.
  pose proof (history_text_is_saved_text Demo.World Demo.fetchPrompt Demo.startChat
                DemoStream.sendMessageStream [] "plot it" [] false Demo.initial inputs
                eq_refl) as H.
  split; [rewrite H|]; vm_compute; reflexivity.
Defined.

End HistoryFacts.

(** ** Sorting *)

Module SortFacts.
Import JS.

Lemma insertBy_In {A : Type} (cmp : A -> A -> float) (x y : A) (l : list A) :
  In y (insertBy cmp x l) <-> y = x \/ In y l.
Proof.
  induction l as [|z l IH]; simpl.
  - intuition.
  - destruct (0 <? cmp x z)%float; simpl; rewrite ?IH; intuition.
Qed.

(** A sorted array holds the elements of the array, no more and no less. *)
Lemma sortBy_In {A : Type} (cmp : A -> A -> float) (y : A) (l : list A) :
  In y (sortBy cmp l) <-> In y l.
Proof.
  induction l as [|x l IH]; simpl; [tauto|].
  rewrite insertBy_In, IH. intuition.
Qed.

Lemma insertBy_length {A : Type} (cmp : A -> A -> float) (x : A) (l : list A) :
  List.length (insertBy cmp x l) = S (List.length l).
Proof.
  induction l as [|z l IH]; simpl; [reflexivity|].
  destruct (0 <? cmp x z)%float; simpl; now rewrite ?IH.
Qed.

Lemma sortBy_length {A : Type} (cmp : A -> A -> float) (l : list A) :
  List.length (sortBy cmp l) = List.length l.
Proof.
  induction l as [|x l IH]; simpl; [reflexivity|].
  now rewrite insertBy_length, IH.
Qed.

Lemma sortBy_nil {A : Type} (cmp : A -> A -> float) (l : list A) :
  sortBy cmp l = [] -> l = [].
Proof.
  intros H. apply (f_equal (@List.length A)) in H. rewrite sortBy_length in H.
  now destruct l.
Qed.

Lemma insertBy_Permutation {A : Type} (cmp : A -> A -> float) (x : A) (l : list A) :
  Permutation (insertBy cmp x l) (x :: l).
Proof.
  induction l as [|y l IH]; simpl; [apply Permutation_refl|].
  destruct (0 <? cmp x y)%float; [|apply Permutation_refl].
  apply Permutation_trans with (y :: x :: l); [now apply perm_skip|apply perm_swap].
Qed.

(** Sorting rearranges the array. *)
Lemma sortBy_Permutation {A : Type} (cmp : A -> A -> float) (l : list A) :
  Permutation (sortBy cmp l) l.
Proof.
  induction l as [|x l IH]; simpl; [apply Permutation_refl|].
  apply Permutation_trans with (x :: sortBy cmp l);
    [apply insertBy_Permutation|now apply perm_skip].
Qed.

Lemma insertBy_map {A B : Type} (f : A -> B) (cmp : B -> B -> float) (x : A) (l : list A) :
  insertBy cmp (f x) (List.map f l) =
  List.map f (insertBy (fun a b => cmp (f a) (f b)) x l).
Proof.
  induction l as [|y l IH]; simpl; [reflexivity|].
  destruct (0 <? cmp (f x) (f y))%float; simpl; [now rewrite IH|reflexivity].
Qed.

(** Sorting the images is sorting by the images. *)
Lemma sortBy_map {A B : Type} (f : A -> B) (cmp : B -> B -> float) (l : list A) :
  sortBy cmp (List.map f l) = List.map f (sortBy (fun a b => cmp (f a) (f b)) l).
Proof.
  induction l as [|x l IH]; simpl; [reflexivity|].
  now rewrite IH, insertBy_map.
Qed.

End SortFacts.

(** ** The executor of the channel data tools *)

Module DataExecutorFacts.
Import JS DataTools DataPrep ExecutorFacts SortFacts.

Lemma readable_in (l : list JSValue) (r : JSValue) :
  readableRows (VArr l) = true -> In r l ->
  nullish r = false /\
  CsvTools.stringOrFalsy (getPropOpt r "title") = true /\
  CsvTools.stringOrFalsy (getPropOpt r "releaseDate") = true.
Proof.
  intros Hall Hin. cbn [readableRows] in Hall. rewrite forallb_forall in Hall.
  specialize (Hall r Hin). apply andb_prop in Hall. destruct Hall as [Hall Hd].
  apply andb_prop in Hall. destruct Hall as [Hn Ht].
  apply negb_true_iff in Hn. auto.
Qed.

Lemma getProp_read (v : JSValue) (k : string) :
  nullish v = false -> getProp v k = Normal (getPropOpt v k).
Proof.
  intros Hn. destruct (getProp_total v k Hn) as [x Hx].
  now rewrite (getProp_getPropOpt _ _ _ Hx).
Qed.

Section Tools.

Variable args : JSValue.
Variable rowList : list JSValue.

Hypothesis Hargs : nullish args = false.
Hypothesis Hrows : readableRows (VArr rowList) = true.

Lemma channel_plotMetricVsTime_total (timeValue : JSValue -> float) :
  exists o, plotMetricVsTime timeValue args (VArr rowList) = Normal (VObj o).
Proof.
  unfold plotMetricVsTime. rewrite (getProp_read args "metric" Hargs). cbn [bind asArray].
  set (plotMetric := canonicalMetric _).
  destruct (mapC_total
              (fun r => bind (getProp r plotMetric) (fun m =>
                        if isUndefined m then Normal []
                        else bind (getProp r "releaseDate") (fun d =>
                             Normal (if truthy d then [r] else []))))
              rowList) as (kept & Hkept & _).
  { intros r Hr. destruct (readable_in rowList r Hrows Hr) as (Hn & _ & _).
    rewrite !(getProp_read r _ Hn). cbn [bind].
    destruct (isUndefined _); cbn [bind]; eauto. }
  rewrite Hkept. cbn [bind].
  assert (Hin : forall r, In r (List.concat kept) ->
                  In r rowList /\ truthy (getPropOpt r "releaseDate") = true).
  { clear - Hkept Hrows. revert kept Hkept.
    induction rowList as [|r0 l IH]; intros kept Hkept r Hr.
    - inversion Hkept; subst. destruct Hr.
    - cbn [mapC] in Hkept.
      destruct (bind (getProp r0 plotMetric) _) as [k0|e] eqn:H0; [|discriminate].
      cbn [bind] in Hkept.
      destruct (mapC _ l) as [ks|e] eqn:Hl; [|discriminate].
      cbn [bind] in Hkept. inversion Hkept; subst kept; clear Hkept.
      cbn [List.concat] in Hr. apply in_app_or in Hr. destruct Hr as [Hr|Hr].
      + destruct (getProp r0 plotMetric) as [m|e]; [|discriminate]. cbn [bind] in H0.
        destruct (isUndefined m); [inversion H0; subst; destruct Hr|].
        destruct (getProp r0 "releaseDate") as [d|e] eqn:Hd; [|discriminate].
        cbn [bind] in H0. inversion H0; subst k0; clear H0.
        destruct (truthy d) eqn:Htd; [|destruct Hr].
        destruct Hr as [<-|[]]. split; [now left|].
        now rewrite (getProp_getPropOpt _ _ _ Hd).
      + assert (Hrows' : readableRows (VArr l) = true).
        { cbn [readableRows forallb] in Hrows. apply andb_prop in Hrows. tauto. }
        destruct (IH Hrows' ks eq_refl r Hr) as [Hin Ht]. split; [now right|exact Ht]. }
  assert (Hpts : exists points,
            mapC (fun r =>
                    let releaseDate := getPropOpt r "releaseDate" in
                    bind (datePart releaseDate) (fun dateStr =>
                    Normal (timeValue releaseDate, dateStr, getPropOpt r "title",
                            numOr0 (parseFloat (getPropOpt r plotMetric)))))
                 (List.concat kept) = Normal points).
  { match goal with
    | |- exists points, mapC ?f ?l = Normal points =>
        destruct (mapC_total f l) as (points & Hpoints & _); [|eauto]
    end.
    intros r Hr. destruct (Hin r Hr) as [Hrl Ht].
    destruct (readable_in rowList r Hrows Hrl) as (_ & _ & Hd).
    destruct (stringOrFalsy_truthy _ Hd Ht) as [s Hs].
    cbv zeta. rewrite Hs. cbn [datePart bind]. eauto. }
  destruct Hpts as [points Hpoints]. cbv zeta in Hpoints.
  cbv zeta. rewrite Hpoints. cbn [bind].
  destruct (sortBy _ points); unfold errorResult; eexists; reflexivity.
Qed.

Lemma findByTitle_total (searchTitle : string) (l : list JSValue) :
  (forall r, In r l -> In r rowList) ->
  exists found, findByTitle searchTitle l = Normal found /\
                (found = VUndefined \/ In found l).
Proof.
  induction l as [|r l IH]; intros Hsub; cbn [findByTitle].
  - eauto.
  - destruct (readable_in rowList r Hrows (Hsub r (or_introl eq_refl))) as (Hn & Ht & _).
    rewrite (getProp_read r "title" Hn). cbn [bind].
    destruct IH as (found & Hfound & Hcase); [intros x Hx; apply Hsub; now right|].
    destruct (truthy (getPropOpt r "title")) eqn:Htr.
    + destruct (stringOrFalsy_truthy _ Ht Htr) as [s ->]. cbn [callToLowerCase bind].
      destruct (includes _ _).
      * exists r. split; [reflexivity|right; now left].
      * exists found. split; [exact Hfound|]. destruct Hcase; [now left|right; now right].
    + exists found. split; [exact Hfound|]. destruct Hcase; [now left|right; now right].
Qed.

Lemma channel_playVideo_total : exists o, playVideo args (VArr rowList) = Normal (VObj o).
Proof.
  unfold playVideo. rewrite (getProp_read args "title" Hargs). cbn [bind asArray].
  destruct (findByTitle_total (loweredOr (getPropOpt args "title") EmptyString) rowList)
    as (found & -> & _); [auto|].
  cbn [bind]. destruct (negb _); unfold errorResult; eexists; reflexivity.
Qed.

Lemma channel_computeStatsJson_total : exists o, computeStatsJson args (VArr rowList) = Normal (VObj o).
Proof.
  unfold computeStatsJson. rewrite (getProp_read args "field" Hargs). cbn [bind asArray].
  set (statField := canonicalMetric _).
  destruct (mapC_total
              (fun r => bind (getProp r statField) (fun v => Normal (parseFloat v)))
              rowList) as (parsed & -> & _).
  { intros r Hr. destruct (readable_in rowList r Hrows Hr) as (Hn & _ & _).
    rewrite (getProp_read r _ Hn). cbn [bind]. eauto. }
  cbn [bind]. destruct (List.filter _ parsed); unfold errorResult; eexists; reflexivity.
Qed.

End Tools.

Section Image.

Variable World : Type.
Variable fetchImage : JSValue -> World -> ImageFetch * World.
Variable timeValue : JSValue -> float.

Lemma channel_generateImage_total (args context : JSValue) (w : World) :
  exists o w', generateImage World fetchImage args context w = (Normal (VObj o), w').
Proof.
  unfold generateImage.
  destruct (getProp args "prompt") as [p0|e]; [|unfold errorResult; eauto].
  destruct (getProp context "anchorImage") as [a0|e]; [|unfold errorResult; eauto].
  destruct (fetchImage _ w) as [[e|ok [data|e]] w']; cbn [bind tryCatch];
    try (unfold errorResult; eauto; fail).
  destruct ok; cbn [negb].
  - destruct (getProp data "data") as [x1|e]; cbn [bind tryCatch];
      [|unfold errorResult; eauto].
    destruct (getProp data "mimeType") as [x2|e]; cbn [bind tryCatch];
      [|unfold errorResult; eauto].
    destruct (getProp data "url") as [x3|e]; cbn [bind tryCatch];
      [|unfold errorResult; eauto].
    destruct (getProp data "fileName") as [x4|e]; cbn [bind tryCatch];
      [|unfold errorResult; eauto].
    eauto.
  - destruct (getProp data "error") as [msg|e]; cbn [bind tryCatch];
      unfold errorResult; eauto.
Qed.

(** X11. The executor of the channel data tools never throws, and always
    answers with an object, when the tool name, the values of the
    arguments and the cells of the rows can be converted to strings, the
    arguments are an object and the rows are an array of values with
    properties whose [title] and [releaseDate] are strings or falsy;
    [generateImage] does so whatever it is given. *)
Theorem channel_tools_never_throw (name args rows context : JSValue) (w : World) :
  (stringable name = true /\ nullish args = false /\ plainProps args = true /\
   readableRows rows = true /\ plainRows rows = true) \/
  name = VStr "generateImage" ->
  exists o w',
    executeTool World fetchImage timeValue name args rows context w = (Normal (VObj o), w').
Proof.
  intros Hcase. unfold executeTool.
  destruct (isStr name "generateImage") eqn:Himg; [apply channel_generateImage_total|].
  destruct Hcase as [(_ & Hargs & _ & Hrows & _)|Hname]; [|subst name; discriminate Himg].
  assert (Harr : exists l, rows = VArr l) by (destruct rows; try discriminate Hrows; eauto).
  destruct Harr as [l ->].
  destruct (isStr name "plot_metric_vs_time").
  { destruct (channel_plotMetricVsTime_total args l Hargs Hrows timeValue) as [o ->]. eauto. }
  destruct (isStr name "play_video").
  { destruct (channel_playVideo_total args l Hargs Hrows) as [o ->]. eauto. }
  destruct (isStr name "compute_stats_json").
  { destruct (channel_computeStatsJson_total args l Hargs Hrows) as [o ->]. eauto. }
  unfold errorResult. eauto.
Qed.

End Image.

(** A request to play a video on rows without titles. *)
Lemma channel_tools_never_throw_witness :
  exists o w',
    executeTool Demo.World Demo.fetchImage Demo.timeValue
      (VStr "play_video") (VObj [("title", VNum 3)])
      (VArr [VObj [("viewCount", VStr "12")]; VStr "stray"]) VUndefined 0 =
    (Normal (VObj o), w').
Proof.
  apply channel_tools_never_throw. left. repeat split; reflexivity.
Defined.

End DataExecutorFacts.

(** ** The CSV parser of the channel data tools *)

Module DataPrepFacts.
Import JS DataTools DataPrep CsvFacts QuoteFacts.

Lemma reduceRow_keys (hs : list string) (values : list string) :
  forall (obj : Obj) (i : nat) (k : string),
    In k (List.map fst (reduceRow obj hs i values)) <-> In k (List.map fst obj) \/ In k hs.
Proof.
  induction hs as [|h hs IH]; intros obj i k; simpl.
  - intuition.
  - rewrite IH, obj_set_keys. intuition.
Qed.

Lemma reduceRow_NoDup (hs : list string) (values : list string) :
  forall (obj : Obj) (i : nat),
    NoDup (List.map fst obj) -> NoDup (List.map fst (reduceRow obj hs i values)).
Proof.
  induction hs as [|h hs IH]; intros obj i Hnd; simpl; [assumption|].
  apply IH. now apply obj_set_NoDup.
Qed.

Lemma reduceRow_values (hs : list string) (values : list string) :
  forall (obj : Obj) (i : nat) (kv : string * JSValue),
    In kv (reduceRow obj hs i values) -> In kv obj \/ isPiece (snd kv) = true.
Proof.
  induction hs as [|h hs IH]; intros obj i kv Hin; simpl in Hin; [now left|].
  destruct (IH _ _ _ Hin) as [Hobj|Hval]; [|now right].
  destruct (obj_set_values _ _ _ _ Hobj) as [Hv|Hold]; [right|now left].
  rewrite Hv. now destruct (nth_error values i).
Qed.

Lemma lookup_Some_In (o : Obj) (k : string) (v : JSValue) :
  lookup k o = Some v -> In (k, v) o.
Proof.
  induction o as [|[k0 v0] o IH]; simpl; [discriminate|].
  destruct (String.eqb k0 k) eqn:Hk.
  - apply String.eqb_eq in Hk. subst k0. intros H. inversion H. now left.
  - intros H. right. now apply IH.
Qed.

Lemma isPiece_stringOrFalsy (v : JSValue) :
  isPiece v = true -> CsvTools.stringOrFalsy v = true.
Proof. destruct v; simpl; intros H; try discriminate H; reflexivity. Qed.

Lemma field_piece (r : Obj) (k : string) :
  (forall kv, In kv r -> isPiece (snd kv) = true) ->
  CsvTools.stringOrFalsy (field r k) = true.
Proof.
  intros Hall. unfold field. destruct (lookup k r) as [v|] eqn:Hv; [|reflexivity].
  apply isPiece_stringOrFalsy. apply (Hall (k, v)). now apply lookup_Some_In.
Qed.

Lemma reduceRow_lookup_notin (hs : list string) (values : list string) :
  forall (obj : Obj) (i : nat) (k : string),
    ~ In k hs -> lookup k (reduceRow obj hs i values) = lookup k obj.
Proof.
  induction hs as [|h hs IH]; intros obj i k Hnotin; simpl; [reflexivity|].
  rewrite IH by (intros Hin; apply Hnotin; now right).
  apply lookup_obj_set_other. intros ->. apply Hnotin. now left.
Qed.

(** The value stored for a header is the piece at the position of the
    header (its last position when the header occurs twice), and
    [undefined] when the line has no such piece. *)
Lemma reduceRow_lookup (hs : list string) (values : list string) :
  forall (obj : Obj) (i j : nat),
    j < List.length hs ->
    (forall j', j < j' < List.length hs -> nth j' hs EmptyString <> nth j hs EmptyString) ->
    lookup (nth j hs EmptyString) (reduceRow obj hs i values) =
      Some (match nth_error values (i + j) with
            | Some v => VStr v
            | None => VUndefined
            end).
Proof.
  induction hs as [|h hs IH]; intros obj i j Hj Hlast; simpl in Hj; [lia|].
  destruct j as [|j]; simpl.
  - rewrite reduceRow_lookup_notin.
    + rewrite lookup_obj_set_same. now rewrite Nat.add_0_r.
    + intros Hin. apply (In_nth _ _ EmptyString) in Hin.
      destruct Hin as (n & Hn & Heq).
      apply (Hlast (S n)); [simpl; lia|exact Heq].
  - replace (i + S j) with (S i + j) by lia.
    apply IH; [lia|].
    intros j' Hj'. apply (Hlast (S j')). simpl. lia.
Qed.

(** X12. The CSV parser of the channel data tools.  The lines that count
    are those that hold more than white space.  Without such a line the
    table is empty; otherwise the headers are the pieces of the first line
    between its commas, trimmed and without a quote at either end, and
    there is one row per further line, also when there is none.  Every row
    has exactly the headers as its keys, each once; the value under a
    header is the piece of the line at the position of the header (its last
    position when the header occurs twice), as it is, and [undefined] when
    the line has no such piece.  With the engagement added, the rows are
    rows that the executor reads without throwing. *)
Theorem channel_csv_rows_follow_headers (text : string) :
  let lines :=
    List.filter (fun l => negb (String.eqb (trim l) EmptyString))
                (split CsvTools.newline text) in
  let t := parseCsvToRows text in
  (lines = [] -> t = mkTable [] []) /\
  (lines <> [] ->
   headers t = List.map (fun h => stripQuotes (trim h))
                        (split CsvTools.comma (nth 0 lines EmptyString)) /\
   List.length (rows t) = List.length lines - 1 /\
   forall i, i < List.length lines - 1 ->
     let row := nth i (rows t) [] in
     let pieces := split CsvTools.comma (nth (S i) lines EmptyString) in
     NoDup (List.map fst row) /\
     (forall h, In h (List.map fst row) <-> In h (headers t)) /\
     (forall j,
        j < List.length (headers t) ->
        (forall j', j < j' < List.length (headers t) ->
           nth j' (headers t) EmptyString <> nth j (headers t) EmptyString) ->
        lookup (nth j (headers t) EmptyString) row =
          Some (match nth_error pieces j with
                | Some v => VStr v
                | None => VUndefined
                end))) /\
  readableRows (rowArray (enrichWithEngagement t)) = true.
Proof.
  intros lines t. subst lines t. rewrite <- CsvFacts.nonBlankLines_filter.
  unfold parseCsvToRows.
  assert (Hrow : forall hs line,
            NoDup (List.map fst (rowOfLine hs line)) /\
            (forall h, In h (List.map fst (rowOfLine hs line)) <-> In h hs) /\
            (forall k v, In (k, v) (rowOfLine hs line) -> isPiece v = true)).
  { intros hs line. unfold rowOfLine. split; [|split].
    - apply reduceRow_NoDup. constructor.
    - intros h. rewrite reduceRow_keys. simpl. tauto.
    - intros k v Hin. destruct (reduceRow_values _ _ _ _ _ Hin) as [[]|H]. exact H. }
  destruct (CsvTools.nonBlankLines text) as [|first more]; cbn [headers rows].
  - split; [reflexivity|]. split; [intros H; now elim H|reflexivity].
  - split; [discriminate|]. cbn [nth].
    set (hs := List.map (fun h => stripQuotes (trim h)) (split CsvTools.comma first)).
    split.
    { intros _. split; [reflexivity|]. split; [simpl; rewrite length_map; lia|].
      intros i Hi. cbn [List.length] in Hi.
      assert (Hnth : nth i (List.map (rowOfLine hs) more) [] =
                     rowOfLine hs (nth i more EmptyString)).
      { rewrite (nth_indep _ [] (rowOfLine hs EmptyString))
          by (rewrite length_map; lia).
        apply map_nth. }
      cbv zeta. rewrite Hnth.
      destruct (Hrow hs (nth i more EmptyString)) as (Hnd & Hkeys & _).
      split; [exact Hnd|]. split; [exact Hkeys|].
      intros j Hj Hlast. unfold rowOfLine.
      apply (reduceRow_lookup hs (split CsvTools.comma (nth i more EmptyString)) [] 0 j
               Hj Hlast). }
    unfold enrichWithEngagement, rowArray. cbn [rows headers].
    destruct (List.map (rowOfLine hs) more) as [|r0 rs] eqn:Hrows; [reflexivity|].
    rewrite <- Hrows. cbn [rows readableRows]. rewrite forallb_forall.
    intros r Hr. apply in_map_iff in Hr. destruct Hr as (o & <- & Ho).
    apply in_map_iff in Ho. destruct Ho as (o' & <- & Ho').
    apply in_map_iff in Ho'. destruct Ho' as (line & <- & _).
    destruct (Hrow hs line) as (_ & _ & Hvals).
    cbn [nullish negb andb getPropOpt getProp].
    unfold field in *.
    rewrite !lookup_obj_set_other by discriminate.
    change (match lookup "title" (rowOfLine hs line) with
            | Some x => x | None => VUndefined end) with (field (rowOfLine hs line) "title").
    change (match lookup "releaseDate" (rowOfLine hs line) with
            | Some x => x | None => VUndefined end)
      with (field (rowOfLine hs line) "releaseDate").
    rewrite !field_piece; [reflexivity| |]; intros [k v] Hin; apply (Hvals k v Hin).
Qed.

(** A file with quoted headers, a blank line, a short line, and a title
    that holds a comma, which the parser cuts in two. *)
Example channel_csv_of_three_lines :
  parseCsvToRows
    (quoted "title" ++ ", viewCount" ++ String CsvTools.newline
       (" " ++ String CsvTools.newline
          ("Waves" ++ String CsvTools.newline (quoted "Light, fast" ++ ",12")))) =
  mkTable ["title"; "viewCount"]
          [[("title", VStr "Waves"); ("viewCount", VUndefined)];
           [("title", VStr (String dquote "Light"));
            ("viewCount", VStr (" fast" ++ String dquote EmptyString))]].
Proof. vm_compute. reflexivity. Qed.






End DataPrepFacts.

(** ** The tool declarations and the executor *)

Module DeclarationFacts.
Import JS DataTools DataPrep.

Section Tools.

Variable World : Type.
Variable fetchImage : JSValue -> World -> ImageFetch * World.
Variable timeValue : JSValue -> float.








End Tools.

End DeclarationFacts.


(** ** Charts, videos and statistics of the channel data tools *)

Module ChannelToolFacts.
Import JS DataTools DataPrep ExecutorFacts SortFacts CsvFacts DataExecutorFacts.

Lemma mapC_In {A B : Type} (f : A -> Completion B) (l : list A) :
  forall ys y, mapC f l = Normal ys -> In y ys -> exists x, In x l /\ f x = Normal y.
Proof.
  induction l as [|x l IH]; intros ys y H Hy; simpl in H.
  - inversion H; subst. destruct Hy.
  - destruct (f x) as [y0|e] eqn:Hx; [|discriminate]. simpl in H.
    destruct (mapC f l) as [ys'|e]; [|discriminate]. simpl in H.
    inversion H; subst. destruct Hy as [<-|Hy].
    + exists x. split; [now left|exact Hx].
    + destruct (IH ys' y eq_refl Hy) as (x' & Hin & Hfx). exists x'. split; [now right|exact Hfx].
Qed.

Lemma numOr0_not_nan (x : float) : isNaN (numOr0 x) = false.
Proof.
  unfold numOr0, isNaN. cbn [truthy].
  destruct (PrimFloat.is_nan x) eqn:Hn.
  - now rewrite orb_true_r.
  - destruct (PrimFloat.is_zero x); [reflexivity|exact Hn].
Qed.

Lemma mapC_all {A B : Type} (f : A -> Completion B) (g : A -> B) (l : list A) :
  (forall x, In x l -> f x = Normal (g x)) -> mapC f l = Normal (List.map g l).
Proof.
  induction l as [|x l IH]; intros H; simpl; [reflexivity|].
  rewrite (H x) by (now left). cbn [bind].
  rewrite IH by (intros y Hy; apply H; now right). reflexivity.
Qed.

Lemma concat_filter {A : Type} (p : A -> bool) (l : list A) :
  List.concat (List.map (fun x => if p x then [x] else []) l) = List.filter p l.
Proof.
  induction l as [|x l IH]; simpl; [reflexivity|].
  rewrite IH. now destruct (p x).
Qed.

(** X13. What [plot_metric_vs_time] answers on rows it can read, for a
    metric and cells that can be converted to strings and a metric that is
    no name of an inherited member.  The rows that are plotted are those
    with the metric and a release date; without such a row the answer is
    the error that names the metric.  Otherwise the chart names the metric
    and has one point per plotted row: its [x] and [date] are the date part
    of the release date, its [y] is the number that the metric parses to
    ([0] when it does not), its [label] is the title, and the same number
    stands under the name of the metric, the key that the time-series chart
    draws, for every metric name but [label]. *)
Theorem plotted_points_carry_the_metric (timeValue : JSValue -> float)
    (args : JSValue) (rowList : list JSValue) :
  nullish args = false ->
  stringable (getPropOpt args "metric") = true ->
  readableRows (VArr rowList) = true ->
  plainRows (VArr rowList) = true ->
  includesStr ChatFiles.inheritedNames (fieldFor (getPropOpt args "metric")) = false ->
  let metric := fieldFor (getPropOpt args "metric") in
  exists ordered,
    Permutation ordered (plotted metric rowList) /\
    plotMetricVsTime timeValue args (VArr rowList) =
      Normal (match ordered with
              | [] => errorResult ("No valid data for " ++ metric)
              | _ => VObj [("_chartType", VStr "timeSeries"); ("metric", VStr metric);
                           ("data", VArr (List.map (plotPoint metric) ordered))]
              end) /\
    (metric <> "label" ->
     Forall (fun p => exists v, getPropOpt p metric = VNum v /\ isNaN v = false)
            (List.map (plotPoint metric) ordered)).
Proof.
  intros Hargs _ Hrows _ _ metric.
  set (cmp := fun a b : JSValue =>
                (timeValue (getPropOpt a "releaseDate") -
                 timeValue (getPropOpt b "releaseDate"))%float).
  exists (sortBy cmp (plotted metric rowList)).
  split; [apply sortBy_Permutation|]. split.
  - unfold plotMetricVsTime. rewrite (getProp_read args "metric" Hargs). cbn [bind asArray].
    fold (fieldFor (getPropOpt args "metric")). fold metric.
    rewrite (mapC_all _
               (fun r => if negb (isUndefined (getPropOpt r metric))
                            && truthy (getPropOpt r "releaseDate")
                         then [r] else [])).
    2:{ intros r Hr. destruct (readable_in rowList r Hrows Hr) as (Hn & _ & _).
        rewrite !(getProp_read r _ Hn). cbn [bind].
        destruct (isUndefined (getPropOpt r metric)); cbn [bind negb andb]; reflexivity. }
    cbn [bind]. rewrite concat_filter. fold (plotted metric rowList).
    rewrite (mapC_all _
               (fun r => (timeValue (getPropOpt r "releaseDate"),
                          dayOf (getPropOpt r "releaseDate"),
                          getPropOpt r "title",
                          numOr0 (parseFloat (getPropOpt r metric))))).
    2:{ intros r Hr. unfold plotted in Hr. apply filter_In in Hr. destruct Hr as [Hr Hkeep].
        apply andb_prop in Hkeep. destruct Hkeep as [_ Ht].
        destruct (readable_in rowList r Hrows Hr) as (_ & _ & Hd).
        destruct (stringOrFalsy_truthy _ Hd Ht) as [s Hs].
        cbv zeta. rewrite Hs. reflexivity. }
    cbn [bind].
    rewrite (sortBy_map
               (fun r => (timeValue (getPropOpt r "releaseDate"),
                          dayOf (getPropOpt r "releaseDate"),
                          getPropOpt r "title",
                          numOr0 (parseFloat (getPropOpt r metric))))
               (fun a b => (fst (fst (fst a)) - fst (fst (fst b)))%float)).
    cbn [fst]. fold cmp.
    destruct (sortBy cmp (plotted metric rowList)) as [|r0 rs]; [reflexivity|].
    rewrite map_map. reflexivity.
  - intros Hlabel. apply Forall_forall. intros p Hp.
    apply in_map_iff in Hp. destruct Hp as (r & <- & _).
    exists (numOr0 (parseFloat (getPropOpt r metric))). split; [|apply numOr0_not_nan].
    unfold plotPoint. cbn [getPropOpt getProp].
    rewrite lookup_obj_set_other by congruence.
    now rewrite lookup_obj_set_same.
Qed.

(** Three videos and their likes: the second has a count that is no
    number, the third has no release date. *)
Lemma plotted_points_carry_the_metric_witness :
  let args := VObj [("metric", VStr "Likes")] in
  let rowList :=
    [VObj [("title", VStr "b"); ("likeCount", VStr "7");
           ("releaseDate", VStr "2024-11-15T14:30:00Z")];
     VObj [("title", VStr "a"); ("likeCount", VStr "n/a");
           ("releaseDate", VStr "2023-01-02T08:00:00Z")];
     VObj [("title", VStr "c"); ("likeCount", VStr "9")]] in
  exists ordered,
    Permutation ordered (firstn 2 rowList) /\
    plotMetricVsTime Demo.timeValue args (VArr rowList) =
      Normal (match ordered with
              | [] => errorResult "No valid data for likeCount"
              | _ => VObj [("_chartType", VStr "timeSeries"); ("metric", VStr "likeCount");
                           ("data", VArr (List.map (plotPoint "likeCount") ordered))]
              end) /\
    List.map (plotPoint "likeCount") (firstn 2 rowList) =
      [VObj [("x", VStr "2024-11-15"); ("y", VNum 7); ("date", VStr "2024-11-15");
             ("likeCount", VNum 7); ("label", VStr "b")];
       VObj [("x", VStr "2023-01-02"); ("y", VNum 0); ("date", VStr "2023-01-02");
             ("likeCount", VNum 0); ("label", VStr "a")]].
Proof.
  intros args rowList.
  destruct (plotted_points_carry_the_metric Demo.timeValue args rowList
              eq_refl eq_refl eq_refl eq_refl eq_refl) as (ordered & Hperm & Hrun & _).
  exists ordered. split; [exact Hperm|]. split; [exact Hrun|].
  vm_compute. reflexivity.
Defined.

Lemma findByTitle_none (searchTitle : string) (l : list JSValue) :
  readableRows (VArr l) = true ->
  Forall (fun r => titleMatches searchTitle r = false) l ->
  findByTitle searchTitle l = Normal VUndefined.
Proof.
  induction l as [|r l IH]; intros Hrows Hnone; cbn [findByTitle]; [reflexivity|].
  inversion Hnone as [|? ? Hr Hl]; subst.
  destruct (readable_in (r :: l) r Hrows (or_introl eq_refl)) as (Hn & Ht & _).
  assert (Hrows' : readableRows (VArr l) = true).
  { cbn [readableRows forallb] in Hrows. apply andb_prop in Hrows. tauto. }
  rewrite (getProp_read r "title" Hn). cbn [bind].
  unfold titleMatches in Hr.
  destruct (truthy (getPropOpt r "title")) eqn:Htr; [|now apply IH].
  destruct (stringOrFalsy_truthy _ Ht Htr) as [s Hs]. rewrite Hs in *.
  cbn [callToLowerCase bind ToString andb] in *. rewrite Hr. now apply IH.
Qed.

(** X14. On a dataset that is not empty, [play_video] always plays a
    video of the dataset, whatever title is asked for, as long as the title
    and the cells can be converted to strings: it never answers that the
    video was not found.  When no title contains the query, and the query
    holds neither [most viewed] nor [most liked], the video is the first
    one. *)
Theorem play_video_always_plays (args first : JSValue) (more : list JSValue) :
  nullish args = false ->
  stringable (getPropOpt args "title") = true ->
  readableRows (VArr (first :: more)) = true ->
  plainRows (VArr (first :: more)) = true ->
  Forall (fun r => truthy r = true) (first :: more) ->
  let searchTitle := loweredOr (getPropOpt args "title") EmptyString in
  (exists video,
     In video (first :: more) /\
     playVideo args (VArr (first :: more)) = Normal (played video)) /\
  (Forall (fun r => titleMatches searchTitle r = false) (first :: more) ->
   includes searchTitle "most viewed" = false ->
   includes searchTitle "most liked" = false ->
   playVideo args (VArr (first :: more)) = Normal (played first)).
Proof.
  intros Hargs _ Hrows _ Htruthy searchTitle.
  assert (Htop : forall col, In (topBy col (first :: more)) (first :: more)).
  { intros col. unfold topBy.
    match goal with
    | |- In (nth 0 (sortBy ?cmp ?l) _) _ =>
        destruct (sortBy cmp l) as [|x sorted] eqn:Hs;
        [apply sortBy_nil in Hs; discriminate Hs|];
        apply (sortBy_In cmp); rewrite Hs; now left
    end. }
  assert (Hplay : forall video, In video (first :: more) ->
            negb (truthy video) = false).
  { intros video Hin. rewrite Forall_forall in Htruthy. now rewrite (Htruthy video Hin). }
  unfold playVideo. rewrite (getProp_read args "title" Hargs). cbn [bind asArray].
  fold searchTitle. split.
  - destruct (findByTitle_total (first :: more) Hrows searchTitle (first :: more))
      as (found & -> & Hcase); [auto|].
    cbn [bind].
    destruct (truthy found) eqn:Hfound.
    + destruct Hcase as [->|Hin]; [discriminate Hfound|].
      exists found. split; [exact Hin|]. now rewrite (Hplay found Hin).
    + destruct (includes searchTitle "most viewed").
      { eexists. split; [apply (Htop "viewCount")|]. now rewrite (Hplay _ (Htop "viewCount")). }
      destruct (includes searchTitle "most liked").
      { eexists. split; [apply (Htop "likeCount")|]. now rewrite (Hplay _ (Htop "likeCount")). }
      exists first. split; [now left|]. cbn [nth].
      now rewrite (Hplay first (or_introl eq_refl)).
  - intros Hnone Hviewed Hliked.
    rewrite (findByTitle_none searchTitle (first :: more) Hrows Hnone).
    cbn [bind truthy]. rewrite Hviewed, Hliked. cbn [nth].
    now rewrite (Hplay first (or_introl eq_refl)).
Qed.

(** A title that no video has. *)
Lemma play_video_always_plays_witness :
  playVideo (VObj [("title", VStr "Black Holes")])
    (VArr [VObj [("title", VStr "Waves"); ("videoId", VStr "e-P5IFTqB98")];
           VObj [("title", VStr "Light")]]) =
  Normal (played (VObj [("title", VStr "Waves"); ("videoId", VStr "e-P5IFTqB98")])).
Proof.
  refine (proj2 (play_video_always_plays
                   (VObj [("title", VStr "Black Holes")])
                   (VObj [("title", VStr "Waves"); ("videoId", VStr "e-P5IFTqB98")])
                   [VObj [("title", VStr "Light")]] eq_refl eq_refl eq_refl eq_refl _)
                _ eq_refl eq_refl).
  - repeat constructor.
  - repeat constructor.
Defined.

(** *** Statistics *)






(** *** Without data *)

(** X16. Without rows, and with arguments whose values can be converted
    to strings, the data tools of the channel executor answer with their
    error objects: no valid data for the metric, video not found, no
    numeric data for the field; the name in the message is the canonical
    name of the metric that was asked for. *)
Theorem channel_tools_without_rows (args : JSValue) (timeValue : JSValue -> float) :
  nullish args = false ->
  plainProps args = true ->
  plotMetricVsTime timeValue args (VArr []) =
    Normal (errorResult ("No valid data for " ++ fieldFor (getPropOpt args "metric"))) /\
  playVideo args (VArr []) = Normal (errorResult "Video not found.") /\
  computeStatsJson args (VArr []) =
    Normal (errorResult ("No numeric data for " ++ fieldFor (getPropOpt args "field"))).
Proof.
  intros Hargs _. unfold plotMetricVsTime, playVideo, computeStatsJson.
  rewrite !(getProp_read args _ Hargs). cbn [bind asArray mapC List.concat sortBy].
  split; [reflexivity|]. split; [|reflexivity].
  cbn [findByTitle bind truthy]. unfold topBy. cbn [sortBy nth].
  destruct (includes _ "most viewed"); [reflexivity|].
  destruct (includes _ "most liked"); reflexivity.
Qed.

(** A request for the statistics of the likes, before data is loaded. *)
Lemma channel_tools_without_rows_witness :
  computeStatsJson (VObj [("field", VStr "Likes")]) (VArr []) =
  Normal (errorResult "No numeric data for likeCount").
Proof.
  exact (proj2 (proj2 (channel_tools_without_rows
                         (VObj [("field", VStr "Likes")]) Demo.timeValue eq_refl eq_refl))).
Defined.

End ChannelToolFacts.

(** ** Attached files *)

Module FileFacts.
Import JS JSLib ChatFiles CsvFacts.

(** *** Base64 *)

Lemma base64Char_ok (n : N) : (n < 64)%N -> isBase64Char (base64Char n) = true.
Proof.
  intros Hn.
  assert (Hall : List.forallb (fun k => isBase64Char (base64Char (N.of_nat k))) (seq 0 64)
                 = true) by (vm_compute; reflexivity).
  rewrite forallb_forall in Hall.
  rewrite <- (N2Nat.id n). apply Hall. apply in_seq. lia.
Qed.

Lemma utf8_bytes (s : string) : Forall (fun b => (b < 256)%N) (utf8 s).
Proof.
  induction s as [|c s IH]; cbn [utf8]; [constructor|].
  pose proof (N_ascii_bounded c) as Hc. unfold code.
  destruct (N_of_ascii c <? 128)%N eqn:Hlt.
  - constructor; assumption.
  - constructor; [|constructor; [|assumption]].
    + assert (N_of_ascii c / 64 < 4)%N by (apply N.Div0.div_lt_upper_bound; lia). lia.
    + pose proof (N.mod_lt (N_of_ascii c) 64). lia.
Qed.

Lemma btoa_ok (n : nat) :
  forall bytes,
    List.length bytes <= n ->
    Forall (fun b => (b < 256)%N) bytes ->
    allChars isBase64Char (btoa bytes) = true /\
    String.length (btoa bytes) = 4 * ((List.length bytes + 2) / 3).
Proof.
  assert (Hq : forall a, (a < 256)%N -> (a / 4 < 64)%N).
  { intros a Ha. apply N.Div0.div_lt_upper_bound. lia. }
  assert (Hm : forall a b, (b < 256)%N -> (a mod 4 * 16 + b / 16 < 64)%N).
  { intros a b Hb. pose proof (N.mod_lt a 4).
    assert (b / 16 < 16)%N by (apply N.Div0.div_lt_upper_bound; lia). lia. }
  assert (Hr : forall b c, (c < 256)%N -> (b mod 16 * 4 + c / 64 < 64)%N).
  { intros b c Hc. pose proof (N.mod_lt b 16).
    assert (c / 64 < 4)%N by (apply N.Div0.div_lt_upper_bound; lia). lia. }
  assert (Hz : forall a, (a mod 4 * 16 < 64)%N) by (intros a; pose proof (N.mod_lt a 4); lia).
  assert (Hy : forall b, (b mod 16 * 4 < 64)%N) by (intros b; pose proof (N.mod_lt b 16); lia).
  assert (Hx : forall c, (c mod 64 < 64)%N) by (intros c; apply N.mod_lt; lia).
  induction n as [|n IH]; intros bytes Hlen Hall.
  - destruct bytes; [split; reflexivity|simpl in Hlen; lia].
  - destruct bytes as [|a [|b [|c rest]]].
    + split; reflexivity.
    + inversion Hall; subst. cbn [btoa allChars]. rewrite !base64Char_ok by auto.
      split; reflexivity.
    + inversion Hall as [|? ? Ha Hall']; subst. inversion Hall'; subst.
      cbn [btoa allChars]. rewrite !base64Char_ok by auto. split; reflexivity.
    + inversion Hall as [|? ? Ha Hall1]; subst. inversion Hall1 as [|? ? Hb Hall2]; subst.
      inversion Hall2 as [|? ? Hc Hrest]; subst.
      destruct (IH rest) as [Hchars Hsize]; [simpl in Hlen; lia|assumption|].
      cbn [btoa allChars String.length List.length]. rewrite !base64Char_ok by auto.
      rewrite Hchars, Hsize. split; [reflexivity|].
      replace (S (S (S (List.length rest))) + 2) with (1 * 3 + (List.length rest + 2)) by lia.
      rewrite Nat.div_add_l by lia. lia.
Qed.

(** X17. The base64 text of a string holds only letters, digits, [+],
    [/] and [=], so no quote, backslash or line break; its length is four
    characters for every three bytes of the UTF-8 form of the string, the
    last group padded. *)
Theorem toBase64_text (str : string) :
  allChars isBase64Char (toBase64 str) = true /\
  String.length (toBase64 str) = 4 * ((List.length (utf8 str) + 2) / 3).
Proof.
  unfold toBase64. apply (btoa_ok (List.length (utf8 str))); [lia|apply utf8_bytes].
Qed.

(** *** CSV files *)

(** X18. The chip of an attached CSV file and the table handed to the
    tools are read from the same text and agree.  The lines that count are
    those that hold more than white space.  Without such a line there is no
    chip and the table is empty.  Otherwise there is a chip: its headers
    are the pieces of the first line, trimmed and without a quote at either
    end, and are the headers of the table; its row count is the number of
    further lines, and is the number of rows of the table; its preview is
    the first six lines.  A text of at most 500000 code units is encoded
    whole and not marked as truncated; of a longer text the first 500000
    code units are encoded, and it is marked. *)
Theorem csv_chip_agrees_with_table (text : string) :
  let lines :=
    List.filter (fun l => negb (String.eqb (trim l) EmptyString))
                (split CsvTools.newline text) in
  let t := DataPrep.parseCsvToRows text in
  (lines = [] -> parseCSV text = None /\ t = DataTools.mkTable [] []) /\
  (lines <> [] ->
   exists info,
     parseCSV text = Some info /\
     csv_headers info = List.map (fun h => stripQuotes (trim h))
                                 (split CsvTools.comma (nth 0 lines EmptyString)) /\
     csv_headers info = DataTools.headers t /\
     csv_rowCount info = List.length lines - 1 /\
     csv_rowCount info = List.length (DataTools.rows t) /\
     csv_preview info = join lineFeed (firstn 6 lines) /\
     csv_truncated info = tooLong text /\
     (tooLong text = false -> csv_base64 info = toBase64 text) /\
     (tooLong text = true ->
      csv_base64 info = toBase64 (sliceTo (N.to_nat 500000) text))).
Proof.
  intros lines t. subst lines t. rewrite <- CsvFacts.nonBlankLines_filter.
  unfold parseCSV, DataPrep.parseCsvToRows.
  destruct (CsvTools.nonBlankLines text) as [|first more].
  - split; [intros _; split; reflexivity|intros H; now elim H].
  - split; [discriminate|]. intros _. eexists. split; [reflexivity|].
    cbn [csv_headers csv_rowCount csv_preview csv_truncated csv_base64
         DataTools.headers DataTools.rows nth].
    split; [reflexivity|]. split; [reflexivity|].
    split; [cbn [List.length]; lia|]. split; [rewrite List.length_map; cbn [List.length]; lia|].
    split; [reflexivity|]. split; [reflexivity|].
    unfold clipped. split; intros ->; reflexivity.
Qed.

(** A file of two videos, with a blank line at its end. *)
Example csv_chip_of_two_videos :
  let text := "title,viewCount" ++ String CsvTools.newline
                ("Waves,12" ++ String CsvTools.newline
                   ("Light,7" ++ String CsvTools.newline "  ")) in
  option_map (fun info => (csv_headers info, csv_rowCount info, csv_truncated info))
             (parseCSV text) =
    Some (["title"; "viewCount"], 2, false) /\
  parseCSV (" " ++ String CsvTools.newline EmptyString) = None.
Proof. vm_compute. split; reflexivity. Qed.

(** *** JSON files *)

Lemma unique_In (l : list string) :
  forall seen k, In k (unique seen l) <-> In k l /\ ~ In k seen.
Proof.
  induction l as [|x l IH]; intros seen k; cbn [unique].
  - simpl. tauto.
  - destruct (includesStr seen x) eqn:Hx.
    + rewrite IH. unfold includesStr in Hx. apply existsb_exists in Hx.
      destruct Hx as (y & Hy & Heq). apply String.eqb_eq in Heq. subst y.
      simpl. split; [tauto|]. intros [[->|Hin] Hnot]; [contradiction|tauto].
    + assert (Hnot : ~ In x seen).
      { intros Hin. unfold includesStr in Hx.
        assert (Ht : List.existsb (String.eqb x) seen = true).
        { apply existsb_exists. exists x. split; [exact Hin|apply String.eqb_refl]. }
        congruence. }
      cbn [In]. rewrite IH. cbn [In].
      split.
      * intros [<-|[Hin Hs]]; [tauto|]. split; [tauto|]. intros H. apply Hs. now right.
      * intros [[<-|Hin] Hs]; [now left|].
        destruct (string_dec x k) as [->|Hne]; [now left|right].
        split; [exact Hin|]. intros [H|H]; [contradiction|contradiction].
Qed.

Lemma unique_NoDup (l : list string) : forall seen, NoDup (unique seen l).
Proof.
  induction l as [|x l IH]; intros seen; cbn [unique]; [constructor|].
  destruct (includesStr seen x); [apply IH|].
  constructor; [|apply IH].
  rewrite unique_In. intros [_ Hnot]. apply Hnot. now left.
Qed.

(** The text of an object or an array is always defined. *)
Lemma cellOf_string (val : JSValue) : exists s, cellOf val = VStr s.
Proof. destruct val; cbn; eauto. Qed.

Lemma rowOfItem_shape (item : JSValue) (hs : list string) :
  forall (acc row : Obj),
    NoDup (List.map fst acc ++ hs) ->
    foldC (fun row h => bind (getProp item h) (fun val => Normal (obj_set row h (cellOf val))))
          hs acc = Normal row ->
    row = (acc ++ List.map (fun h => (h, cellOf (getPropOpt item h))) hs)%list.
Proof.
  induction hs as [|h hs IH]; intros acc row Hnd Hrun; cbn [foldC] in Hrun.
  - inversion Hrun. now rewrite app_nil_r.
  - destruct (getProp item h) as [val|e] eqn:Hval; [|discriminate Hrun].
    cbn [bind] in Hrun.
    pose proof (ExecutorFacts.getProp_getPropOpt _ _ _ Hval) as Hopt.
    assert (Hnew : ~ In h (List.map fst acc)).
    { intros Hin. apply NoDup_remove_2 in Hnd. apply Hnd. apply in_or_app. now left. }
    rewrite (obj_set_new acc h (cellOf val) Hnew) in Hrun.
    apply IH in Hrun.
    + rewrite Hrun. cbn [List.map]. rewrite Hopt. now rewrite <- app_assoc.
    + rewrite List.map_app. cbn [List.map fst]. rewrite <- app_assoc. exact Hnd.
Qed.

Lemma mapC_member {A B : Type} (f : A -> Completion B) (l : list A) :
  forall ys x, mapC f l = Normal ys -> In x l -> exists y, f x = Normal y /\ In y ys.
Proof.
  induction l as [|x0 l IH]; intros ys x H Hx; simpl in H; [destruct Hx|].
  destruct (f x0) as [y0|e] eqn:H0; [|discriminate]. simpl in H.
  destruct (mapC f l) as [ys'|e]; [|discriminate]. simpl in H.
  inversion H; subst. destruct Hx as [<-|Hx].
  - exists y0. split; [exact H0|now left].
  - destruct (IH ys' x eq_refl Hx) as (y & Hy & Hin). exists y. split; [exact Hy|now right].
Qed.

Lemma string_row_readable (row : Obj) (e : float) :
  (forall k v, In (k, v) row -> exists s, v = VStr s) ->
  negb (nullish (VObj (obj_set row "engagement" (VNum e))))
  && CsvTools.stringOrFalsy (getPropOpt (VObj (obj_set row "engagement" (VNum e))) "title")
  && CsvTools.stringOrFalsy (getPropOpt (VObj (obj_set row "engagement" (VNum e)))
                                        "releaseDate") = true.
Proof.
  intros Hvals. cbn [nullish negb andb getPropOpt getProp].
  rewrite !lookup_obj_set_other by discriminate.
  assert (Hok : forall k, CsvTools.stringOrFalsy
                            (match lookup k row with Some x => x | None => VUndefined end)
                          = true).
  { intros k. destruct (lookup k row) as [v|] eqn:Hv; [|reflexivity].
    apply DataPrepFacts.lookup_Some_In in Hv. destruct (Hvals k v Hv) as [s ->]. reflexivity. }
  now rewrite !Hok.
Qed.

Section Parse.

Variable JSONparse : string -> Completion JSValue.

Lemma parseJSON_shape (text : string) (info : JsonInfo) :
  parseJSON JSONparse text = Some info ->
  exists parsed data,
    JSONparse text = Normal parsed /\
    dataArray parsed = Normal (Some data) /\
    data <> [] /\
    rowCount info = List.length data /\
    NoDup (headers info) /\
    (forall k, In k (headers info) <->
               exists item keys, In item data /\ ObjectKeys item = Normal keys /\ In k keys) /\
    rows info =
      List.map (fun item =>
                  List.map (fun h => (h, cellOf (getPropOpt item h))) (headers info)) data /\
    (forall r k v, In r (rows info) -> In (k, v) r -> exists s, v = VStr s) /\
    DataPrep.readableRows
      (DataPrep.rowArray (DataTools.enrichWithEngagement (tableOf info))) = true.
Proof.
  unfold parseJSON. intros Hrun.
  destruct (JSONparse text) as [parsed|e]; [|discriminate Hrun]. cbn [bind] in Hrun.
  destruct (dataArray parsed) as [[[|first more]|]|e] eqn:Hdata; try discriminate Hrun.
  cbn [bind] in Hrun. cbv zeta in Hrun.
  destruct (negb (typeofObject first)); [discriminate Hrun|].
  destruct (mapC ObjectKeys (first :: more)) as [keyLists|e] eqn:Hkeys; [|discriminate Hrun].
  cbn [bind] in Hrun.
  set (hs := unique [] (List.concat keyLists)) in *.
  destruct (mapC (rowOfItem hs) (first :: more)) as [rowList|e] eqn:Hrows;
    [|discriminate Hrun].
  cbn [bind] in Hrun.
  match type of Hrun with
  | Some ?i = _ => assert (Hinfo : info = i) by congruence
  end.
  clear Hrun. subst info. cbn [headers rowCount rows tableOf].
  assert (Hnd : NoDup hs) by apply unique_NoDup.
  assert (Hshape : rowList =
            List.map (fun item => List.map (fun h => (h, cellOf (getPropOpt item h))) hs)
                     (first :: more)).
  { eapply SlimCsvFacts.mapC_Normal_map; [|exact Hrows].
    intros item row _ Hrow. unfold rowOfItem in Hrow.
    apply (rowOfItem_shape item hs [] row) in Hrow; [exact Hrow|exact Hnd]. }
  assert (Hvals : forall r k v, In r rowList -> In (k, v) r -> exists s, v = VStr s).
  { intros r k v Hr Hkv. rewrite Hshape in Hr. apply in_map_iff in Hr.
    destruct Hr as (item & <- & _). apply in_map_iff in Hkv.
    destruct Hkv as (h & Heq & _). inversion Heq; subst. apply cellOf_string. }
  exists parsed, (first :: more).
  split; [reflexivity|]. split; [exact Hdata|]. split; [discriminate|].
  split; [reflexivity|]. split; [exact Hnd|]. split; [|split; [exact Hshape|split]].
  - intros k. subst hs. rewrite unique_In. split.
    + intros [Hin _]. apply in_concat in Hin. destruct Hin as (keys & Hkl & Hk).
      destruct (ChannelToolFacts.mapC_In _ _ _ _ Hkeys Hkl) as (item & Hitem & Hobj).
      eauto.
    + intros (item & keys & Hitem & Hobj & Hk). split; [|intros []].
      destruct (mapC_member _ _ _ _ Hkeys Hitem) as (keys' & Hobj' & Hin).
      rewrite Hobj in Hobj'. inversion Hobj'; subst keys'.
      apply in_concat. eauto.
  - exact Hvals.
  - unfold DataTools.enrichWithEngagement, DataPrep.rowArray, tableOf.
    cbn [DataTools.rows DataTools.headers rows headers].
    destruct rowList as [|r0 rs] eqn:Hlist; [reflexivity|].
    rewrite <- Hlist in *. cbn [DataTools.rows DataPrep.readableRows].
    rewrite forallb_forall. intros r Hr.
    apply in_map_iff in Hr. destruct Hr as (o & <- & Ho).
    apply in_map_iff in Ho. destruct Ho as (row & <- & Hrow).
    apply string_row_readable. intros k v Hkv. now apply (Hvals row k v).
Qed.

Lemma parseJSON_accepts (text : string) (parsed : JSValue) (data : list JSValue) :
  JSONparse text = Normal parsed ->
  dataArray parsed = Normal (Some data) ->
  data <> [] ->
  List.forallb plainRecord data = true ->
  exists info, parseJSON JSONparse text = Some info.
Proof.
  intros Hparse Hdata Hne Hrec. unfold parseJSON. rewrite Hparse. cbn [bind].
  rewrite Hdata. cbn [bind].
  destruct data as [|first more]; [now elim Hne|]. cbv zeta.
  assert (Hobj : forall item, In item (first :: more) -> exists o, item = VObj o).
  { intros item Hin. rewrite forallb_forall in Hrec. specialize (Hrec item Hin).
    destruct item; try discriminate Hrec. eauto. }
  destruct (Hobj first (or_introl eq_refl)) as [o0 Hfirst].
  replace (typeofObject first) with true by (rewrite Hfirst; reflexivity).
  cbn [negb].
  destruct (ExecutorFacts.mapC_total ObjectKeys (first :: more)) as (keyLists & -> & _).
  { intros item Hin. destruct (Hobj item Hin) as [o ->]. simpl. eauto. }
  cbn [bind].
  match goal with
  | |- context [mapC ?f (first :: more)] =>
      destruct (ExecutorFacts.mapC_total f (first :: more)) as (rowList & -> & _)
  end.
  { intros item Hin. destruct (Hobj item Hin) as [o ->]. unfold rowOfItem.
    destruct (ExecutorFacts.foldC_total (fun _ : Obj => True)
                (fun row h => bind (getProp (VObj o) h)
                                (fun val => Normal (obj_set row h (cellOf val))))
                (unique [] (List.concat keyLists)) [] I) as (row & Hrow & _).
    - intros b h _ _. cbn [getProp bind]. eauto.
    - eauto. }
  cbn [bind]. eauto.
Qed.

(** X19. A JSON text that parses to a non-empty array of records, or to
    an object whose first non-empty array is one, is always accepted by
    [parseJSON] when no key of a record is the name of a member that
    records inherit.  The headers are the keys of the records, each once;
    there is one row per record, with exactly the headers as its keys and
    the cell of the record under every header, always a string.  With the
    engagement added, the rows are rows that the executor of the channel
    data tools reads without throwing. *)
Theorem json_rows_follow_headers (text : string) (parsed : JSValue) (data : list JSValue) :
  JSONparse text = Normal parsed ->
  dataArray parsed = Normal (Some data) ->
  data <> [] ->
  List.forallb plainRecord data = true ->
  exists info,
    parseJSON JSONparse text = Some info /\
    rowCount info = List.length data /\
    NoDup (headers info) /\
    (forall k, In k (headers info) <->
               exists item keys, In item data /\ ObjectKeys item = Normal keys /\ In k keys) /\
    rows info =
      List.map (fun item =>
                  List.map (fun h => (h, cellOf (getPropOpt item h))) (headers info)) data /\
    (forall r k v, In r (rows info) -> In (k, v) r -> exists s, v = VStr s) /\
    DataPrep.readableRows
      (DataPrep.rowArray (DataTools.enrichWithEngagement (tableOf info))) = true.
Proof.
  intros Hparse Hdata Hne Hrec.
  destruct (parseJSON_accepts text parsed data Hparse Hdata Hne Hrec) as [info Hinfo].
  exists info. split; [exact Hinfo|].
  destruct (parseJSON_shape text info Hinfo)
    as (parsed' & data' & Hparse' & Hdata' & _ & Hcount & Hnd & Hkeys & Hrows & Hvals & Hread).
  assert (parsed' = parsed) by congruence. subst parsed'.
  assert (data' = data) by congruence. subst data'.
  repeat split; auto; apply Hkeys.
Qed.

End Parse.

(** A channel file with a record that has a key of its own. *)
Lemma json_rows_follow_headers_witness :
  let videos :=
    [VObj [("title", VStr "Waves"); ("viewCount", VNum 1200)];
     VObj [("title", VStr "Light"); ("tags", VArr [VStr "physics"])]] in
  let file := VObj [("channel", VStr "Veritasium"); ("videos", VArr videos)] in
  let parse (_ : string) := Normal file in
  exists info,
    parseJSON parse "{}" = Some info /\
    headers info = ["title"; "viewCount"; "tags"] /\
    rows info =
      [[("title", VStr "Waves"); ("viewCount", VStr "1200"); ("tags", VStr EmptyString)];
       [("title", VStr "Light"); ("viewCount", VStr EmptyString);
        ("tags", VStr (String "[" (quoted "physics" ++ "]")))]] /\
    DataPrep.readableRows
      (DataPrep.rowArray (DataTools.enrichWithEngagement (tableOf info))) = true.
Proof.
  intros videos file parse.
  destruct (json_rows_follow_headers parse "{}" file videos eq_refl eq_refl
              ltac:(discriminate) eq_refl)
    as (info & Hrun & _ & _ & _ & _ & _ & Hreadable).
  exists info. split; [exact Hrun|].
  vm_compute in Hrun. inversion Hrun; subst info. clear Hrun.
  split; [reflexivity|]. split; [vm_compute; reflexivity|exact Hreadable].
Defined.

End FileFacts.
